(** * Scatter-placement scene generator (gen.py): model and verified properties

    The development embeds the layout engine of [gen.py]: the geometry
    helpers ([rect_from_points], [rects_overlap], [clamp]), the two
    rejection-sampling placement routines that are closures of
    [generate_scene_with_leads], the scene assembly itself, and the
    retry/export wrapper [generate_one] together with [main].

    Modelling conventions.
    - Python floats are idealised as exact rationals ([Q]); rounding, NaN
      and infinities are outside the model.  Decimal literals of the source
      are written as they appear there.  The statements about coordinates
      are chosen to survive rounding: they are order and containment facts,
      or equations between a value and the expression the source computes
      it by; none needs a rounded sum to equal a decimal literal.
    - The process-wide generator of the [random] module is a tape of raw
      draws (a function [nat -> N]) read through a cursor; the cursor is the
      only part of it that the program changes.  [random.random()] is a
      53-bit draw scaled into [0,1), [random.uniform(a, b)] is
      [a + (b - a) * random()], [random.choice(seq)] indexes [seq] with a
      draw reduced below [len(seq)].
    - Exceptions are outcomes of a state-and-exception monad; the state
      reached when the exception is raised is kept, because a raised
      [RuntimeError] does not undo the draws already consumed.
    - The two external tools are oracles that say, for each input file,
      whether [subprocess.run] raises (and what), or else whether the
      expected output file is there after the process has run.
    - Drawing instructions, which the source builds as formatted strings,
      are kept as structured values, one constructor per string template.
    - Attribute dictionaries are association lists in insertion order. *)

From Stdlib Require Import QArith Qabs Lqa List String Ascii ZArith NArith Lia Bool Arith.
From Stdlib Require Import DecimalString Permutation.
From Stdlib Require DecimalNat DecimalFacts.
Import ListNotations.

Open Scope Q_scope.

(** ** Exceptions and the state-and-exception monad *)

Inductive Exn : Type :=
| RuntimeError (msg : string)
| ValueError (msg : string)
| TypeError (msg : string)
| FileNotFoundError (msg : string).

Inductive Outcome (S A : Type) : Type :=
| Ok (a : A) (s : S)
| Raise (e : Exn) (s : S).

Arguments Ok {S A} a s.
Arguments Raise {S A} e s.

Definition M (S A : Type) : Type := S -> Outcome S A.

Definition ret {S A} (a : A) : M S A := fun s => Ok a s.

Definition bind {S A B} (m : M S A) (k : A -> M S B) : M S B :=
  fun s => match m s with
           | Ok a s' => k a s'
           | Raise e s' => Raise e s'
           end.

Definition raise {S A} (e : Exn) : M S A := fun s => Raise e s.

Definition gets {S A} (f : S -> A) : M S A := fun s => Ok (f s) s.

Definition modify {S} (f : S -> S) : M S unit := fun s => Ok tt (f s).

(** A Python expression that may raise, used inside a monadic block. *)
Definition lift_exn {S A} (r : Exn + A) : M S A :=
  match r with
  | inl e => raise e
  | inr a => ret a
  end.

Declare Scope monad_scope.
Delimit Scope monad_scope with monad.
Notation "x <- m ;; k" := (bind m (fun x => k))
  (at level 61, m at next level, right associativity) : monad_scope.
Notation "m ;;; k" := (bind m (fun _ => k))
  (at level 61, right associativity) : monad_scope.

(** ** Geometry helpers *)

Definition Pt : Type := (Q * Q)%type.
Definition Rect : Type := (Q * Q * Q * Q)%type.

(** Python's [x < y] on numbers. *)
Definition Qltb (x y : Q) : bool := negb (Qle_bool y x).

(** [min(xs)] and [max(xs)]: the first element is the running answer and a
    later element replaces it only when it compares strictly smaller
    (respectively larger); an empty argument raises [ValueError]. *)
Definition py_min (xs : list Q) : Exn + Q :=
  match xs with
  | [] => inl (ValueError "min() arg is an empty sequence")
  | x :: r => inr (fold_left (fun m y => if Qltb y m then y else m) r x)
  end.

Definition py_max (xs : list Q) : Exn + Q :=
  match xs with
  | [] => inl (ValueError "max() arg is an empty sequence")
  | x :: r => inr (fold_left (fun m y => if Qltb m y then y else m) r x)
  end.

(** [rect_from_points(pts, pad)].  The four calls in the returned tuple are
    evaluated left to right, so the first failing one is [min(xs)]. *)
Definition rect_from_points (pts : list Pt) (pad : Q) : Exn + Rect :=
  let xs := map fst pts in
  let ys := map snd pts in
  match py_min xs with
  | inl e => inl e
  | inr mnx =>
    match py_min ys with
    | inl e => inl e
    | inr mny =>
      match py_max xs with
      | inl e => inl e
      | inr mxx =>
        match py_max ys with
        | inl e => inl e
        | inr mxy => inr (mnx - pad, mny - pad, mxx + pad, mxy + pad)
        end
      end
    end
  end.

(** [rects_overlap(a, b, pad)]. *)
Definition rects_overlap (a b : Rect) (pad : Q) : bool :=
  let '(ax1, ay1, ax2, ay2) := a in
  let '(bx1, by1, bx2, by2) := b in
  negb (Qltb (ax2 + pad) bx1 || Qltb (bx2 + pad) ax1
        || Qltb (ay2 + pad) by1 || Qltb (by2 + pad) ay1).

(** [clamp(v, lo, hi) = max(lo, min(hi, v))] with the two-argument
    builtins, which return their first argument on ties. *)
Definition min2 (x y : Q) : Q := if Qltb y x then y else x.
Definition max2 (x y : Q) : Q := if Qltb x y then y else x.
Definition clamp (v lo hi : Q) : Q := max2 lo (min2 hi v).

(** ** Ground-truth records and drawing instructions *)

(** Values stored in the attribute dictionaries and in the export. *)
Inductive Value : Type :=
| VStr (s : string)
| VInt (z : Z)
| VNum (q : Q)
| VPt (p : Pt)
| VBool (b : bool).

Definition Dict : Type := list (string * Value).

Record ComponentGT : Type := mkComponentGT {
  cid : string;
  ctype : string;
  p1 : Pt;
  p2 : Pt;
  orientation : string;
  attrs : Dict
}.

(** [MarkerGT.attrs] is named [mattrs] here, field names being global. *)
Record MarkerGT : Type := mkMarkerGT {
  mid : string;
  mtype : string;
  center : Pt;
  mattrs : Dict
}.

(** One constructor per string template of the source:
    - [BoundingBox a b]: [\path[use as bounding box] (a) rectangle (b);]
    - [DrawElement a element label b]: [\draw (a) to[element,l_=label] (b);]
    - [DrawLine a b]: [\draw (a) -- (b);]
    - [DrawNode a shape name]: [\draw (a) node[shape] (name) {};]
    - [DrawAnchorLead anchor dx]: [\draw (anchor) -- ++(dx,0);]
    - [FillCircle c r]: [\fill[black] (c) circle (r pt);]
    - [DrawHump a c1 c2 b]: [\draw (a) .. controls (c1) and (c2) .. (b);] *)
Inductive Cmd : Type :=
| BoundingBox (a b : Pt)
| DrawElement (a : Pt) (element label : string) (b : Pt)
| DrawLine (a b : Pt)
| DrawNode (a : Pt) (shape name : string)
| DrawAnchorLead (anchor : string) (dx : Q)
| FillCircle (c : Pt) (r_pt : Q)
| DrawHump (a c1 c2 b : Pt).

Definition tikz_junction (x y : Q) : Cmd := FillCircle (x, y) 1.7.

Definition tikz_wire_jump (cx cy halfgap hump_h : Q) : Cmd :=
  let x1 := cx - halfgap in
  let x2 := cx + halfgap in
  DrawHump (x1, cy) (x1, cy + hump_h) (x2, cy + hump_h) (x2, cy).

(** ** Constants of the module and of [generate_scene_with_leads] *)

Definition OUT_DIR : string := "out".
Definition DPI : Z := 220.
Definition SEED : Z := 20260128.

Definition view_bbox : Rect := (-10.0, -8.0, 10.0, 8.0).
Definition vx1 : Q := -10.0.
Definition vy1 : Q := -8.0.
Definition vx2 : Q := 10.0.
Definition vy2 : Q := 8.0.
Definition margin : Q := 1.2.
Definition pad : Q := 0.85.

Definition component_specs : list (string * string * string * string) :=
  [ ("AC1", "ACSource", "sV", "AC");
    ("BAT1", "Battery", "battery", "BAT");
    ("C1", "Capacitor", "C", "C1");
    ("D1", "Diode", "D", "D1");
    ("V1", "VoltageSource", "V", "V1");
    ("L1", "Inductor", "L", "L1");
    ("I1", "CurrentSource", "I", "I1");
    ("SW_ID", "IdealSwitch", "switch", "SW");
    ("SW_R", "RealSwitch", "switch", "SWr");
    ("T1", "Transformer", "transformer", "T1");
    ("R1", "Resistor", "R", "R1") ]%string.

(** ** The state of one scene under construction *)

Record SceneState : Type := mkScene {
  cursor : nat;
  comps : list ComponentGT;
  markers : list MarkerGT;
  cmds : list Cmd;
  occupied : list Rect
}.

Definition set_cursor (c : nat) (s : SceneState) : SceneState :=
  mkScene c (comps s) (markers s) (cmds s) (occupied s).

Definition init_scene (c : nat) : SceneState := mkScene c [] [] [] [].

(** What the ground-truth file of one sample holds. *)
Record Export : Type := mkExport {
  image : string;
  tex : string;
  pdf : string;
  components : list ComponentGT;
  e_markers : list MarkerGT;
  meta : Dict
}.

Inductive FileData : Type :=
| TexFile (line_w : Q) (body : list Cmd)
| PdfFile
| PngFile
| JsonFile (e : Export).

(** The process as [generate_one] sees it: the generator's cursor and the
    files written below [OUT_DIR], latest last. *)
Record World : Type := mkWorld {
  w_cursor : nat;
  w_files : list (string * FileData)
}.

Definition write_file (path : string) (d : FileData) : M World unit :=
  modify (fun w => mkWorld (w_cursor w) (w_files w ++ [(path, d)])).

(** [f"sample_{idx:05d}"] *)
Definition fmt_05d (idx : nat) : string :=
  let digits := NilZero.string_of_uint (Nat.to_uint idx) in
  (string_of_list_ascii (repeat "0"%char (5 - String.length digits)) ++ digits)%string.

(** How a raw draw is read: as the 53-bit fraction that [random.random()]
    returns, or as an index below the length of a non-empty sequence
    [x :: xs]. *)
Definition unit_of (k : N) : Q := Z.of_N (k mod 2 ^ 53) # 2 ^ 53.

Definition pick {A : Type} (k : N) (x : A) (xs : list A) : A :=
  nth (N.to_nat (k mod N.of_nat (S (List.length xs)))) (x :: xs) x.

(** What a call of [subprocess.run] on an external tool comes to: the call
    itself raises (a [FileNotFoundError] when the executable is not
    installed), or the process runs to its end and the file expected from
    it is there afterwards, or is not. *)
Inductive ToolRun : Type :=
| RunRaises (e : Exn)
| RunLeaves (output : bool).

Definition delivers (r : ToolRun) : bool :=
  match r with
  | RunLeaves true => true
  | _ => false
  end.

Section Generator.

(** The raw draws delivered by the [random] module after
    [random.seed(SEED)], in order. *)
Variable tape : nat -> N.

(** The external tools: what [subprocess.run] comes to for [pdflatex] on
    the given source and for [pdftoppm] on the given PDF. *)
Variable pdflatex_run : string -> ToolRun.
Variable pdftoppm_run : string -> ToolRun.

Local Open Scope monad_scope.

(** *** The [random] module *)

Definition next_draw : M SceneState N :=
  fun s => Ok (tape (cursor s)) (set_cursor (S (cursor s)) s).

Definition random_random : M SceneState Q :=
  k <- next_draw ;;
  ret (unit_of k).

Definition random_uniform (a b : Q) : M SceneState Q :=
  u <- random_random ;;
  ret (a + (b - a) * u).

(** [random.choice] of the non-empty sequence [x :: xs]. *)
Definition random_choice {A : Type} (x : A) (xs : list A) : M SceneState A :=
  k <- next_draw ;;
  ret (pick k x xs).

(** *** [place_two_pin] *)

Definition comp_len_choices : Q * list Q := (1.6, [1.8; 2.0; 2.2]).
Definition lead_len_choices : Q * list Q := (0.8, [1.0; 1.2]).

(** The samples of one attempt, up to the candidate box. *)
Definition two_pin_candidate : M SceneState (string * Q * Pt * Pt * Pt * Pt * Rect) :=
  ori <- random_choice "h"%string ["v"%string] ;;
  L <- random_choice (fst comp_len_choices) (snd comp_len_choices) ;;
  lead <- random_choice (fst lead_len_choices) (snd lead_len_choices) ;;
  geom <- (if String.eqb ori "h" then
             cx <- random_uniform (vx1 + margin + (L / 2 + lead))
                                  (vx2 - margin - (L / 2 + lead)) ;;
             cy <- random_uniform (vy1 + margin) (vy2 - margin) ;;
             let p1 := (cx - L / 2, cy) in
             let p2 := (cx + L / 2, cy) in
             let w1 := (fst p1 - lead, cy) in
             let w2 := (fst p2 + lead, cy) in
             ret (p1, p2, w1, w2)
           else
             cx <- random_uniform (vx1 + margin) (vx2 - margin) ;;
             cy <- random_uniform (vy1 + margin + (L / 2 + lead))
                                  (vy2 - margin - (L / 2 + lead)) ;;
             let p1 := (cx, cy - L / 2) in
             let p2 := (cx, cy + L / 2) in
             let w1 := (cx, snd p1 - lead) in
             let w2 := (cx, snd p2 + lead) in
             ret (p1, p2, w1, w2)) ;;
  let '(p1, p2, w1, w2) := geom in
  bb <- lift_exn (rect_from_points [p1; p2; w1; w2] pad) ;;
  ret (ori, lead, p1, p2, w1, w2, bb).

(** [any(rects_overlap(bb, old, pad=0.15) for old in occupied)] *)
Definition hits_occupied (bb : Rect) (occ : list Rect) : bool :=
  existsb (fun old => rects_overlap bb old 0.15) occ.

(** The tail of a successful attempt: region, instructions, record. *)
Definition two_pin_commit (cid ctype element label : string)
    (cand : string * Q * Pt * Pt * Pt * Pt * Rect) : M SceneState unit :=
  let '(ori, lead, p1, p2, w1, w2, bb) := cand in
  modify (fun s =>
    mkScene (cursor s)
      (comps s ++
        [mkComponentGT cid ctype p1 p2 ori
           [("label", VStr label); ("element", VStr element);
            ("lead_len", VNum lead); ("lead_end_1", VPt w1);
            ("lead_end_2", VPt w2)]%string])
      (markers s)
      (cmds s ++ [DrawElement p1 element label p2; DrawLine w1 p1; DrawLine p2 w2])
      (occupied s ++ [bb])).

Definition two_pin_error (cid : string) : Exn :=
  RuntimeError ("Could not place " ++ cid ++
    " without overlap. Consider enlarging view_bbox or reducing pad.")%string.

(** [for _ in range(n): ...] followed by the [raise]. *)
Fixpoint place_two_pin_loop (n : nat) (cid ctype element label : string)
    : M SceneState unit :=
  match n with
  | O => raise (two_pin_error cid)
  | S n' =>
    cand <- two_pin_candidate ;;
    occ <- gets occupied ;;
    if hits_occupied (snd cand) occ
    then place_two_pin_loop n' cid ctype element label
    else two_pin_commit cid ctype element label cand
  end.

Definition attempt_budget : nat := 4000.

Definition place_two_pin : string -> string -> string -> string -> M SceneState unit :=
  place_two_pin_loop attempt_budget.

(** *** [place_transformer_node] *)

Definition transformer_candidate : M SceneState (Q * Q * Rect) :=
  x <- random_uniform (vx1 + margin + 2.0) (vx2 - margin - 2.0) ;;
  y <- random_uniform (vy1 + margin + 2.0) (vy2 - margin - 2.0) ;;
  ret (x, y, (x - 2.2, y - 2.2, x + 2.2, y + 2.2)).

Definition transformer_commit (cand : Q * Q * Rect) : M SceneState unit :=
  let '(x, y, bb) := cand in
  modify (fun s =>
    mkScene (cursor s) (comps s) (markers s)
      (cmds s ++ [DrawNode (x, y) "transformer" "T1"])
      (occupied s ++ [bb])) ;;;
  lead <- random_choice 0.9 [1.1; 1.3] ;;
  modify (fun s =>
    mkScene (cursor s)
      (comps s ++
        [mkComponentGT "T1" "Transformer" (x - 1.6, y + 1.9) (x + 1.6, y - 1.9) "na"
           [("label", VStr "T1"); ("lead_len", VNum lead)]%string])
      (markers s)
      (cmds s ++ [DrawAnchorLead "T1.A1" (- lead); DrawAnchorLead "T1.A2" (- lead);
                  DrawAnchorLead "T1.B1" lead; DrawAnchorLead "T1.B2" lead])
      (occupied s)).

Definition transformer_error : Exn :=
  RuntimeError "Could not place transformer without overlap.".

Fixpoint place_transformer_loop (n : nat) : M SceneState unit :=
  match n with
  | O => raise transformer_error
  | S n' =>
    cand <- transformer_candidate ;;
    occ <- gets occupied ;;
    if hits_occupied (snd cand) occ
    then place_transformer_loop n'
    else transformer_commit cand
  end.

Definition place_transformer_node : M SceneState unit :=
  place_transformer_loop attempt_budget.

(** *** [generate_scene_with_leads] *)

(** Step 2: the loop over [component_specs()], skipping ["T1"]. *)
Fixpoint place_bipoles (specs : list (string * string * string * string))
    : M SceneState unit :=
  match specs with
  | [] => ret tt
  | (cid, ctype, element, label) :: rest =>
    (if String.eqb cid "T1" then ret tt
     else place_two_pin cid ctype element label) ;;;
    place_bipoles rest
  end.

(** Step 3: the forced junction. *)
Definition place_junction : M SceneState unit :=
  jx <- random_uniform (vx1 + margin + 2.5) (vx2 - margin - 2.5) ;;
  jy <- random_uniform (vy1 + margin + 2.5) (vy2 - margin - 2.5) ;;
  modify (fun s =>
    mkScene (cursor s) (comps s)
      (markers s ++
        [mkMarkerGT "JUNC1" "junction" (jx, jy) [("min_degree"%string, VInt 3)]])
      (cmds s ++ [DrawLine (jx - 2.0, jy) (jx, jy);
                  DrawLine (jx, jy) (jx + 2.0, jy);
                  DrawLine (jx, jy) (jx, jy + 2.0);
                  tikz_junction jx jy])
      (occupied s)).

(** Step 4: the forced wire jump. *)
Definition place_wire_jump : M SceneState unit :=
  cx <- random_uniform (vx1 + margin + 3.0) (vx2 - margin - 3.0) ;;
  cy <- random_uniform (vy1 + margin + 3.0) (vy2 - margin - 3.0) ;;
  let gap := 0.30 in
  modify (fun s =>
    mkScene (cursor s) (comps s)
      (markers s ++
        [mkMarkerGT "JUMP1" "wire_jump" (cx, cy)
           [("gap", VNum gap); ("hump_h", VNum 0.30)]%string])
      (cmds s ++ [DrawLine (cx, cy - 2.2) (cx, cy + 2.2);
                  DrawLine (cx - 2.4, cy) (cx - gap, cy);
                  tikz_wire_jump cx cy gap 0.30;
                  DrawLine (cx + gap, cy) (cx + 2.4, cy)])
      (occupied s)).

(** The body of the function, on the state of its local lists; the result
    is [line_w]. *)
Definition scene_body : M SceneState Q :=
  line_w <- random_choice 0.8 [1.0; 1.2] ;;
  place_transformer_node ;;;
  place_bipoles component_specs ;;;
  place_junction ;;;
  place_wire_jump ;;;
  ret line_w.

(** A returned scene: the style's line width, the body (bounding-box path,
    then [cmds]), [comps] and [markers]. *)
Definition Scene : Type :=
  (Q * list Cmd * list ComponentGT * list MarkerGT)%type.

(** Every call starts from its own empty lists; only the generator's cursor
    comes in and goes out. *)
Definition generate_scene_with_leads : M nat Scene :=
  fun c =>
    match scene_body (init_scene c) with
    | Ok line_w s =>
      Ok (line_w, BoundingBox (vx1, vy1) (vx2, vy2) :: cmds s, comps s, markers s)
         (cursor s)
    | Raise e s => Raise e (cursor s)
    end.

(** *** [generate_one] and [main] *)

Definition retry_budget : nat := 80.

(** [for _ in range(n): try ... break / except RuntimeError as e:
    last_err = e / else: raise last_err].  Any other exception leaves the
    loop at once. *)
Fixpoint retry_scene (n : nat) (last_err : option Exn) : M nat Scene :=
  match n with
  | O =>
    match last_err with
    | Some e => raise e
    | None => raise (TypeError "exceptions must derive from BaseException")
    end
  | S n' =>
    fun c =>
      match generate_scene_with_leads c with
      | Ok sc c' => Ok sc c'
      | Raise (RuntimeError msg) c' => retry_scene n' (Some (RuntimeError msg)) c'
      | Raise e c' => Raise e c'
      end
  end.

Definition with_cursor {A} (m : M nat A) : M World A :=
  fun w =>
    match m (w_cursor w) with
    | Ok a c => Ok a (mkWorld c (w_files w))
    | Raise e c => Raise e (mkWorld c (w_files w))
    end.

(** The two tool wrappers.  The paths that the source derives with
    [os.path] ([pdf_out], the page image) are passed in by the caller, who
    has them at hand.  An exception of [subprocess.run] leaves the wrapper
    before the existence check is reached; the check reads the tool's
    oracle. *)
Definition compile_tex_to_pdf (tex_path pdf_out : string) : M World string :=
  match pdflatex_run tex_path with
  | RunRaises e => raise e
  | RunLeaves true => write_file pdf_out PdfFile ;;; ret pdf_out
  | RunLeaves false => raise (RuntimeError "pdflatex did not produce PDF")
  end.

Definition pdf_to_png (pdf_path out_png_path : string) : M World string :=
  match pdftoppm_run pdf_path with
  | RunRaises e => raise e
  | RunLeaves true => write_file out_png_path PngFile ;;; ret out_png_path
  | RunLeaves false =>
    raise (RuntimeError
             "pdftoppm did not produce png. Is poppler installed and in PATH?")
  end.

Definition export_meta : Dict :=
  [ ("seed", VInt SEED); ("dpi", VInt DPI);
    ("mode", VStr "scatter_components_with_leads_no_skeleton");
    ("guaranteed_components", VBool true);
    ("guaranteed_junction", VBool true);
    ("guaranteed_wire_jump", VBool true) ]%string.

Definition generate_one (idx : nat) : M World unit :=
  sc <- with_cursor (retry_scene retry_budget None) ;;
  let '(line_w, body, comps, markers) := sc in
  let base := ("sample_" ++ fmt_05d idx)%string in
  let tex_path := (OUT_DIR ++ "/" ++ base ++ ".tex")%string in
  let pdf_path := (OUT_DIR ++ "/" ++ base ++ ".pdf")%string in
  let png_path := (OUT_DIR ++ "/" ++ base ++ ".png")%string in
  let json_path := (OUT_DIR ++ "/" ++ base ++ ".json")%string in
  write_file tex_path (TexFile line_w body) ;;;
  pdf <- compile_tex_to_pdf tex_path pdf_path ;;
  pdf_to_png pdf png_path ;;;
  write_file json_path
    (JsonFile (mkExport (base ++ ".png") (base ++ ".tex") (base ++ ".pdf")
                 comps markers export_meta)).

(** [for i in range(n): generate_one(i)], counting up from [i]. *)
Fixpoint main_loop (n i : nat) : M World unit :=
  match n with
  | O => ret tt
  | S n' => generate_one i ;;; main_loop n' (S i)
  end.

Definition main (n : nat) : M World unit := main_loop n 0.

End Generator.

(** The ground-truth files found in a world, oldest first. *)
Definition ground_truth_exports (w : World) : list (string * Export) :=
  flat_map (fun f => match snd f with
                     | JsonFile e => [(fst f, e)]
                     | _ => []
                     end) (w_files w).

Definition final_world {A} (o : Outcome World A) : World :=
  match o with
  | Ok _ w => w
  | Raise _ w => w
  end.

(** A whole run of the program: the generator freshly seeded, no files
    yet. *)
Definition run (tape : nat -> N) (pdflatex_run pdftoppm_run : string -> ToolRun)
    (n : nat) : Outcome World unit :=
  main tape pdflatex_run pdftoppm_run n (mkWorld 0 []).


(** ** Notions used to state the properties *)

(** A point lies within the canvas [view_bbox]. *)
Definition in_canvas (p : Pt) : Prop :=
  let '(x1, y1, x2, y2) := view_bbox in
  x1 <= fst p /\ fst p <= x2 /\ y1 <= snd p /\ snd p <= y2.

(** The coordinates a ground-truth record holds: its two anchors, then the
    points stored in its attributes, in order. *)
Definition points_of_value (v : Value) : list Pt :=
  match v with
  | VPt p => [p]
  | _ => []
  end.

Definition recorded_points (c : ComponentGT) : list Pt :=
  p1 c :: p2 c :: flat_map (fun kv => points_of_value (snd kv)) (attrs c).

(** The box of a record as the non-overlap property words it: the record's
    own points padded by [pad]. *)
Definition recorded_box (c : ComponentGT) : Exn + Rect :=
  rect_from_points (recorded_points c) pad.

(** The region a record stands for in [occupied]: for a two-terminal
    element the padded box of its recorded points, for the transformer
    (the record named ["T1"], the name by which the catalogue loop skips it) the
    fixed square of half-extent 2.2 around the centre [(x, y)] that its two
    anchors are offsets of. *)
Definition region_of (c : ComponentGT) (r : Rect) : Prop :=
  if String.eqb (cid c) "T1"
  then exists x y,
         p1 c = (x - 1.6, y + 1.9) /\ p2 c = (x + 1.6, y - 1.9)
         /\ r = (x - 2.2, y - 2.2, x + 2.2, y + 2.2)
  else recorded_box c = inr r.

(** No two entries of a region list overlap under the tolerance 0.15. *)
Definition pairwise_clear (occ : list Rect) : Prop :=
  forall i j a b, i <> j ->
    nth_error occ i = Some a -> nth_error occ j = Some b ->
    rects_overlap a b 0.15 = false.

Definition is_hump (c : Cmd) : bool :=
  match c with
  | DrawHump _ _ _ _ => true
  | _ => false
  end.

Definition has_mtype (k : string) (m : MarkerGT) : bool := String.eqb (mtype m) k.

(** *** Attempts, read off the tape *)

(** The candidate that an attempt of [place_two_pin] starting with the
    cursor at [c] computes from the five draws it consumes. *)
Definition two_pin_geom (ori : string) (L lead u1 u2 : Q) : Pt * Pt * Pt * Pt :=
  if String.eqb ori "h" then
    let cx := (vx1 + margin + (L / 2 + lead))
              + ((vx2 - margin - (L / 2 + lead)) - (vx1 + margin + (L / 2 + lead))) * u1 in
    let cy := (vy1 + margin) + ((vy2 - margin) - (vy1 + margin)) * u2 in
    ((cx - L / 2, cy), (cx + L / 2, cy), (cx - L / 2 - lead, cy), (cx + L / 2 + lead, cy))
  else
    let cx := (vx1 + margin) + ((vx2 - margin) - (vx1 + margin)) * u1 in
    let cy := (vy1 + margin + (L / 2 + lead))
              + ((vy2 - margin - (L / 2 + lead)) - (vy1 + margin + (L / 2 + lead))) * u2 in
    ((cx, cy - L / 2), (cx, cy + L / 2), (cx, cy - L / 2 - lead), (cx, cy + L / 2 + lead)).

Definition box4 (g : Pt * Pt * Pt * Pt) : Rect :=
  let '(a, b, w1, w2) := g in
  match rect_from_points [a; b; w1; w2] pad with
  | inr bb => bb
  | inl _ => (0, 0, 0, 0)
  end.

Definition two_pin_at (tape : nat -> N) (c : nat)
    : string * Q * Pt * Pt * Pt * Pt * Rect :=
  let ori := pick (tape c) "h"%string ["v"%string] in
  let L := pick (tape (1 + c)%nat) 1.6 [1.8; 2.0; 2.2] in
  let lead := pick (tape (2 + c)%nat) 0.8 [1.0; 1.2] in
  let g := two_pin_geom ori L lead (unit_of (tape (3 + c)%nat)) (unit_of (tape (4 + c)%nat)) in
  let '(a, b, w1, w2) := g in
  (ori, lead, a, b, w1, w2, box4 g).

(** The candidate of an attempt of [place_transformer_node], two draws. *)
Definition transformer_at (tape : nat -> N) (c : nat) : Q * Q * Rect :=
  let x := (vx1 + margin + 2.0)
           + ((vx2 - margin - 2.0) - (vx1 + margin + 2.0)) * unit_of (tape c) in
  let y := (vy1 + margin + 2.0)
           + ((vy2 - margin - 2.0) - (vy1 + margin + 2.0)) * unit_of (tape (1 + c)%nat) in
  (x, y, (x - 2.2, y - 2.2, x + 2.2, y + 2.2)).

(** The [j]-th attempt of a placement call entered in state [s] fails the
    overlap test. *)
Definition two_pin_rejected (tape : nat -> N) (s : SceneState) (j : nat) : Prop :=
  hits_occupied (snd (two_pin_at tape (5 * j + cursor s))) (occupied s) = true.

Definition transformer_rejected (tape : nat -> N) (s : SceneState) (j : nat) : Prop :=
  hits_occupied (snd (transformer_at tape (2 * j + cursor s))) (occupied s) = true.

(** The cursor left behind by an outcome, and the cursor with which the
    [k]-th whole-scene attempt of [generate_one] starts. *)
Definition cursor_after {A} (o : Outcome nat A) : nat :=
  match o with
  | Ok _ c => c
  | Raise _ c => c
  end.

Definition raised {S A} (o : Outcome S A) : option Exn :=
  match o with
  | Ok _ _ => None
  | Raise e _ => Some e
  end.

Fixpoint attempt_cursor (tape : nat -> N) (k c : nat) : nat :=
  match k with
  | O => c
  | S k' => attempt_cursor tape k' (cursor_after (generate_scene_with_leads tape c))
  end.

(** *** Two concrete tapes *)

(** A tape whose first scene succeeds: the transformer at the origin, the
    first bipole just below it, the other nine in two columns. *)
Definition sixteenth (j : N) : N := (j * 2 ^ 49)%N.

Definition bipole_draws (ux uy : N) : list N :=
  [0; 0; 0; sixteenth ux; sixteenth uy]%N.

Definition layout_draws : list N :=
  ([0; sixteenth 8; sixteenth 8; 0]
   ++ bipole_draws 8 4
   ++ bipole_draws 0 0 ++ bipole_draws 0 3 ++ bipole_draws 0 6
   ++ bipole_draws 0 9 ++ bipole_draws 0 12 ++ bipole_draws 0 15
   ++ bipole_draws 15 0 ++ bipole_draws 15 3 ++ bipole_draws 15 6)%N.

Definition layout_tape (i : nat) : N := nth i layout_draws 0%N.

(** The tape of zero draws, on which no scene can be completed. *)
Definition zero_tape (i : nat) : N := 0%N.

(** *** The effect of each successful step on the scene state *)

Definition two_pin_record (cid0 ctype0 element label : string)
    (cand : string * Q * Pt * Pt * Pt * Pt * Rect) : ComponentGT :=
  let '(ori, lead, a, b, w1, w2, _) := cand in
  mkComponentGT cid0 ctype0 a b ori
    [("label", VStr label); ("element", VStr element);
     ("lead_len", VNum lead); ("lead_end_1", VPt w1);
     ("lead_end_2", VPt w2)]%string.

Definition two_pin_cmds (element label : string)
    (cand : string * Q * Pt * Pt * Pt * Pt * Rect) : list Cmd :=
  let '(_, _, a, b, w1, w2, _) := cand in
  [DrawElement a element label b; DrawLine w1 a; DrawLine b w2].

(** [s'] is [s] with one more two-terminal element, committed at the
    [k]-th attempt of the call. *)
Definition two_pin_placed (tape : nat -> N) (cid0 ctype0 element label : string)
    (s s' : SceneState) : Prop :=
  exists k,
    (k < attempt_budget)%nat
    /\ (forall j, (j < k)%nat -> two_pin_rejected tape s j)
    /\ hits_occupied (snd (two_pin_at tape (5 * k + cursor s))) (occupied s) = false
    /\ s' = mkScene (5 * S k + cursor s)
              (comps s ++ [two_pin_record cid0 ctype0 element label
                             (two_pin_at tape (5 * k + cursor s))])
              (markers s)
              (cmds s ++ two_pin_cmds element label (two_pin_at tape (5 * k + cursor s)))
              (occupied s ++ [snd (two_pin_at tape (5 * k + cursor s))]).

Definition transformer_record (x y lead : Q) : ComponentGT :=
  mkComponentGT "T1" "Transformer" (x - 1.6, y + 1.9) (x + 1.6, y - 1.9) "na"
    [("label", VStr "T1"); ("lead_len", VNum lead)]%string.

Definition transformer_cmds (x y lead : Q) : list Cmd :=
  [DrawNode (x, y) "transformer" "T1";
   DrawAnchorLead "T1.A1" (- lead); DrawAnchorLead "T1.A2" (- lead);
   DrawAnchorLead "T1.B1" lead; DrawAnchorLead "T1.B2" lead].

(** [s'] is [s] with the transformer, committed at the [k]-th attempt. *)
Definition transformer_placed (tape : nat -> N) (s s' : SceneState) : Prop :=
  exists k x y lead,
    (k < attempt_budget)%nat
    /\ (forall j, (j < k)%nat -> transformer_rejected tape s j)
    /\ fst (transformer_at tape (2 * k + cursor s)) = (x, y)
    /\ lead = pick (tape (2 * S k + cursor s)%nat) 0.9 [1.1; 1.3]
    /\ hits_occupied (snd (transformer_at tape (2 * k + cursor s))) (occupied s) = false
    /\ s' = mkScene (S (2 * S k + cursor s))
              (comps s ++ [transformer_record x y lead])
              (markers s)
              (cmds s ++ transformer_cmds x y lead)
              (occupied s ++ [snd (transformer_at tape (2 * k + cursor s))]).

(** The loop over a catalogue, entry by entry. *)
Inductive bipoles_placed (tape : nat -> N)
    : list (string * string * string * string) -> SceneState -> SceneState -> Prop :=
| bipoles_done (s : SceneState) : bipoles_placed tape [] s s
| bipoles_skip (ctype0 element label : string) rest (s s' : SceneState) :
    bipoles_placed tape rest s s' ->
    bipoles_placed tape (("T1"%string, ctype0, element, label) :: rest) s s'
| bipoles_step (cid0 ctype0 element label : string) rest (s s1 s' : SceneState) :
    String.eqb cid0 "T1" = false ->
    two_pin_placed tape cid0 ctype0 element label s s1 ->
    bipoles_placed tape rest s1 s' ->
    bipoles_placed tape ((cid0, ctype0, element, label) :: rest) s s'.

Definition uniform_at (tape : nat -> N) (a b : Q) (c : nat) : Q :=
  a + (b - a) * unit_of (tape c).

Definition junction_state (tape : nat -> N) (s : SceneState) : SceneState :=
  let jx := uniform_at tape (vx1 + margin + 2.5) (vx2 - margin - 2.5) (cursor s) in
  let jy := uniform_at tape (vy1 + margin + 2.5) (vy2 - margin - 2.5) (1 + cursor s) in
  mkScene (2 + cursor s) (comps s)
    (markers s ++
      [mkMarkerGT "JUNC1" "junction" (jx, jy) [("min_degree"%string, VInt 3)]])
    (cmds s ++ [DrawLine (jx - 2.0, jy) (jx, jy);
                DrawLine (jx, jy) (jx + 2.0, jy);
                DrawLine (jx, jy) (jx, jy + 2.0);
                FillCircle (jx, jy) 1.7])
    (occupied s).

Definition wire_jump_state (tape : nat -> N) (s : SceneState) : SceneState :=
  let cx := uniform_at tape (vx1 + margin + 3.0) (vx2 - margin - 3.0) (cursor s) in
  let cy := uniform_at tape (vy1 + margin + 3.0) (vy2 - margin - 3.0) (1 + cursor s) in
  mkScene (2 + cursor s) (comps s)
    (markers s ++
      [mkMarkerGT "JUMP1" "wire_jump" (cx, cy)
         [("gap", VNum 0.30); ("hump_h", VNum 0.30)]%string])
    (cmds s ++ [DrawLine (cx, cy - 2.2) (cx, cy + 2.2);
                DrawLine (cx - 2.4, cy) (cx - 0.30, cy);
                DrawHump (cx - 0.30, cy) (cx - 0.30, cy + 0.30)
                         (cx + 0.30, cy + 0.30) (cx + 0.30, cy);
                DrawLine (cx + 0.30, cy) (cx + 2.4, cy)])
    (occupied s).

(** What is maintained while the catalogue is placed: every record has its
    region, the regions are pairwise clear of each other, and all recorded
    coordinates are on the canvas. *)
Definition scene_inv (s : SceneState) : Prop :=
  Forall2 region_of (comps s) (occupied s)
  /\ pairwise_clear (occupied s)
  /\ Forall (fun c => Forall in_canvas (recorded_points c)) (comps s).

Definition spec_cid (sp : string * string * string * string) : string :=
  fst (fst (fst sp)).

Definition two_terminal (c : ComponentGT) : Prop :=
  cid c <> "T1"%string
  /\ (orientation c = "h"%string \/ orientation c = "v"%string).

(** *** Parts of a returned scene *)

Definition scene_body_cmds (sc : Scene) : list Cmd := snd (fst (fst sc)).
Definition scene_comps (sc : Scene) : list ComponentGT := snd (fst sc).
Definition scene_markers (sc : Scene) : list MarkerGT := snd sc.

(** The non-overlap property in terms of the records alone: the padded
    boxes of the recorded points of any two records are clear of each
    other under the tolerance 0.15. *)
Definition recorded_boxes_clear (cs : list ComponentGT) : Prop :=
  forall i j ci cj bi bj, i <> j ->
    nth_error cs i = Some ci -> nth_error cs j = Some cj ->
    recorded_box ci = inr bi -> recorded_box cj = inr bj ->
    rects_overlap bi bj 0.15 = false.

(** The wire-jump marker at [(cx, cy)] and the four instructions drawn for
    it. *)
Definition wire_jump_marker (cx cy : Q) : MarkerGT :=
  mkMarkerGT "JUMP1" "wire_jump" (cx, cy)
    [("gap", VNum 0.30); ("hump_h", VNum 0.30)]%string.

Definition wire_jump_cmds (cx cy : Q) : list Cmd :=
  [DrawLine (cx, cy - 2.2) (cx, cy + 2.2);
   DrawLine (cx - 2.4, cy) (cx - 0.30, cy);
   DrawHump (cx - 0.30, cy) (cx - 0.30, cy + 0.30)
            (cx + 0.30, cy + 0.30) (cx + 0.30, cy);
   DrawLine (cx + 0.30, cy) (cx + 2.4, cy)].

Definition junction_marker (jx jy : Q) : MarkerGT :=
  mkMarkerGT "JUNC1" "junction" (jx, jy) [("min_degree"%string, VInt 3)].

(** The scene that the first call returns on [layout_tape], and the cursor
    it leaves. *)
Definition layout_outcome : Scene * nat :=
  Eval vm_compute in
    match generate_scene_with_leads layout_tape 0%nat with
    | Ok sc c => (sc, c)
    | Raise _ c => ((0, [], [], []), c)
    end.

Definition layout_scene : Scene := fst layout_outcome.

(** *** Whole-scene attempts and exports *)

(** The [j]-th whole-scene attempt of a sample whose first attempt starts
    with the cursor at [c]: it runs the scene body on fresh, empty lists,
    and either raises a [RuntimeError] or returns a scene. *)
Definition scene_attempt_fails (tape : nat -> N) (c j : nat) : Prop :=
  exists msg s,
    scene_body tape (init_scene (attempt_cursor tape j c)) = Raise (RuntimeError msg) s
    /\ cursor s = attempt_cursor tape (S j) c.

Definition scene_attempt_returns (tape : nat -> N) (c k : nat) (sc : Scene) (c' : nat)
    : Prop :=
  exists line_w s,
    scene_body tape (init_scene (attempt_cursor tape k c)) = Ok line_w s
    /\ sc = (line_w, BoundingBox (vx1, vy1) (vx2, vy2) :: cmds s, comps s, markers s)
    /\ c' = cursor s.

(** The paths of sample [idx] and the ground truth written for a scene. *)
Definition sample_path (idx : nat) (ext : string) : string :=
  (OUT_DIR ++ "/" ++ ("sample_" ++ fmt_05d idx) ++ ext)%string.

Definition sample_export (idx : nat) (sc : Scene) : Export :=
  let base := ("sample_" ++ fmt_05d idx)%string in
  mkExport (base ++ ".png") (base ++ ".tex") (base ++ ".pdf")
    (scene_comps sc) (scene_markers sc) export_meta.

(** An export that holds a whole scene. *)
Definition complete_export (e : Export) : Prop :=
  List.length (components e) = 11%nat /\ List.length (e_markers e) = 2%nat.

(** A state in which the whole canvas is taken. *)
Definition crowded_scene : SceneState :=
  mkScene 0 [] [] [] [(-10.0, -8.0, 10.0, 8.0)].

(** The largest value to which the source's floats can round a sum whose
    exact value is [x]: the relative error of one binary64 operation is at
    most [2^-53]. *)
Definition rounded_up (x : Q) : Q := x + Qabs x * (1 # 2 ^ 53).

(** A tape on which the first whole-scene attempt fails and the second
    succeeds: zeros for as long as the failing attempt reads, then the
    draws of [layout_tape]. *)
Definition first_failure : nat := (5 * attempt_budget + 4)%nat.

Definition recovering_tape (i : nat) : N :=
  if (i <? first_failure)%nat then 0%N else layout_tape (i - first_failure).

(** The scene that a whole-scene attempt from cursor [c] returns, with the
    number of draws it took. *)
Definition scene_from (tape : nat -> N) (c : nat) : option (Scene * nat) :=
  match generate_scene_with_leads tape c with
  | Ok sc c' => if (c <=? c')%nat then Some (sc, (c' - c)%nat) else None
  | Raise _ _ => None
  end.

(** ** Further notions: rectangles as point sets *)

Definition in_rect (r : Rect) (p : Pt) : Prop :=
  let '(x1, y1, x2, y2) := r in
  x1 <= fst p /\ fst p <= x2 /\ y1 <= snd p /\ snd p <= y2.

Definition well_formed (r : Rect) : Prop :=
  let '(x1, y1, x2, y2) := r in x1 <= x2 /\ y1 <= y2.

(** [r] lies within [r'], and the two have equal sides. *)
Definition rect_within (r r' : Rect) : Prop :=
  let '(x1, y1, x2, y2) := r in
  let '(x1', y1', x2', y2') := r' in
  x1' <= x1 /\ y1' <= y1 /\ x2 <= x2' /\ y2 <= y2'.

Definition rect_eq (r r' : Rect) : Prop :=
  let '(x1, y1, x2, y2) := r in
  let '(x1', y1', x2', y2') := r' in
  x1 == x1' /\ y1 == y1' /\ x2 == x2' /\ y2 == y2'.

(** ** Further notions: candidates, layout and drawing *)

(** The candidate of a horizontal, respectively vertical, attempt with body
    length [L], lead length [lead] and centre [(cx, cy)], written out. *)
Definition h_candidate (L lead cx cy : Q)
    : string * Q * Pt * Pt * Pt * Pt * Rect :=
  ("h"%string, lead,
   (cx - L / 2, cy), (cx + L / 2, cy),
   (cx - L / 2 - lead, cy), (cx + L / 2 + lead, cy),
   (cx - L / 2 - lead - pad, cy - pad, cx + L / 2 + lead + pad, cy + pad)).

Definition v_candidate (L lead cx cy : Q)
    : string * Q * Pt * Pt * Pt * Pt * Rect :=
  ("v"%string, lead,
   (cx, cy - L / 2), (cx, cy + L / 2),
   (cx, cy - L / 2 - lead), (cx, cy + L / 2 + lead),
   (cx - pad, cy - L / 2 - lead - pad, cx + pad, cy + L / 2 + lead + pad)).

(** [d.get(k)] on an attribute dictionary. *)
Fixpoint lookup (k : string) (d : Dict) : option Value :=
  match d with
  | [] => None
  | (k', v) :: rest => if String.eqb k k' then Some v else lookup k rest
  end.

(** The catalogue entries that the loop of step 2 places. *)
Definition bipole_specs : list (string * string * string * string) :=
  filter (fun sp => negb (String.eqb (spec_cid sp) "T1")) component_specs.

(** One placed two-terminal element: its record, its region and its three
    instructions, all read off one candidate on the tape. *)
Definition placed_as (tape : nat -> N) (sp : string * string * string * string)
    (item : ComponentGT * Rect * list Cmd) : Prop :=
  let '(cid0, ctype0, element, label) := sp in
  exists cur : nat,
    item = (two_pin_record cid0 ctype0 element label (two_pin_at tape cur),
            snd (two_pin_at tape cur),
            two_pin_cmds element label (two_pin_at tape cur)).

Definition item_comp (it : ComponentGT * Rect * list Cmd) : ComponentGT := fst (fst it).
Definition item_box (it : ComponentGT * Rect * list Cmd) : Rect := snd (fst it).
Definition item_cmds (it : ComponentGT * Rect * list Cmd) : list Cmd := snd it.

Definition junction_cmds (jx jy : Q) : list Cmd :=
  [DrawLine (jx - 2.0, jy) (jx, jy);
   DrawLine (jx, jy) (jx + 2.0, jy);
   DrawLine (jx, jy) (jx, jy + 2.0);
   FillCircle (jx, jy) 1.7].

(** The absolute coordinates that an instruction mentions; the leads of the
    transformer are relative to anchors of the node and mention none. *)
Definition cmd_points (d : Cmd) : list Pt :=
  match d with
  | BoundingBox a b => [a; b]
  | DrawElement a _ _ b => [a; b]
  | DrawLine a b => [a; b]
  | DrawNode a _ _ => [a]
  | DrawAnchorLead _ _ => []
  | FillCircle c _ => [c]
  | DrawHump a c1 c2 b => [a; c1; c2; b]
  end.

(** A two-terminal record is a straight piece: body and leads lie on one
    axis, in the order lead end, anchor, anchor, lead end, and the recorded
    [lead_len] is one of the three options. *)
Definition straight_bipole (c : ComponentGT) : Prop :=
  exists lead w1 w2,
    In lead [0.8; 1.0; 1.2]
    /\ lookup "lead_len" (attrs c) = Some (VNum lead)
    /\ lookup "lead_end_1" (attrs c) = Some (VPt w1)
    /\ lookup "lead_end_2" (attrs c) = Some (VPt w2)
    /\ ((orientation c = "h"%string
         /\ snd (p2 c) = snd (p1 c) /\ snd w1 = snd (p1 c) /\ snd w2 = snd (p1 c)
         /\ fst w1 < fst (p1 c) /\ fst (p1 c) < fst (p2 c) /\ fst (p2 c) < fst w2)
        \/ (orientation c = "v"%string
            /\ fst (p2 c) = fst (p1 c) /\ fst w1 = fst (p1 c) /\ fst w2 = fst (p1 c)
            /\ snd w1 < snd (p1 c) /\ snd (p1 c) < snd (p2 c)
            /\ snd (p2 c) < snd w2)).

(** What a record shows of its catalogue entry. *)
Definition record_tags (c : ComponentGT)
    : string * string * option Value * option Value :=
  (cid c, ctype c, lookup "element" (attrs c), lookup "label" (attrs c)).

Definition spec_tags (sp : string * string * string * string)
    : string * string * option Value * option Value :=
  let '(cid0, ctype0, element, label) := sp in
  (cid0, ctype0, Some (VStr element), Some (VStr label)).

(** Two points are more than [t] apart along some axis. *)
Definition apart (t : Q) (p q : Pt) : Prop :=
  fst p + t < fst q \/ fst q + t < fst p \/ snd p + t < snd q \/ snd q + t < snd p.

(** What a region has to do with the record it was reserved for. *)
Definition region_holds (c : ComponentGT) (r : Rect) : Prop :=
  well_formed r /\ Forall (in_rect r) (recorded_points c) /\ rect_within r view_bbox.

(** Every absolute coordinate of an instruction lies within the canvas. *)
Definition drawn_in_canvas (d : Cmd) : Prop := Forall in_canvas (cmd_points d).

Definition is_dot (c : Cmd) : bool :=
  match c with
  | FillCircle _ _ => true
  | _ => false
  end.

(** The drawing shows a two-terminal record: its element between the two
    anchors, with the catalogue's element and label, and its two leads. *)
Definition bipole_drawn (body : list Cmd) (r : ComponentGT) : Prop :=
  exists element label w1 w2,
    lookup "element" (attrs r) = Some (VStr element)
    /\ lookup "label" (attrs r) = Some (VStr label)
    /\ lookup "lead_end_1" (attrs r) = Some (VPt w1)
    /\ lookup "lead_end_2" (attrs r) = Some (VPt w2)
    /\ In (DrawElement (p1 r) element label (p2 r)) body
    /\ In (DrawLine w1 (p1 r)) body
    /\ In (DrawLine (p2 r) w2) body.

(** The drawing shows the transformer record: a node at the centre that the
    two anchors are offsets of, and four leads of the recorded length. *)
Definition transformer_drawn (body : list Cmd) (r : ComponentGT) : Prop :=
  exists x y lead,
    p1 r = (x - 1.6, y + 1.9) /\ p2 r = (x + 1.6, y - 1.9)
    /\ lookup "lead_len" (attrs r) = Some (VNum lead)
    /\ In lead [0.9; 1.1; 1.3]
    /\ In (DrawNode (x, y) "transformer" "T1") body
    /\ In (DrawAnchorLead "T1.A1" (- lead)) body
    /\ In (DrawAnchorLead "T1.A2" (- lead)) body
    /\ In (DrawAnchorLead "T1.B1" lead) body
    /\ In (DrawAnchorLead "T1.B2" lead) body.

(** The state an outcome ends in. *)
Definition outcome_state {S A} (o : Outcome S A) : S :=
  match o with
  | Ok _ s => s
  | Raise _ s => s
  end.

(** ** Further notions: files and sample names *)

(** The four files of sample [idx] for scene [sc], in the order
    [generate_one] writes them. *)
Definition tex_file (idx : nat) (sc : Scene) : string * FileData :=
  (sample_path idx ".tex", TexFile (fst (fst (fst sc))) (scene_body_cmds sc)).
Definition pdf_file (idx : nat) : string * FileData := (sample_path idx ".pdf", PdfFile).
Definition png_file (idx : nat) : string * FileData := (sample_path idx ".png", PngFile).
Definition json_file (idx : nat) (sc : Scene) : string * FileData :=
  (sample_path idx ".json", JsonFile (sample_export idx sc)).

Definition pdflatex_error : Exn := RuntimeError "pdflatex did not produce PDF".
Definition pdftoppm_error : Exn :=
  RuntimeError "pdftoppm did not produce png. Is poppler installed and in PATH?".

(** The ground truth of the samples numbered from [i] on, one per scene. *)
Definition exports_from (i : nat) (scs : list Scene) : list (string * Export) :=
  map (fun js => (sample_path (fst js) ".json", sample_export (fst js) (snd js)))
      (combine (seq i (List.length scs)) scs).

(** [int(s)] on a string of decimal digits. *)
Definition parse_index (s : string) : option nat :=
  option_map Nat.of_uint (NilZero.uint_of_string s).

(** The scenes of the samples of a run that no tool stops: what the retry
    loop returns from the cursor the sample before left, up to the first
    sample at which it raises. *)
Fixpoint sample_scenes (tape : nat -> N) (n c : nat) : list Scene :=
  match n with
  | O => []
  | S n' =>
    match retry_scene tape retry_budget None c with
    | Ok sc c' => sc :: sample_scenes tape n' c'
    | Raise _ _ => []
    end
  end.
(** * Properties *)

(** ** Comparisons and the generic builtins *)

Lemma Qltb_lt (x y : Q) : Qltb x y = true <-> x < y.
Proof.
  unfold Qltb. rewrite negb_true_iff. split.
  - intros H. apply Qnot_le_lt. intros Hle.
    apply Qle_bool_iff in Hle. congruence.
  - intros H. destruct (Qle_bool y x) eqn:E; [|reflexivity].
    apply Qle_bool_iff in E. exfalso. apply (Qlt_not_le _ _ H E).
Qed.

Lemma Qltb_ge (x y : Q) : Qltb x y = false <-> y <= x.
Proof.
  unfold Qltb. rewrite negb_false_iff. apply Qle_bool_iff.
Qed.

Lemma min_fold_spec (r : list Q) (x : Q) :
  let m := fold_left (fun m y => if Qltb y m then y else m) r x in
  In m (x :: r) /\ forall y, In y (x :: r) -> m <= y.
Proof.
  revert x. induction r as [|z r IH]; intros x; simpl.
  - split; [now left|]. intros y [<-|[]]. apply Qle_refl.
  - destruct (Qltb z x) eqn:E.
    + destruct (IH z) as [Hin Hle]. split.
      * right. exact Hin.
      * intros y [<-|Hy].
        -- apply Qltb_lt in E. eapply Qle_trans; [apply Hle; now left|].
           apply Qlt_le_weak, E.
        -- apply Hle. exact Hy.
    + destruct (IH x) as [Hin Hle]. split.
      * destruct Hin as [Hin|Hin]; [left; exact Hin|right; right; exact Hin].
      * intros y [<-|[<-|Hy]].
        -- apply Hle. now left.
        -- apply Qltb_ge in E. eapply Qle_trans; [apply Hle; now left|exact E].
        -- apply Hle. now right.
Qed.

Lemma max_fold_spec (r : list Q) (x : Q) :
  let m := fold_left (fun m y => if Qltb m y then y else m) r x in
  In m (x :: r) /\ forall y, In y (x :: r) -> y <= m.
Proof.
  revert x. induction r as [|z r IH]; intros x; simpl.
  - split; [now left|]. intros y [<-|[]]. apply Qle_refl.
  - destruct (Qltb x z) eqn:E.
    + destruct (IH z) as [Hin Hle]. split.
      * right. exact Hin.
      * intros y [<-|Hy].
        -- apply Qltb_lt in E. eapply Qle_trans; [|apply Hle; now left].
           apply Qlt_le_weak, E.
        -- apply Hle. exact Hy.
    + destruct (IH x) as [Hin Hle]. split.
      * destruct Hin as [Hin|Hin]; [left; exact Hin|right; right; exact Hin].
      * intros y [<-|[<-|Hy]].
        -- apply Hle. now left.
        -- apply Qltb_ge in E. eapply Qle_trans; [exact E|apply Hle; now left].
        -- apply Hle. now right.
Qed.

(** ** C6: the bounding box *)

(** C6, counterexample: on the empty point list [rect_from_points] does not
    return a rectangle; the first [min] raises [ValueError]. *)
Lemma rect_from_points_empty_raises :
  rect_from_points [] 0.85 = inl (ValueError "min() arg is an empty sequence")
  /\ ~ (exists r, rect_from_points [] 0.85 = inr r).
Proof.
  split; [reflexivity|]. intros [r Hr]. discriminate Hr.
Qed.

(** C6, amended: on every non-empty point list and every padding,
    [rect_from_points] returns the rectangle whose sides are the least and
    greatest coordinates occurring among the points, moved outwards by the
    padding, so that it encloses every point with that much room; on the
    empty list it raises [ValueError]. *)
Theorem rect_from_points_spec (pts : list Pt) (pad0 : Q) :
  match pts with
  | [] => rect_from_points pts pad0
          = inl (ValueError "min() arg is an empty sequence")
  | _ :: _ =>
    exists mnx mny mxx mxy,
      rect_from_points pts pad0 = inr (mnx - pad0, mny - pad0, mxx + pad0, mxy + pad0)
      /\ In mnx (map fst pts) /\ In mny (map snd pts)
      /\ In mxx (map fst pts) /\ In mxy (map snd pts)
      /\ forall p, In p pts ->
           mnx <= fst p /\ fst p <= mxx /\ mny <= snd p /\ snd p <= mxy
  end.
Proof.
  destruct pts as [|p0 rest]; [reflexivity|].
  unfold rect_from_points. cbn [map py_min py_max].
  destruct (min_fold_spec (map fst rest) (fst p0)) as [Hi1 Hl1].
  destruct (min_fold_spec (map snd rest) (snd p0)) as [Hi2 Hl2].
  destruct (max_fold_spec (map fst rest) (fst p0)) as [Hi3 Hl3].
  destruct (max_fold_spec (map snd rest) (snd p0)) as [Hi4 Hl4].
  do 4 eexists. split; [reflexivity|].
  repeat split; try assumption.
  - apply Hl1. apply (in_map fst (p0 :: rest)). assumption.
  - apply Hl3. apply (in_map fst (p0 :: rest)). assumption.
  - apply Hl2. apply (in_map snd (p0 :: rest)). assumption.
  - apply Hl4. apply (in_map snd (p0 :: rest)). assumption.
Qed.

(** ** C5: the overlap predicate *)

Lemma rounded_up_above (x : Q) : x <= rounded_up x.
Proof.
  unfold rounded_up.
  assert (H : 0 <= Qabs x * (1 # 2 ^ 53))
    by (apply Qmult_le_0_compat; [apply Qabs_nonneg|discriminate]).
  lra.
Qed.

Lemma rects_overlap_false_iff (ax1 ay1 ax2 ay2 bx1 by1 bx2 by2 t : Q) :
  rects_overlap (ax1, ay1, ax2, ay2) (bx1, by1, bx2, by2) t = false
  <-> (ax2 + t < bx1 \/ bx2 + t < ax1 \/ ay2 + t < by1 \/ by2 + t < ay1).
Proof.
  unfold rects_overlap. rewrite negb_false_iff, !orb_true_iff, !Qltb_lt.
  tauto.
Qed.

Lemma rects_overlap_sym (a b : Rect) (t : Q) :
  rects_overlap a b t = rects_overlap b a t.
Proof.
  destruct a as [[[ax1 ay1] ax2] ay2], b as [[[bx1 by1] bx2] by2].
  unfold rects_overlap. f_equal.
  destruct (Qltb (ax2 + t) bx1), (Qltb (bx2 + t) ax1),
           (Qltb (ay2 + t) by1), (Qltb (by2 + t) ay1); reflexivity.
Qed.

(** C5, counterexample.  Two unit squares whose gap along x is exactly the
    tolerance [0.5] are separated by at least the tolerance, and the
    predicate answers true; and with the tolerance [-2] it answers false on
    two rectangles that share the point [(1, 0)], hence are not strictly
    separated.  All the numbers are dyadic, so the sums are exact in the
    source's floats as well. *)
Lemma rects_overlap_at_exact_gap :
  (1 + 0.5 <= 1.5
   /\ rects_overlap (0, 0, 1, 1) (1.5, 0, 2.5, 1) 0.5 = true)
  /\ (rects_overlap (0, 0, 2, 2) (1, 0, 3, 2) (-2) = false
      /\ in_rect (0, 0, 2, 2) (1, 0) /\ in_rect (1, 0, 3, 2) (1, 0)
      /\ ~ (2 < 1 \/ 3 < 0 \/ 2 < 0 \/ 2 < 0)).
Proof.
  split; [split; [discriminate|reflexivity]|].
  split; [reflexivity|]. split; [|split].
  - unfold in_rect. cbn [fst snd]. repeat split; discriminate.
  - unfold in_rect. cbn [fst snd]. repeat split; discriminate.
  - intros [H|[H|[H|H]]]; discriminate H.
Qed.

(** C5, amended: for all rectangles [a], [b] and every tolerance [t],
    [rects_overlap] is symmetric; it answers true whenever no axis
    separates [a] and [b] by strictly more than [t], so also at a gap of
    exactly [t]; it answers false only when some axis separates them by
    strictly more than [t], which for [0 <= t] means that they are
    strictly apart.  For [t = 0] it answers false exactly when they are
    strictly apart, and for any [t] it does answer false once a gap exceeds
    [t] by more than the rounding of the sum [ax2 + pad] (a relative
    [2^-53] in the source's floats, nothing in the model). *)
Theorem rects_overlap_strict_separation
    (ax1 ay1 ax2 ay2 bx1 by1 bx2 by2 t : Q) :
  let a := (ax1, ay1, ax2, ay2) in
  let b := (bx1, by1, bx2, by2) in
  rects_overlap a b t = rects_overlap b a t
  /\ (bx1 <= ax2 + t /\ ax1 <= bx2 + t /\ by1 <= ay2 + t /\ ay1 <= by2 + t
      -> rects_overlap a b t = true)
  /\ (rects_overlap a b t = false
      -> ax2 + t < bx1 \/ bx2 + t < ax1 \/ ay2 + t < by1 \/ by2 + t < ay1)
  /\ (0 <= t -> rects_overlap a b t = false
      -> ax2 < bx1 \/ bx2 < ax1 \/ ay2 < by1 \/ by2 < ay1)
  /\ (rects_overlap a b 0 = false
      <-> ax2 < bx1 \/ bx2 < ax1 \/ ay2 < by1 \/ by2 < ay1)
  /\ (rounded_up (ax2 + t) < bx1 \/ rounded_up (bx2 + t) < ax1
      \/ rounded_up (ay2 + t) < by1 \/ rounded_up (by2 + t) < ay1
      -> rects_overlap a b t = false).
Proof.
  intros a b. subst a b. split; [|split; [|split; [|split; [|split]]]].
  - apply rects_overlap_sym.
  - intros (H1 & H2 & H3 & H4).
    destruct (rects_overlap _ _ _) eqn:E; [reflexivity|].
    apply rects_overlap_false_iff in E. exfalso.
    destruct E as [E|[E|[E|E]]]; lra.
  - apply rects_overlap_false_iff.
  - intros Ht E. apply rects_overlap_false_iff in E.
    destruct E as [E|[E|[E|E]]];
      [left|right; left|right; right; left|right; right; right]; lra.
  - rewrite rects_overlap_false_iff.
    split; intros [E|[E|[E|E]]];
      [left|right; left|right; right; left|right; right; right
      |left|right; left|right; right; left|right; right; right]; lra.
  - intros H. apply rects_overlap_false_iff.
    destruct H as [E|[E|[E|E]]];
      [left|right; left|right; right; left|right; right; right];
      (eapply Qle_lt_trans; [apply rounded_up_above|exact E]).
Qed.

(** The predicate at work on two unit squares half a unit apart: at the
    tolerance [0.5], the gap itself, it answers true, at [0.25] it answers
    false, and the squares are strictly apart. *)
Lemma rects_overlap_strict_separation_witness :
  (1.5 <= 1 + 0.5 /\ 0 <= 2.5 + 0.5 /\ 0 <= 1 + 0.5 /\ 0 <= 1 + 0.5)
  /\ rects_overlap (0, 0, 1, 1) (1.5, 0, 2.5, 1) 0.5 = true
  /\ rounded_up (1 + 0.25) < 1.5
  /\ rects_overlap (0, 0, 1, 1) (1.5, 0, 2.5, 1) 0.25 = false
  /\ (1 + 0.25 < 1.5 \/ 2.5 + 0.25 < 0 \/ 1 + 0.25 < 0 \/ 1 + 0.25 < 0)
  /\ (1 < 1.5 \/ 2.5 < 0 \/ 1 < 0 \/ 1 < 0).
Proof.
  assert (Hle : 1.5 <= 1 + 0.5 /\ 0 <= 2.5 + 0.5 /\ 0 <= 1 + 0.5 /\ 0 <= 1 + 0.5)
    by (repeat split; discriminate).
  assert (Hup : rounded_up (1 + 0.25) < 1.5) by reflexivity.
  assert (Hfalse : rects_overlap (0, 0, 1, 1) (1.5, 0, 2.5, 1) 0.25 = false).
  { refine (proj2 (proj2 (proj2 (proj2 (proj2
      (rects_overlap_strict_separation 0 0 1 1 1.5 0 2.5 1 0.25))))) _).
    left. exact Hup. }
  split; [exact Hle|]. split; [|split; [exact Hup|split; [exact Hfalse|split]]].
  - exact (proj1 (proj2
      (rects_overlap_strict_separation 0 0 1 1 1.5 0 2.5 1 0.5)) Hle).
  - exact (proj1 (proj2 (proj2
      (rects_overlap_strict_separation 0 0 1 1 1.5 0 2.5 1 0.25))) Hfalse).
  - refine (proj1 (proj2 (proj2 (proj2
      (rects_overlap_strict_separation 0 0 1 1 1.5 0 2.5 1 0.25)))) _ Hfalse).
    discriminate.
Defined.

(** ** Reading the generator *)

Lemma unit_of_bounds (k : N) : 0 <= unit_of k /\ unit_of k < 1.
Proof.
  unfold unit_of, Qle, Qlt. cbn [Qnum Qden].
  pose proof (N.mod_upper_bound k (2 ^ 53)%N ltac:(discriminate)) as Hlt.
  apply N2Z.inj_lt in Hlt.
  change (Z.of_N (2 ^ 53)) with (Z.pos (2 ^ 53)) in Hlt.
  pose proof (N2Z.is_nonneg (k mod 2 ^ 53)) as Hge.
  split; lia.
Qed.

Lemma uniform_bounds (a b u : Q) :
  a <= b -> 0 <= u -> u < 1 -> a <= a + (b - a) * u /\ a + (b - a) * u <= b.
Proof.
  intros Hab Hu0 Hu1.
  assert (0 <= (b - a) * u) by (apply Qmult_le_0_compat; lra).
  assert (0 <= (b - a) * (1 - u)) by (apply Qmult_le_0_compat; lra).
  split; lra.
Qed.

Lemma pick_in {A : Type} (k : N) (x : A) (xs : list A) : In (pick k x xs) (x :: xs).
Proof.
  unfold pick. apply nth_In.
  pose proof (N.mod_upper_bound k (N.of_nat (S (List.length xs))) ltac:(lia)).
  cbn [List.length]. lia.
Qed.

(** ** One attempt, and the two search loops *)

Section Attempts.

Variable tape : nat -> N.

Lemma set_cursor_same (s : SceneState) : set_cursor (cursor s) s = s.
Proof. destruct s; reflexivity. Qed.

Lemma set_cursor_twice (c d : nat) (s : SceneState) :
  set_cursor c (set_cursor d s) = set_cursor c s.
Proof. reflexivity. Qed.

Lemma two_pin_candidate_run (s : SceneState) :
  two_pin_candidate tape s
  = Ok (two_pin_at tape (cursor s)) (set_cursor (5 + cursor s) s).
Proof.
  unfold two_pin_candidate, two_pin_at, two_pin_geom, random_choice,
    random_uniform, random_random, next_draw.
  cbv beta iota zeta delta [bind ret].
  cbn [cursor set_cursor fst snd comp_len_choices lead_len_choices].
  destruct (String.eqb (pick (tape (cursor s)) "h"%string ["v"%string]) "h");
    reflexivity.
Qed.

Lemma transformer_candidate_run (s : SceneState) :
  transformer_candidate tape s
  = Ok (transformer_at tape (cursor s)) (set_cursor (2 + cursor s) s).
Proof. reflexivity. Qed.

Lemma place_two_pin_loop_S (n : nat) (cid0 ctype0 element label : string)
    (s : SceneState) :
  place_two_pin_loop tape (S n) cid0 ctype0 element label s
  = if hits_occupied (snd (two_pin_at tape (cursor s))) (occupied s)
    then place_two_pin_loop tape n cid0 ctype0 element label
           (set_cursor (5 + cursor s) s)
    else two_pin_commit cid0 ctype0 element label (two_pin_at tape (cursor s))
           (set_cursor (5 + cursor s) s).
Proof.
  cbn [place_two_pin_loop]. unfold bind at 1.
  rewrite two_pin_candidate_run. unfold bind, gets. cbn [occupied set_cursor].
  destruct (hits_occupied _ _); reflexivity.
Qed.

Lemma place_transformer_loop_S (n : nat) (s : SceneState) :
  place_transformer_loop tape (S n) s
  = if hits_occupied (snd (transformer_at tape (cursor s))) (occupied s)
    then place_transformer_loop tape n (set_cursor (2 + cursor s) s)
    else transformer_commit tape (transformer_at tape (cursor s))
           (set_cursor (2 + cursor s) s).
Proof.
  cbn [place_transformer_loop]. unfold bind at 1.
  rewrite transformer_candidate_run. unfold bind, gets. cbn [occupied set_cursor].
  destruct (hits_occupied _ _); reflexivity.
Qed.

(** The search either commits the first candidate that passes the overlap
    test, all earlier ones having failed it, or, every candidate of the
    budget having failed it, raises with nothing changed but the cursor. *)
Lemma place_two_pin_loop_spec (cid0 ctype0 element label : string) (n : nat) :
  forall s : SceneState,
    (exists k, (k < n)%nat
       /\ (forall j, (j < k)%nat -> two_pin_rejected tape s j)
       /\ hits_occupied (snd (two_pin_at tape (5 * k + cursor s))) (occupied s) = false
       /\ place_two_pin_loop tape n cid0 ctype0 element label s
          = two_pin_commit cid0 ctype0 element label
              (two_pin_at tape (5 * k + cursor s))
              (set_cursor (5 * S k + cursor s) s))
    \/ ((forall j, (j < n)%nat -> two_pin_rejected tape s j)
        /\ place_two_pin_loop tape n cid0 ctype0 element label s
           = Raise (two_pin_error cid0) (set_cursor (5 * n + cursor s) s)).
Proof.
  induction n as [|n IH]; intros s.
  - right. split; [intros j Hj; lia|].
    cbn. unfold raise. now rewrite set_cursor_same.
  - rewrite place_two_pin_loop_S.
    destruct (hits_occupied (snd (two_pin_at tape (cursor s))) (occupied s)) eqn:Hhit.
    + assert (Hshift : forall j,
                (5 * j + cursor (set_cursor (5 + cursor s) s) = 5 * S j + cursor s)%nat)
        by (intros j; cbn [cursor set_cursor]; lia).
      destruct (IH (set_cursor (5 + cursor s) s)) as [(k & Hk & Hrej & Hok & Heq)|[Hrej Heq]].
      * left. exists (S k). split; [lia|]. split; [|split].
        -- intros [|j] Hj.
           ++ unfold two_pin_rejected. exact Hhit.
           ++ specialize (Hrej j ltac:(lia)). unfold two_pin_rejected in *.
              rewrite Hshift in Hrej. exact Hrej.
        -- rewrite Hshift in Hok. exact Hok.
        -- rewrite Heq, !Hshift, set_cursor_twice. reflexivity.
      * right. split.
        -- intros [|j] Hj.
           ++ unfold two_pin_rejected. exact Hhit.
           ++ specialize (Hrej j ltac:(lia)). unfold two_pin_rejected in *.
              rewrite Hshift in Hrej. exact Hrej.
        -- rewrite Heq, set_cursor_twice. do 2 f_equal.
           cbn [cursor set_cursor]. lia.
    + left. exists 0%nat. split; [lia|]. split; [intros j Hj; lia|].
      split; [exact Hhit|]. reflexivity.
Qed.

Lemma place_transformer_loop_spec (n : nat) :
  forall s : SceneState,
    (exists k, (k < n)%nat
       /\ (forall j, (j < k)%nat -> transformer_rejected tape s j)
       /\ hits_occupied (snd (transformer_at tape (2 * k + cursor s))) (occupied s) = false
       /\ place_transformer_loop tape n s
          = transformer_commit tape (transformer_at tape (2 * k + cursor s))
              (set_cursor (2 * S k + cursor s) s))
    \/ ((forall j, (j < n)%nat -> transformer_rejected tape s j)
        /\ place_transformer_loop tape n s
           = Raise transformer_error (set_cursor (2 * n + cursor s) s)).
Proof.
  induction n as [|n IH]; intros s.
  - right. split; [intros j Hj; lia|].
    cbn. unfold raise. now rewrite set_cursor_same.
  - rewrite place_transformer_loop_S.
    destruct (hits_occupied (snd (transformer_at tape (cursor s))) (occupied s)) eqn:Hhit.
    + assert (Hshift : forall j,
                (2 * j + cursor (set_cursor (2 + cursor s) s) = 2 * S j + cursor s)%nat)
        by (intros j; cbn [cursor set_cursor]; lia).
      destruct (IH (set_cursor (2 + cursor s) s)) as [(k & Hk & Hrej & Hok & Heq)|[Hrej Heq]].
      * left. exists (S k). split; [lia|]. split; [|split].
        -- intros [|j] Hj.
           ++ unfold transformer_rejected. exact Hhit.
           ++ specialize (Hrej j ltac:(lia)). unfold transformer_rejected in *.
              rewrite Hshift in Hrej. exact Hrej.
        -- rewrite Hshift in Hok. exact Hok.
        -- rewrite Heq, !Hshift, set_cursor_twice. reflexivity.
      * right. split.
        -- intros [|j] Hj.
           ++ unfold transformer_rejected. exact Hhit.
           ++ specialize (Hrej j ltac:(lia)). unfold transformer_rejected in *.
              rewrite Hshift in Hrej. exact Hrej.
        -- rewrite Heq, set_cursor_twice. do 2 f_equal.
           cbn [cursor set_cursor]. lia.
    + left. exists 0%nat. split; [lia|]. split; [intros j Hj; lia|].
      split; [exact Hhit|]. reflexivity.
Qed.

End Attempts.

(** ** Geometry of the candidates *)

Ltac canvas_arith :=
  unfold in_canvas, view_bbox, vx1, vy1, vx2, vy2, margin, Qdiv in *;
  change (/ 2) with (1 # 2) in *;
  cbn [fst snd] in *.

Lemma two_pin_geom_in_canvas (ori : string) (L lead u1 u2 : Q) :
  1.6 <= L -> L <= 2.2 -> 0.8 <= lead -> lead <= 1.2 ->
  0 <= u1 -> u1 < 1 -> 0 <= u2 -> u2 < 1 ->
  let '(a, b, w1, w2) := two_pin_geom ori L lead u1 u2 in
  in_canvas a /\ in_canvas b /\ in_canvas w1 /\ in_canvas w2.
Proof.
  intros HL1 HL2 Hl1 Hl2 Hu1 Hu1' Hu2 Hu2'.
  unfold two_pin_geom. destruct (String.eqb ori "h"); cbv zeta.
  - pose proof (uniform_bounds (vx1 + margin + (L / 2 + lead))
                  (vx2 - margin - (L / 2 + lead)) u1) as Hx.
    pose proof (uniform_bounds (vy1 + margin) (vy2 - margin) u2) as Hy.
    set (cx := vx1 + margin + (L / 2 + lead) + _ * u1) in *.
    set (cy := vy1 + margin + _ * u2) in *.
    clearbody cx cy. canvas_arith.
    destruct Hx as [Hx1 Hx2]; [lra|lra|lra|].
    destruct Hy as [Hy1 Hy2]; [lra|lra|lra|].
    repeat split; lra.
  - pose proof (uniform_bounds (vx1 + margin) (vx2 - margin) u1) as Hx.
    pose proof (uniform_bounds (vy1 + margin + (L / 2 + lead))
                  (vy2 - margin - (L / 2 + lead)) u2) as Hy.
    set (cx := vx1 + margin + _ * u1) in *.
    set (cy := vy1 + margin + (L / 2 + lead) + _ * u2) in *.
    clearbody cx cy. canvas_arith.
    destruct Hx as [Hx1 Hx2]; [lra|lra|lra|].
    destruct Hy as [Hy1 Hy2]; [lra|lra|lra|].
    repeat split; lra.
Qed.

Lemma pick_len_bounds (k : N) :
  1.6 <= pick k 1.6 [1.8; 2.0; 2.2] /\ pick k 1.6 [1.8; 2.0; 2.2] <= 2.2.
Proof.
  destruct (pick_in k 1.6 [1.8; 2.0; 2.2]) as [<-|[<-|[<-|[<-|[]]]]];
    split; discriminate.
Qed.

Lemma pick_lead_bounds (k : N) :
  0.8 <= pick k 0.8 [1.0; 1.2] /\ pick k 0.8 [1.0; 1.2] <= 1.2.
Proof.
  destruct (pick_in k 0.8 [1.0; 1.2]) as [<-|[<-|[<-|[]]]];
    split; discriminate.
Qed.

Lemma box4_eq (a b w1 w2 : Pt) :
  rect_from_points [a; b; w1; w2] pad = inr (box4 (a, b, w1, w2)).
Proof. reflexivity. Qed.

(** What every candidate of [place_two_pin] satisfies, wherever on the
    tape it is read. *)
Lemma two_pin_at_facts (tape : nat -> N) (c : nat) :
  let '(ori, lead, a, b, w1, w2, bb) := two_pin_at tape c in
  (ori = "h"%string \/ ori = "v"%string)
  /\ rect_from_points [a; b; w1; w2] pad = inr bb
  /\ in_canvas a /\ in_canvas b /\ in_canvas w1 /\ in_canvas w2.
Proof.
  unfold two_pin_at.
  pose proof (pick_len_bounds (tape (1 + c)%nat)) as [HL1 HL2].
  pose proof (pick_lead_bounds (tape (2 + c)%nat)) as [Hl1 Hl2].
  pose proof (unit_of_bounds (tape (3 + c)%nat)) as [Hu1 Hu1'].
  pose proof (unit_of_bounds (tape (4 + c)%nat)) as [Hu2 Hu2'].
  pose proof (two_pin_geom_in_canvas (pick (tape c) "h"%string ["v"%string])
                _ _ _ _ HL1 HL2 Hl1 Hl2 Hu1 Hu1' Hu2 Hu2') as Hg.
  cbv zeta.
  destruct (two_pin_geom _ _ _ _ _) as [[[a b] w1] w2].
  split; [|split; [apply box4_eq|exact Hg]].
  destruct (pick_in (tape c) "h"%string ["v"%string]) as [<-|[<-|[]]]; auto.
Qed.

Lemma transformer_at_facts (tape : nat -> N) (c : nat) :
  let '(x, y, bb) := transformer_at tape c in
  bb = (x - 2.2, y - 2.2, x + 2.2, y + 2.2)
  /\ in_canvas (x - 1.6, y + 1.9) /\ in_canvas (x + 1.6, y - 1.9).
Proof.
  unfold transformer_at. cbv zeta.
  pose proof (unit_of_bounds (tape c)) as [Hu1 Hu1'].
  pose proof (unit_of_bounds (tape (1 + c)%nat)) as [Hu2 Hu2'].
  pose proof (uniform_bounds (vx1 + margin + 2.0) (vx2 - margin - 2.0)
                (unit_of (tape c))) as Hx.
  pose proof (uniform_bounds (vy1 + margin + 2.0) (vy2 - margin - 2.0)
                (unit_of (tape (1 + c)%nat))) as Hy.
  set (x := vx1 + margin + 2.0 + _ * unit_of (tape c)) in *.
  set (y := vy1 + margin + 2.0 + _ * unit_of (tape (1 + c)%nat)) in *.
  clearbody x y. split; [reflexivity|]. canvas_arith.
  destruct Hx as [Hx1 Hx2]; [lra|lra|lra|].
  destruct Hy as [Hy1 Hy2]; [lra|lra|lra|].
  repeat split; lra.
Qed.

(** ** From outcomes to steps *)

Section Steps.

Variable tape : nat -> N.

Lemma two_pin_commit_run (cid0 ctype0 element label : string)
    (cand : string * Q * Pt * Pt * Pt * Pt * Rect) (s : SceneState) :
  two_pin_commit cid0 ctype0 element label cand s
  = Ok tt (mkScene (cursor s)
             (comps s ++ [two_pin_record cid0 ctype0 element label cand])
             (markers s)
             (cmds s ++ two_pin_cmds element label cand)
             (occupied s ++ [snd cand])).
Proof.
  destruct cand as [[[[[[ori lead] a] b] w1] w2] bb]. reflexivity.
Qed.

Lemma transformer_commit_run (x y : Q) (bb : Rect) (s : SceneState) :
  transformer_commit tape (x, y, bb) s
  = Ok tt (mkScene (S (cursor s))
             (comps s ++ [transformer_record x y (pick (tape (cursor s)) 0.9 [1.1; 1.3])])
             (markers s)
             (cmds s ++ transformer_cmds x y (pick (tape (cursor s)) 0.9 [1.1; 1.3]))
             (occupied s ++ [bb])).
Proof.
  unfold transformer_commit, random_choice, next_draw, modify.
  cbv beta iota zeta delta [bind ret].
  cbn [cursor comps markers cmds occupied set_cursor].
  unfold transformer_cmds. rewrite <- app_assoc. reflexivity.
Qed.

(** A placement call either commits or raises its own error. *)
Lemma place_two_pin_outcome (cid0 ctype0 element label : string) (s : SceneState) :
  (exists s', place_two_pin tape cid0 ctype0 element label s = Ok tt s'
              /\ two_pin_placed tape cid0 ctype0 element label s s')
  \/ ((forall j, (j < attempt_budget)%nat -> two_pin_rejected tape s j)
      /\ place_two_pin tape cid0 ctype0 element label s
         = Raise (two_pin_error cid0) (set_cursor (5 * attempt_budget + cursor s) s)).
Proof.
  unfold place_two_pin.
  destruct (place_two_pin_loop_spec tape cid0 ctype0 element label attempt_budget s)
    as [(k & Hk & Hrej & Hok & Heq)|[Hrej Heq]].
  - left. rewrite Heq, two_pin_commit_run. eexists. split; [reflexivity|].
    exists k. repeat split; assumption.
  - right. split; assumption.
Qed.

Lemma place_transformer_outcome (s : SceneState) :
  (exists s', place_transformer_node tape s = Ok tt s'
              /\ transformer_placed tape s s')
  \/ ((forall j, (j < attempt_budget)%nat -> transformer_rejected tape s j)
      /\ place_transformer_node tape s
         = Raise transformer_error (set_cursor (2 * attempt_budget + cursor s) s)).
Proof.
  unfold place_transformer_node.
  destruct (place_transformer_loop_spec tape attempt_budget s)
    as [(k & Hk & Hrej & Hok & Heq)|[Hrej Heq]].
  - left. rewrite Heq.
    destruct (transformer_at tape (2 * k + cursor s)) as [[x y] bb] eqn:Hat.
    rewrite transformer_commit_run. eexists. split; [reflexivity|].
    exists k, x, y, (pick (tape (2 * S k + cursor s)%nat) 0.9 [1.1; 1.3]).
    rewrite Hat in *. cbn [fst snd cursor set_cursor] in *.
    repeat split; assumption.
  - right. split; assumption.
Qed.

Lemma place_two_pin_ok (cid0 ctype0 element label : string) (s s' : SceneState) :
  place_two_pin tape cid0 ctype0 element label s = Ok tt s' ->
  two_pin_placed tape cid0 ctype0 element label s s'.
Proof.
  intros H.
  destruct (place_two_pin_outcome cid0 ctype0 element label s)
    as [(s1 & Heq & Hp)|[_ Heq]]; rewrite Heq in H.
  - injection H as <-. exact Hp.
  - discriminate H.
Qed.

Lemma place_two_pin_raise (cid0 ctype0 element label : string) (s s' : SceneState)
    (e : Exn) :
  place_two_pin tape cid0 ctype0 element label s = Raise e s' ->
  e = two_pin_error cid0.
Proof.
  intros H.
  destruct (place_two_pin_outcome cid0 ctype0 element label s)
    as [(s1 & Heq & Hp)|[_ Heq]]; rewrite Heq in H.
  - discriminate H.
  - now injection H as <- _.
Qed.

Lemma place_transformer_ok (s s' : SceneState) :
  place_transformer_node tape s = Ok tt s' -> transformer_placed tape s s'.
Proof.
  intros H.
  destruct (place_transformer_outcome s) as [(s1 & Heq & Hp)|[_ Heq]];
    rewrite Heq in H.
  - injection H as <-. exact Hp.
  - discriminate H.
Qed.

Lemma place_bipoles_ok (specs : list (string * string * string * string)) :
  forall s s', place_bipoles tape specs s = Ok tt s' ->
               bipoles_placed tape specs s s'.
Proof.
  induction specs as [|[[[cid0 ctype0] element] label] rest IH]; intros s s' H.
  - cbn in H. injection H as <-. constructor.
  - cbn [place_bipoles] in H. unfold bind at 1 in H.
    destruct (String.eqb cid0 "T1") eqn:Ecid.
    + apply String.eqb_eq in Ecid. subst cid0.
      cbn in H. apply bipoles_skip, IH, H.
    + destruct (place_two_pin tape cid0 ctype0 element label s) as [[] s1|e s1] eqn:E1;
        [|discriminate H].
      eapply bipoles_step; [exact Ecid|apply place_two_pin_ok; exact E1|].
      apply IH, H.
Qed.

(** Every exception of the catalogue loop is the placement failure of one
    of its entries. *)
Lemma place_bipoles_raise (specs : list (string * string * string * string)) :
  forall s s' e, place_bipoles tape specs s = Raise e s' ->
    exists cid0, In cid0 (map (fun sp => fst (fst (fst sp))) specs)
                 /\ e = two_pin_error cid0.
Proof.
  induction specs as [|[[[cid0 ctype0] element] label] rest IH]; intros s s' e H.
  - discriminate H.
  - cbn [place_bipoles] in H. unfold bind at 1 in H.
    destruct (String.eqb cid0 "T1") eqn:Ecid.
    + cbn in H. destruct (IH _ _ _ H) as (c1 & Hin & He).
      exists c1. split; [right; exact Hin|exact He].
    + destruct (place_two_pin tape cid0 ctype0 element label s) as [[] s1|e1 s1] eqn:E1.
      * destruct (IH _ _ _ H) as (c1 & Hin & He).
        exists c1. split; [right; exact Hin|exact He].
      * injection H as <- _. exists cid0. split; [now left|].
        eapply place_two_pin_raise, E1.
Qed.

Lemma place_junction_run (s : SceneState) :
  place_junction tape s = Ok tt (junction_state tape s).
Proof. reflexivity. Qed.

Lemma place_wire_jump_run (s : SceneState) :
  place_wire_jump tape s = Ok tt (wire_jump_state tape s).
Proof. reflexivity. Qed.

(** The scene body, when it returns, went through its four steps. *)
Lemma scene_body_ok (c : nat) (line_w : Q) (s : SceneState) :
  scene_body tape (init_scene c) = Ok line_w s ->
  exists s1 s2,
    transformer_placed tape (init_scene (S c)) s1
    /\ bipoles_placed tape component_specs s1 s2
    /\ s = wire_jump_state tape (junction_state tape s2)
    /\ line_w = pick (tape c) 0.8 [1.0; 1.2].
Proof.
  unfold scene_body. unfold bind at 1.
  change (random_choice tape 0.8 [1.0; 1.2] (init_scene c))
    with (Ok (S:=SceneState) (pick (tape c) 0.8 [1.0; 1.2]) (init_scene (S c))).
  cbv beta iota. unfold bind at 1.
  destruct (place_transformer_node tape (init_scene (S c))) as [[] s1|e s1] eqn:E1;
    [|discriminate].
  unfold bind at 1.
  destruct (place_bipoles tape component_specs s1) as [[] s2|e s2] eqn:E2;
    [|discriminate].
  unfold bind at 1. rewrite place_junction_run.
  unfold bind at 1. rewrite place_wire_jump_run. unfold ret.
  intros H. injection H as <- <-.
  exists s1, s2. repeat split.
  - apply place_transformer_ok, E1.
  - apply place_bipoles_ok, E2.
Qed.

(** When it raises, a placement failed. *)
Lemma scene_body_raise (c : nat) (e : Exn) (s : SceneState) :
  scene_body tape (init_scene c) = Raise e s ->
  e = transformer_error
  \/ exists cid0, In cid0 (map (fun sp => fst (fst (fst sp))) component_specs)
                  /\ e = two_pin_error cid0.
Proof.
  unfold scene_body. unfold bind at 1.
  change (random_choice tape 0.8 [1.0; 1.2] (init_scene c))
    with (Ok (S:=SceneState) (pick (tape c) 0.8 [1.0; 1.2]) (init_scene (S c))).
  cbv beta iota. unfold bind at 1.
  destruct (place_transformer_outcome (init_scene (S c))) as [(s1 & E1 & _)|[_ E1]];
    rewrite E1.
  - unfold bind at 1.
    destruct (place_bipoles tape component_specs s1) as [[] s2|e2 s2] eqn:E2.
    + unfold bind at 1. rewrite place_junction_run.
      unfold bind at 1. rewrite place_wire_jump_run. discriminate.
    + intros H. injection H as <- _. right.
      eapply place_bipoles_raise, E2.
  - intros H. injection H as <- _. now left.
Qed.

End Steps.

(** ** The invariant of scene construction *)

Lemma hits_occupied_false (bb : Rect) (occ : list Rect) :
  hits_occupied bb occ = false ->
  forall old, In old occ -> rects_overlap bb old 0.15 = false.
Proof.
  unfold hits_occupied. intros H old Hin.
  destruct (rects_overlap bb old 0.15) eqn:E; [|reflexivity].
  assert (existsb (fun old0 => rects_overlap bb old0 0.15) occ = true)
    by (apply existsb_exists; exists old; split; assumption).
  congruence.
Qed.

Lemma pairwise_clear_nil : pairwise_clear [].
Proof. intros [|i] j a b _ H; discriminate H. Qed.

Lemma pairwise_clear_snoc (occ : list Rect) (bb : Rect) :
  pairwise_clear occ ->
  (forall old, In old occ -> rects_overlap bb old 0.15 = false) ->
  pairwise_clear (occ ++ [bb]).
Proof.
  intros Hocc Hbb i j a b Hij Hi Hj.
  destruct (Nat.lt_ge_cases i (List.length occ)) as [Li|Li];
    destruct (Nat.lt_ge_cases j (List.length occ)) as [Lj|Lj].
  - rewrite nth_error_app1 in Hi, Hj by assumption.
    eapply Hocc; eassumption.
  - rewrite nth_error_app1 in Hi by assumption.
    rewrite nth_error_app2 in Hj by assumption.
    destruct (j - List.length occ)%nat as [|[|m]]; try discriminate Hj.
    injection Hj as <-. rewrite rects_overlap_sym.
    apply Hbb. eapply nth_error_In, Hi.
  - rewrite nth_error_app2 in Hi by assumption.
    rewrite nth_error_app1 in Hj by assumption.
    destruct (i - List.length occ)%nat as [|[|m]]; try discriminate Hi.
    injection Hi as <-. apply Hbb. eapply nth_error_In, Hj.
  - rewrite nth_error_app2 in Hi, Hj by assumption.
    destruct (i - List.length occ)%nat as [|[|m]] eqn:Ei; try discriminate Hi.
    destruct (j - List.length occ)%nat as [|[|m]] eqn:Ej; try discriminate Hj.
    lia.
Qed.

Lemma scene_inv_init (c : nat) : scene_inv (init_scene c).
Proof.
  repeat split; cbn; [constructor|apply pairwise_clear_nil|constructor].
Qed.

Lemma scene_inv_snoc (s s' : SceneState) (c : ComponentGT) (bb : Rect) :
  comps s' = comps s ++ [c] ->
  occupied s' = occupied s ++ [bb] ->
  region_of c bb ->
  hits_occupied bb (occupied s) = false ->
  Forall in_canvas (recorded_points c) ->
  scene_inv s -> scene_inv s'.
Proof.
  intros Hc Ho Hreg Hhit Hcan (I1 & I2 & I3).
  unfold scene_inv. rewrite Hc, Ho. repeat split.
  - apply Forall2_app; [exact I1|]. constructor; [exact Hreg|constructor].
  - apply pairwise_clear_snoc; [exact I2|].
    apply hits_occupied_false, Hhit.
  - apply Forall_app. split; [exact I3|]. constructor; [exact Hcan|constructor].
Qed.

Section Invariant.

Variable tape : nat -> N.

Lemma transformer_placed_inv (s s' : SceneState) :
  transformer_placed tape s s' -> scene_inv s -> scene_inv s'.
Proof.
  intros (k & x & y & lead & Hk & Hrej & Hxy & Hlead & Hhit & ->) Hinv.
  pose proof (transformer_at_facts tape (2 * k + cursor s)) as Hf.
  destruct (transformer_at tape (2 * k + cursor s)) as [[x0 y0] bb].
  cbn [fst snd] in *. injection Hxy as -> ->.
  destruct Hf as (Hbb & Hp1 & Hp2).
  eapply scene_inv_snoc; [reflexivity|reflexivity| |exact Hhit| |exact Hinv].
  - unfold region_of. cbn. exists x, y. repeat split. exact Hbb.
  - cbv [recorded_points transformer_record p1 p2 attrs flat_map points_of_value snd app].
    repeat (apply Forall_cons; [assumption|]). apply Forall_nil.
Qed.

Lemma two_pin_placed_inv (cid0 ctype0 element label : string) (s s' : SceneState) :
  String.eqb cid0 "T1" = false ->
  two_pin_placed tape cid0 ctype0 element label s s' ->
  scene_inv s -> scene_inv s'.
Proof.
  intros Hcid (k & Hk & Hrej & Hhit & ->) Hinv.
  pose proof (two_pin_at_facts tape (5 * k + cursor s)) as Hf.
  destruct (two_pin_at tape (5 * k + cursor s)) as [[[[[[ori lead] a] b] w1] w2] bb].
  cbn [fst snd] in *.
  destruct Hf as (Hori & Hbb & Ha & Hb & Hw1 & Hw2).
  eapply scene_inv_snoc; [reflexivity|reflexivity| |exact Hhit| |exact Hinv].
  - unfold region_of. cbn [cid two_pin_record]. rewrite Hcid. exact Hbb.
  - cbv [recorded_points two_pin_record p1 p2 attrs flat_map points_of_value snd app].
    repeat (apply Forall_cons; [assumption|]). apply Forall_nil.
Qed.

Lemma bipoles_placed_inv (specs : list (string * string * string * string))
    (s s' : SceneState) :
  bipoles_placed tape specs s s' -> scene_inv s -> scene_inv s'.
Proof.
  induction 1 as [s|ct el lab rest s s' _ IH|c0 ct el lab rest s s1 s' Hc Hp _ IH];
    intros Hinv.
  - exact Hinv.
  - apply IH, Hinv.
  - apply IH. eapply two_pin_placed_inv; eassumption.
Qed.

(** What the catalogue loop appends, and what it leaves alone. *)
Lemma bipoles_placed_trace (specs : list (string * string * string * string))
    (s s' : SceneState) :
  bipoles_placed tape specs s s' ->
  exists cs ds,
    comps s' = comps s ++ cs
    /\ cmds s' = cmds s ++ ds
    /\ markers s' = markers s
    /\ map cid cs
       = filter (fun c => negb (String.eqb c "T1")) (map spec_cid specs)
    /\ Forall two_terminal cs
    /\ existsb is_hump ds = false.
Proof.
  induction 1 as [s|ct el lab rest s s' _ IH|c0 ct el lab rest s s1 s' Hc Hp _ IH].
  - exists [], []. rewrite !app_nil_r. repeat split; constructor.
  - destruct IH as (cs & ds & H1 & H2 & H3 & H4 & H5 & H6).
    exists cs, ds. repeat split; assumption.
  - destruct IH as (cs & ds & H1 & H2 & H3 & H4 & H5 & H6).
    destruct Hp as (k & Hk & Hrej & Hhit & ->).
    pose proof (two_pin_at_facts tape (5 * k + cursor s)) as Hf.
    set (cand := two_pin_at tape (5 * k + cursor s)) in *.
    exists (two_pin_record c0 ct el lab cand :: cs),
           (two_pin_cmds el lab cand ++ ds).
    cbn [comps cmds markers] in H1, H2, H3 |- *.
    rewrite H1, H2, H3, <- !app_assoc.
    destruct cand as [[[[[[ori lead] a] b] w1] w2] bb].
    destruct Hf as (Hori & _).
    split; [reflexivity|]. split; [reflexivity|]. split; [reflexivity|].
    split; [|split].
    + cbn [map filter spec_cid fst cid two_pin_record]. rewrite Hc.
      cbn [negb]. now rewrite H4.
    + constructor; [|exact H5]. split; [|exact Hori].
      cbn [cid two_pin_record]. intros ->. discriminate Hc.
    + rewrite existsb_app, H6. reflexivity.
Qed.

End Invariant.

(** ** Anatomy of a returned scene *)

Lemma uniform_at_bounds (tape : nat -> N) (a b : Q) (c : nat) :
  a <= b -> a <= uniform_at tape a b c /\ uniform_at tape a b c <= b.
Proof.
  intros Hab. destruct (unit_of_bounds (tape c)) as [H0 H1].
  apply uniform_bounds; assumption.
Qed.

Lemma generate_scene_ok (tape : nat -> N) (c c' : nat) (sc : Scene) :
  generate_scene_with_leads tape c = Ok sc c' ->
  exists line_w s,
    scene_body tape (init_scene c) = Ok line_w s
    /\ sc = (line_w, BoundingBox (vx1, vy1) (vx2, vy2) :: cmds s, comps s, markers s)
    /\ c' = cursor s.
Proof.
  unfold generate_scene_with_leads.
  destruct (scene_body tape (init_scene c)) as [lw s|e s]; [|discriminate].
  intros H. injection H as <- <-. exists lw, s. repeat split.
Qed.

Lemma scene_anatomy (tape : nat -> N) (c : nat) (line_w : Q) (s : SceneState) :
  scene_body tape (init_scene c) = Ok line_w s ->
  exists x y lead cs pre jx jy cx cy,
    scene_inv s
    /\ comps s = transformer_record x y lead :: cs
    /\ map cid cs
       = filter (fun c => negb (String.eqb c "T1")) (map spec_cid component_specs)
    /\ Forall two_terminal cs
    /\ markers s = [junction_marker jx jy; wire_jump_marker cx cy]
    /\ in_canvas (jx, jy) /\ in_canvas (cx, cy)
    /\ cmds s = pre ++ wire_jump_cmds cx cy
    /\ existsb is_hump pre = false.
Proof.
  intros H. apply scene_body_ok in H as (s1 & s2 & Ht & Hb & -> & _).
  pose proof (bipoles_placed_inv tape _ _ _ Hb
                (transformer_placed_inv tape _ _ Ht (scene_inv_init (S c)))) as Hinv.
  destruct (bipoles_placed_trace tape _ _ _ Hb) as (cs & ds & H1 & H2 & H3 & H4 & H5 & H6).
  destruct Ht as (k & x & y & lead & _ & _ & _ & _ & _ & ->).
  cbn [comps cmds markers init_scene app] in H1, H2, H3.
  set (jx := uniform_at tape (vx1 + margin + 2.5) (vx2 - margin - 2.5) (cursor s2)).
  set (jy := uniform_at tape (vy1 + margin + 2.5) (vy2 - margin - 2.5) (1 + cursor s2)).
  set (cx := uniform_at tape (vx1 + margin + 3.0) (vx2 - margin - 3.0) (2 + cursor s2)).
  set (cy := uniform_at tape (vy1 + margin + 3.0) (vy2 - margin - 3.0) (1 + (2 + cursor s2))).
  exists x, y, lead, cs,
    ((transformer_cmds x y lead ++ ds)
       ++ [DrawLine (jx - 2.0, jy) (jx, jy); DrawLine (jx, jy) (jx + 2.0, jy);
           DrawLine (jx, jy) (jx, jy + 2.0); FillCircle (jx, jy) 1.7]),
    jx, jy, cx, cy.
  split; [exact Hinv|]. split; [exact H1|]. split; [exact H4|].
  split; [exact H5|]. split.
  { cbn [wire_jump_state junction_state markers]. rewrite H3. reflexivity. }
  split.
  { pose proof (uniform_at_bounds tape (vx1 + margin + 2.5) (vx2 - margin - 2.5)
                  (cursor s2)) as Hx.
    pose proof (uniform_at_bounds tape (vy1 + margin + 2.5) (vy2 - margin - 2.5)
                  (1 + cursor s2)) as Hy.
    fold jx in Hx. fold jy in Hy. clearbody jx jy. canvas_arith.
    destruct Hx as [Hx1 Hx2]; [lra|]. destruct Hy as [Hy1 Hy2]; [lra|].
    repeat split; lra. }
  split.
  { pose proof (uniform_at_bounds tape (vx1 + margin + 3.0) (vx2 - margin - 3.0)
                  (2 + cursor s2)) as Hx.
    pose proof (uniform_at_bounds tape (vy1 + margin + 3.0) (vy2 - margin - 3.0)
                  (1 + (2 + cursor s2))) as Hy.
    fold cx in Hx. fold cy in Hy. clearbody cx cy. canvas_arith.
    destruct Hx as [Hx1 Hx2]; [lra|]. destruct Hy as [Hy1 Hy2]; [lra|].
    repeat split; lra. }
  split.
  { cbn [wire_jump_state junction_state cmds cursor]. rewrite H2.
    unfold wire_jump_cmds. reflexivity. }
  rewrite !existsb_app, H6. reflexivity.
Qed.

(** ** Properties of every returned scene *)

(** C1, counterexample: on [layout_tape] the first call returns a scene in
    which the transformer's two anchors, padded by 0.85, give a box that
    reaches into the padded box of the first bipole, placed just below the
    transformer's occupied square. *)
Lemma recorded_boxes_overlap :
  generate_scene_with_leads layout_tape 0%nat = Ok layout_scene 58%nat
  /\ ~ recorded_boxes_clear (scene_comps layout_scene).
Proof.
  split; [vm_compute; reflexivity|].
  intros H.
  destruct (nth_error (scene_comps layout_scene) 0) as [t|] eqn:Et;
    [|discriminate Et].
  destruct (nth_error (scene_comps layout_scene) 1) as [a|] eqn:Ea;
    [|discriminate Ea].
  destruct (recorded_box t) as [e|bt] eqn:Ebt;
    [injection Et as <-; discriminate Ebt|].
  destruct (recorded_box a) as [e|ba] eqn:Eba;
    [injection Ea as <-; discriminate Eba|].
  specialize (H 0%nat 1%nat t a bt ba ltac:(discriminate) Et Ea Ebt Eba).
  injection Et as <-. injection Ea as <-.
  vm_compute in Ebt. vm_compute in Eba.
  injection Ebt as <-. injection Eba as <-.
  vm_compute in H. discriminate H.
Qed.

(** C1, amended: in every scene returned by [generate_scene_with_leads]
    the regions entered in [occupied], one per record and in the same
    order, are pairwise clear of each other under the tolerance 0.15, each
    having passed the overlap test against all earlier ones when it was
    committed; the region of a two-terminal record is the box of its four
    recorded points padded by 0.85, the region of the transformer is the
    square of half-extent 2.2 around its centre. *)
Theorem occupied_regions_pairwise_clear (tape : nat -> N) (c c' : nat) (sc : Scene) :
  generate_scene_with_leads tape c = Ok sc c' ->
  exists (line_w : Q) (s : SceneState),
    scene_body tape (init_scene c) = Ok line_w s
    /\ scene_comps sc = comps s
    /\ Forall2 region_of (comps s) (occupied s)
    /\ pairwise_clear (occupied s).
Proof.
  intros H. apply generate_scene_ok in H as (lw & s & Hb & -> & _).
  exists lw, s. split; [exact Hb|]. split; [reflexivity|].
  apply scene_anatomy in Hb as (x & y & lead & cs & pre & jx & jy & cx & cy & Hinv & _).
  destruct Hinv as (I1 & I2 & _). split; [exact I1|exact I2].
Qed.

Lemma occupied_regions_pairwise_clear_witness :
  generate_scene_with_leads layout_tape 0%nat = Ok layout_scene 58%nat
  /\ exists (line_w : Q) (s : SceneState),
       scene_body layout_tape (init_scene 0) = Ok line_w s
       /\ scene_comps layout_scene = comps s
       /\ Forall2 region_of (comps s) (occupied s)
       /\ pairwise_clear (occupied s).
Proof.
  split; [vm_compute; reflexivity|].
  apply (occupied_regions_pairwise_clear layout_tape 0%nat 58%nat layout_scene).
  vm_compute. reflexivity.
Defined.

(** C2: in every returned scene all coordinates recorded in a component
    record (its two anchors and the lead endpoints kept in its attributes)
    and the centre of every marker lie within the canvas. *)
Theorem recorded_coordinates_in_canvas (tape : nat -> N) (c c' : nat) (sc : Scene) :
  generate_scene_with_leads tape c = Ok sc c' ->
  Forall (fun r => Forall in_canvas (recorded_points r)) (scene_comps sc)
  /\ Forall (fun m => in_canvas (center m)) (scene_markers sc).
Proof.
  intros H. apply generate_scene_ok in H as (lw & s & Hb & -> & _).
  apply scene_anatomy in Hb
    as (x & y & lead & cs & pre & jx & jy & cx & cy & Hinv & _ & _ & _ & Hm & Hj & Hw & _).
  destruct Hinv as (_ & _ & I3).
  split; [exact I3|].
  unfold scene_markers. cbn [snd]. rewrite Hm.
  repeat (apply Forall_cons; [assumption|]). apply Forall_nil.
Qed.

Lemma recorded_coordinates_in_canvas_witness :
  generate_scene_with_leads layout_tape 0%nat = Ok layout_scene 58%nat
  /\ Forall (fun r => Forall in_canvas (recorded_points r)) (scene_comps layout_scene)
  /\ Forall (fun m => in_canvas (center m)) (scene_markers layout_scene).
Proof.
  split; [vm_compute; reflexivity|].
  apply (recorded_coordinates_in_canvas layout_tape 0%nat 58%nat layout_scene).
  vm_compute. reflexivity.
Defined.

(** C3: every returned scene has exactly 11 component records, as many as
    the catalogue has entries, and exactly two markers, one of kind
    [junction] and one of kind [wire_jump]. *)
Theorem scene_is_complete (tape : nat -> N) (c c' : nat) (sc : Scene) :
  generate_scene_with_leads tape c = Ok sc c' ->
  List.length (scene_comps sc) = 11%nat
  /\ List.length (scene_comps sc) = List.length component_specs
  /\ List.length (scene_markers sc) = 2%nat
  /\ List.length (filter (has_mtype "junction") (scene_markers sc)) = 1%nat
  /\ List.length (filter (has_mtype "wire_jump") (scene_markers sc)) = 1%nat.
Proof.
  intros H. apply generate_scene_ok in H as (lw & s & Hb & -> & _).
  apply scene_anatomy in Hb
    as (x & y & lead & cs & pre & jx & jy & cx & cy & _ & Hc & Hcid & _ & Hm & _).
  unfold scene_comps, scene_markers. cbn [fst snd]. rewrite Hc, Hm.
  apply (f_equal (@List.length string)) in Hcid. rewrite length_map in Hcid.
  cbn [List.length]. rewrite Hcid. repeat split.
Qed.

Lemma scene_is_complete_witness :
  generate_scene_with_leads layout_tape 0%nat = Ok layout_scene 58%nat
  /\ List.length (scene_comps layout_scene) = 11%nat
  /\ List.length (scene_comps layout_scene) = List.length component_specs
  /\ List.length (scene_markers layout_scene) = 2%nat
  /\ List.length (filter (has_mtype "junction") (scene_markers layout_scene)) = 1%nat
  /\ List.length (filter (has_mtype "wire_jump") (scene_markers layout_scene)) = 1%nat.
Proof.
  split; [vm_compute; reflexivity|].
  apply (scene_is_complete layout_tape 0%nat 58%nat layout_scene).
  vm_compute. reflexivity.
Defined.

(** C9: in every returned scene the record of the transformer is the first
    element of the component list, and every record after it belongs to a
    two-terminal element, in catalogue order. *)
Theorem transformer_is_first (tape : nat -> N) (c c' : nat) (sc : Scene) :
  generate_scene_with_leads tape c = Ok sc c' ->
  exists t rest,
    scene_comps sc = t :: rest
    /\ cid t = "T1"%string /\ ctype t = "Transformer"%string
    /\ Forall two_terminal rest
    /\ map cid rest
       = ["AC1"; "BAT1"; "C1"; "D1"; "V1"; "L1"; "I1"; "SW_ID"; "SW_R"; "R1"]%string.
Proof.
  intros H. apply generate_scene_ok in H as (lw & s & Hb & -> & _).
  apply scene_anatomy in Hb
    as (x & y & lead & cs & pre & jx & jy & cx & cy & _ & Hc & Hcid & Htt & _).
  exists (transformer_record x y lead), cs.
  unfold scene_comps. cbn [fst snd]. repeat split; assumption.
Qed.

Lemma transformer_is_first_witness :
  generate_scene_with_leads layout_tape 0%nat = Ok layout_scene 58%nat
  /\ exists t rest,
       scene_comps layout_scene = t :: rest
       /\ cid t = "T1"%string /\ ctype t = "Transformer"%string
       /\ Forall two_terminal rest
       /\ map cid rest
          = ["AC1"; "BAT1"; "C1"; "D1"; "V1"; "L1"; "I1"; "SW_ID"; "SW_R"; "R1"]%string.
Proof.
  split; [vm_compute; reflexivity|].
  apply (transformer_is_first layout_tape 0%nat 58%nat layout_scene).
  vm_compute. reflexivity.
Defined.

(** C10: in every returned scene the wire-jump marker records the
    constants [gap = 0.30] and [hump_h = 0.30], whatever the draws; the
    body ends with the four instructions of the motif, whose two horizontal
    segments end at the centre's x minus and plus 0.30; and the hump between
    these two ends is the only hump primitive of the body. *)
Theorem wire_jump_is_fixed (tape : nat -> N) (c c' : nat) (sc : Scene) :
  generate_scene_with_leads tape c = Ok sc c' ->
  exists cx cy pre,
    filter (has_mtype "wire_jump") (scene_markers sc) = [wire_jump_marker cx cy]
    /\ mattrs (wire_jump_marker cx cy)
       = [("gap", VNum 0.30); ("hump_h", VNum 0.30)]%string
    /\ scene_body_cmds sc = pre ++ wire_jump_cmds cx cy
    /\ filter is_hump (scene_body_cmds sc)
       = [DrawHump (cx - 0.30, cy) (cx - 0.30, cy + 0.30)
                   (cx + 0.30, cy + 0.30) (cx + 0.30, cy)].
Proof.
  intros H. apply generate_scene_ok in H as (lw & s & Hb & -> & _).
  apply scene_anatomy in Hb
    as (x & y & lead & cs & pre & jx & jy & cx & cy & _ & _ & _ & _ & Hm & _ & _ & Hc & Hh).
  exists cx, cy, (BoundingBox (vx1, vy1) (vx2, vy2) :: pre).
  unfold scene_markers, scene_body_cmds. cbn [fst snd]. rewrite Hm, Hc.
  split; [reflexivity|]. split; [reflexivity|]. split; [reflexivity|].
  cbn [filter is_hump]. rewrite filter_app.
  assert (Hnone : filter is_hump pre = []).
  { clear - Hh. induction pre as [|d pre IH]; [reflexivity|].
    cbn in Hh |- *. apply orb_false_iff in Hh as [Hd Hp].
    rewrite Hd. apply IH, Hp. }
  rewrite Hnone. reflexivity.
Qed.

Lemma wire_jump_is_fixed_witness :
  generate_scene_with_leads layout_tape 0%nat = Ok layout_scene 58%nat
  /\ exists cx cy pre,
       filter (has_mtype "wire_jump") (scene_markers layout_scene)
       = [wire_jump_marker cx cy]
       /\ mattrs (wire_jump_marker cx cy)
          = [("gap", VNum 0.30); ("hump_h", VNum 0.30)]%string
       /\ scene_body_cmds layout_scene = pre ++ wire_jump_cmds cx cy
       /\ filter is_hump (scene_body_cmds layout_scene)
          = [DrawHump (cx - 0.30, cy) (cx - 0.30, cy + 0.30)
                      (cx + 0.30, cy + 0.30) (cx + 0.30, cy)].
Proof.
  split; [vm_compute; reflexivity|].
  apply (wire_jump_is_fixed layout_tape 0%nat 58%nat layout_scene).
  vm_compute. reflexivity.
Defined.

(** ** Failures and the whole-scene retry *)

Section Retry.

Variable tape : nat -> N.

Lemma generate_scene_raise (c c1 : nat) (e : Exn) :
  generate_scene_with_leads tape c = Raise e c1 ->
  exists msg s,
    e = RuntimeError msg
    /\ scene_body tape (init_scene c) = Raise (RuntimeError msg) s
    /\ c1 = cursor s.
Proof.
  unfold generate_scene_with_leads.
  destruct (scene_body tape (init_scene c)) as [lw s|e0 s] eqn:Hb; [discriminate|].
  intros H. injection H as <- <-.
  destruct (scene_body_raise tape c e0 s Hb) as [->|(cid0 & _ & ->)];
    eexists; exists s; repeat split.
Qed.

Lemma attempt_cursor_S (j c : nat) :
  attempt_cursor tape (S j) c
  = cursor_after (generate_scene_with_leads tape (attempt_cursor tape j c)).
Proof.
  revert c. induction j as [|j IH]; intros c; [reflexivity|].
  change (attempt_cursor tape (S (S j)) c)
    with (attempt_cursor tape (S j)
            (cursor_after (generate_scene_with_leads tape c))).
  rewrite IH. reflexivity.
Qed.

Lemma scene_attempt_fails_intro (c j c1 : nat) (e : Exn) :
  generate_scene_with_leads tape (attempt_cursor tape j c) = Raise e c1 ->
  scene_attempt_fails tape c j /\ c1 = attempt_cursor tape (S j) c
  /\ exists msg, e = RuntimeError msg.
Proof.
  intros H. pose proof (attempt_cursor_S j c) as HS. rewrite H in HS. cbn in HS.
  apply generate_scene_raise in H as (msg & s & -> & Hb & ->).
  repeat split.
  - exists msg, s. split; [exact Hb|]. symmetry. exact HS.
  - symmetry. exact HS.
  - now exists msg.
Qed.

Lemma scene_attempt_returns_intro (c k c' : nat) (sc : Scene) :
  generate_scene_with_leads tape (attempt_cursor tape k c) = Ok sc c' ->
  scene_attempt_returns tape c k sc c'.
Proof.
  intros H. apply generate_scene_ok in H as (lw & s & Hb & -> & ->).
  exists lw, s. repeat split. exact Hb.
Qed.

(** The loop of [generate_one]: with [S n] attempts allowed it returns the
    scene of the first attempt that returns, or, all of them having raised,
    raises what the last one raised. *)
Lemma retry_scene_spec (n : nat) :
  forall (last_err : option Exn) (c : nat),
    (exists k sc c',
       (k <= n)%nat
       /\ (forall j, (j < k)%nat -> scene_attempt_fails tape c j)
       /\ scene_attempt_returns tape c k sc c'
       /\ retry_scene tape (S n) last_err c = Ok sc c')
    \/ (exists e,
          (forall j, (j <= n)%nat -> scene_attempt_fails tape c j)
          /\ generate_scene_with_leads tape (attempt_cursor tape n c)
             = Raise e (attempt_cursor tape (S n) c)
          /\ retry_scene tape (S n) last_err c
             = Raise e (attempt_cursor tape (S n) c)).
Proof.
  induction n as [|n IH]; intros last_err c.
  - cbn [retry_scene].
    destruct (generate_scene_with_leads tape c) as [sc c'|e c1] eqn:Hg.
    + left. exists 0%nat, sc, c'. split; [lia|]. split; [intros j Hj; lia|].
      split; [|reflexivity]. apply scene_attempt_returns_intro. exact Hg.
    + right.
      destruct (scene_attempt_fails_intro c 0 c1 e Hg) as (Hf & -> & msg & ->).
      exists (RuntimeError msg). split; [|split].
      * intros j Hj. assert (j = 0)%nat as -> by lia. exact Hf.
      * exact Hg.
      * reflexivity.
  - change (retry_scene tape (S (S n)) last_err c)
      with (match generate_scene_with_leads tape c with
            | Ok sc c' => Ok sc c'
            | Raise (RuntimeError msg) c' =>
                retry_scene tape (S n) (Some (RuntimeError msg)) c'
            | Raise e c' => Raise e c'
            end).
    destruct (generate_scene_with_leads tape c) as [sc c'|e c1] eqn:Hg.
    + left. exists 0%nat, sc, c'. split; [lia|]. split; [intros j Hj; lia|].
      split; [|reflexivity]. apply scene_attempt_returns_intro. exact Hg.
    + destruct (scene_attempt_fails_intro c 0 c1 e Hg) as (Hf & Hc1 & msg & ->).
      assert (Hshift : forall j, attempt_cursor tape j c1 = attempt_cursor tape (S j) c).
      { intros j. cbn [attempt_cursor]. rewrite Hg. reflexivity. }
      assert (Hfail : forall j, scene_attempt_fails tape c1 j ->
                                scene_attempt_fails tape c (S j)).
      { intros j (m & s & Hb & Hs). exists m, s.
        rewrite <- !Hshift. split; assumption. }
      destruct (IH (Some (RuntimeError msg)) c1)
        as [(k & sc & c' & Hk & Hrej & Hret & Heq)|(e & Hrej & Hlast & Heq)].
      * left. exists (S k), sc, c'. split; [lia|]. split; [|split].
        -- intros [|j] Hj; [exact Hf|]. apply Hfail, Hrej. lia.
        -- destruct Hret as (lw & s & Hb & Hsc & Hc'). exists lw, s.
           rewrite <- Hshift. repeat split; assumption.
        -- exact Heq.
      * right. exists e. split; [|split].
        -- intros [|j] Hj; [exact Hf|]. apply Hfail, Hrej. lia.
        -- rewrite <- !Hshift. exact Hlast.
        -- rewrite <- Hshift. exact Heq.
Qed.

(** The same for the budget of [generate_one]. *)
Lemma retry_scene_budget (c : nat) :
  (exists k sc c',
     (k < retry_budget)%nat
     /\ (forall j, (j < k)%nat -> scene_attempt_fails tape c j)
     /\ scene_attempt_returns tape c k sc c'
     /\ retry_scene tape retry_budget None c = Ok sc c')
  \/ (exists e,
        (forall j, (j < retry_budget)%nat -> scene_attempt_fails tape c j)
        /\ generate_scene_with_leads tape (attempt_cursor tape 79 c)
           = Raise e (attempt_cursor tape retry_budget c)
        /\ retry_scene tape retry_budget None c
           = Raise e (attempt_cursor tape retry_budget c)).
Proof.
  destruct (retry_scene_spec 79 None c)
    as [(k & sc & c' & Hk & Hrej & Hret & Heq)|(e & Hrej & Hlast & Heq)];
    change (S 79) with retry_budget in *.
  - left. exists k, sc, c'. split; [unfold retry_budget; lia|].
    split; [exact Hrej|]. split; [exact Hret|exact Heq].
  - right. exists e. split; [|split; [exact Hlast|exact Heq]].
    intros j Hj. apply Hrej. unfold retry_budget in Hj. lia.
Qed.

End Retry.

(** ** Exports *)

Lemma returned_scene_counts (tape : nat -> N) (c c' : nat) (sc : Scene) :
  generate_scene_with_leads tape c = Ok sc c' ->
  List.length (scene_comps sc) = 11%nat /\ List.length (scene_markers sc) = 2%nat.
Proof.
  intros H. apply generate_scene_ok in H as (lw & s & Hb & -> & _).
  apply scene_anatomy in Hb
    as (x & y & lead & cs & pre & jx & jy & cx & cy & _ & Hc & Hcid & _ & Hm & _).
  unfold scene_comps, scene_markers. cbn [fst snd]. rewrite Hc, Hm.
  apply (f_equal (@List.length string)) in Hcid. rewrite length_map in Hcid.
  cbn [List.length]. rewrite Hcid. split; reflexivity.
Qed.

Lemma scene_attempt_returns_counts (tape : nat -> N) (c k c' : nat) (sc : Scene) :
  scene_attempt_returns tape c k sc c' ->
  List.length (scene_comps sc) = 11%nat /\ List.length (scene_markers sc) = 2%nat.
Proof.
  intros (lw & s & Hb & -> & ->).
  apply (returned_scene_counts tape (attempt_cursor tape k c) (cursor s)).
  unfold generate_scene_with_leads. rewrite Hb. reflexivity.
Qed.

Section Exports.

Variable tape : nat -> N.
Variables pdflatex_run pdftoppm_run : string -> ToolRun.

Lemma ground_truth_exports_app (c c' : nat) (fs gs : list (string * FileData)) :
  ground_truth_exports (mkWorld c (fs ++ gs))
  = ground_truth_exports (mkWorld c' fs) ++ ground_truth_exports (mkWorld c' gs).
Proof. unfold ground_truth_exports. cbn [w_files]. apply flat_map_app. Qed.

(** What one call of [generate_one] adds to the ground-truth files: nothing
    when the retry loop raises, when running a tool raises or when a tool
    leaves no output, else the export of the scene that the loop
    returned. *)
Lemma generate_one_exports (idx : nat) (w : World) :
  ground_truth_exports
    (final_world (generate_one tape pdflatex_run pdftoppm_run idx w))
  = match retry_scene tape retry_budget None (w_cursor w) with
    | Raise _ _ => ground_truth_exports w
    | Ok sc _ =>
      ground_truth_exports w
      ++ (if delivers (pdflatex_run (sample_path idx ".tex"))
             && delivers (pdftoppm_run (sample_path idx ".pdf"))
          then [(sample_path idx ".json", sample_export idx sc)]
          else [])
    end.
Proof.
  unfold generate_one. unfold bind at 1. unfold with_cursor.
  destruct (retry_scene tape retry_budget None (w_cursor w)) as [sc c'|e c'].
  - destruct sc as [[[lw body] cs] ms].
    unfold bind at 1. unfold write_file at 1, modify at 1. cbn [w_cursor w_files].
    unfold bind at 1, compile_tex_to_pdf, sample_path.
    destruct (pdflatex_run _) as [e1|[|]].
    + unfold raise. cbn [final_world andb delivers].
      rewrite !(ground_truth_exports_app c' c').
      destruct w as [c0 fs]. cbn. rewrite !app_nil_r. reflexivity.
    + unfold bind at 1. unfold write_file at 1, modify at 1. cbn [w_cursor w_files].
      unfold ret at 1. unfold bind at 1, pdf_to_png.
      destruct (pdftoppm_run _) as [e2|[|]].
      * unfold raise. cbn [final_world andb delivers].
        rewrite !(ground_truth_exports_app c' c').
        destruct w as [c0 fs]. cbn. rewrite !app_nil_r. reflexivity.
      * unfold bind at 1. unfold write_file at 1, modify at 1. cbn [w_cursor w_files].
        unfold ret at 1. unfold write_file, modify.
        cbn [final_world w_cursor w_files andb delivers].
        rewrite !(ground_truth_exports_app c' c'), app_nil_r.
        destruct w as [c0 fs]. cbn. rewrite !app_nil_r. reflexivity.
      * unfold raise. cbn [final_world andb delivers].
        rewrite !(ground_truth_exports_app c' c').
        destruct w as [c0 fs]. cbn. rewrite !app_nil_r. reflexivity.
    + unfold raise. cbn [final_world andb delivers].
      rewrite !(ground_truth_exports_app c' c').
      destruct w as [c0 fs]. cbn. rewrite !app_nil_r. reflexivity.
  - destruct w as [c0 fs]. reflexivity.
Qed.

(** [generate_one] written out by what the retry loop and the two tools
    answer. *)
Lemma generate_one_run (idx : nat) (w : World) :
  generate_one tape pdflatex_run pdftoppm_run idx w
  = match retry_scene tape retry_budget None (w_cursor w) with
    | Raise e c' => Raise e (mkWorld c' (w_files w))
    | Ok sc c' =>
      match pdflatex_run (sample_path idx ".tex") with
      | RunRaises e => Raise e (mkWorld c' (w_files w ++ [tex_file idx sc]))
      | RunLeaves false =>
        Raise pdflatex_error (mkWorld c' (w_files w ++ [tex_file idx sc]))
      | RunLeaves true =>
        match pdftoppm_run (sample_path idx ".pdf") with
        | RunRaises e =>
          Raise e (mkWorld c' (w_files w ++ [tex_file idx sc; pdf_file idx]))
        | RunLeaves false =>
          Raise pdftoppm_error
            (mkWorld c' (w_files w ++ [tex_file idx sc; pdf_file idx]))
        | RunLeaves true =>
          Ok tt (mkWorld c' (w_files w ++ [tex_file idx sc; pdf_file idx;
                                           png_file idx; json_file idx sc]))
        end
      end
    end.
Proof.
  unfold generate_one. unfold bind at 1. unfold with_cursor.
  destruct (retry_scene tape retry_budget None (w_cursor w)) as [sc c'|e c'];
    [|reflexivity].
  destruct sc as [[[lw body] cs] ms].
  unfold bind at 1. unfold write_file at 1, modify at 1. cbn [w_cursor w_files].
  unfold bind at 1, compile_tex_to_pdf. fold (sample_path idx ".tex").
  destruct (pdflatex_run (sample_path idx ".tex")) as [e1|[|]]; try reflexivity.
  unfold bind at 1. unfold write_file at 1, modify at 1. cbn [w_cursor w_files].
  unfold ret at 1. unfold bind at 1, pdf_to_png. fold (sample_path idx ".pdf").
  destruct (pdftoppm_run (sample_path idx ".pdf")) as [e2|[|]].
  - unfold raise. rewrite <- !app_assoc. reflexivity.
  - unfold bind at 1. unfold write_file at 1, modify at 1. cbn [w_cursor w_files].
    unfold ret at 1. unfold write_file, modify. cbn [w_cursor w_files].
    rewrite <- !app_assoc. reflexivity.
  - unfold raise. rewrite <- !app_assoc. reflexivity.
Qed.

(** With the retry loop returning a scene and both tools delivering, the
    sample is written and the call returns. *)
Lemma generate_one_returns (idx : nat) (w : World) (sc : Scene) (c' : nat) :
  retry_scene tape retry_budget None (w_cursor w) = Ok sc c' ->
  delivers (pdflatex_run (sample_path idx ".tex")) = true ->
  delivers (pdftoppm_run (sample_path idx ".pdf")) = true ->
  generate_one tape pdflatex_run pdftoppm_run idx w
  = Ok tt (mkWorld c' (w_files w ++ [tex_file idx sc; pdf_file idx;
                                     png_file idx; json_file idx sc])).
Proof.
  intros Hr H1 H2. rewrite generate_one_run, Hr.
  destruct (pdflatex_run _) as [e1|[|]]; try discriminate H1.
  destruct (pdftoppm_run _) as [e2|[|]]; try discriminate H2.
  reflexivity.
Qed.

Lemma generate_one_raise_of_retry (idx : nat) (w : World) (e : Exn) (c' : nat) :
  retry_scene tape retry_budget None (w_cursor w) = Raise e c' ->
  generate_one tape pdflatex_run pdftoppm_run idx w
  = Raise e (mkWorld c' (w_files w)).
Proof.
  intros H. unfold generate_one. unfold bind at 1. unfold with_cursor.
  rewrite H. reflexivity.
Qed.

Lemma retry_scene_returns_complete (idx : nat) (c c' : nat) (sc : Scene) :
  retry_scene tape retry_budget None c = Ok sc c' ->
  complete_export (sample_export idx sc).
Proof.
  intros H.
  destruct (retry_scene_budget tape c)
    as [(k & sc1 & c1 & Hk & _ & Hret & Heq)|(e & _ & _ & Heq)];
    rewrite Heq in H; [|discriminate H].
  injection H as <- <-.
  apply (scene_attempt_returns_counts tape c k c1 sc1 Hret).
Qed.

Lemma generate_one_keeps_complete (idx : nat) (w : World) :
  Forall (fun f => complete_export (snd f)) (ground_truth_exports w) ->
  Forall (fun f => complete_export (snd f))
    (ground_truth_exports
       (final_world (generate_one tape pdflatex_run pdftoppm_run idx w))).
Proof.
  intros Hw. rewrite generate_one_exports.
  destruct (retry_scene tape retry_budget None (w_cursor w)) as [sc c'|e c'] eqn:Hr;
    [|exact Hw].
  apply Forall_app. split; [exact Hw|].
  destruct (_ && _); constructor; [|constructor].
  cbn [snd]. eapply retry_scene_returns_complete, Hr.
Qed.

Lemma main_loop_keeps_complete (n : nat) :
  forall (i : nat) (w : World),
    Forall (fun f => complete_export (snd f)) (ground_truth_exports w) ->
    Forall (fun f => complete_export (snd f))
      (ground_truth_exports
         (final_world (main_loop tape pdflatex_run pdftoppm_run n i w))).
Proof.
  induction n as [|n IH]; intros i w Hw; [exact Hw|].
  cbn [main_loop]. unfold bind at 1.
  pose proof (generate_one_keeps_complete i w Hw) as H1.
  destruct (generate_one tape pdflatex_run pdftoppm_run i w)
    as [[] w1|e w1]; cbn [final_world] in H1 |- *.
  - apply IH, H1.
  - exact H1.
Qed.

End Exports.

(** ** C7: the bounded search and its failure *)

Lemma two_pin_all_rejected_raises (tape : nat -> N)
    (cid0 ctype0 element label : string) (s : SceneState) :
  (forall j, (j < attempt_budget)%nat -> two_pin_rejected tape s j) ->
  place_two_pin tape cid0 ctype0 element label s
  = Raise (two_pin_error cid0) (set_cursor (5 * attempt_budget + cursor s) s).
Proof.
  intros Hall.
  destruct (place_two_pin_outcome tape cid0 ctype0 element label s)
    as [(s' & _ & k & Hk & _ & Hok & _)|[_ Heq]]; [|exact Heq].
  specialize (Hall k Hk). unfold two_pin_rejected in Hall. congruence.
Qed.

Lemma transformer_all_rejected_raises (tape : nat -> N) (s : SceneState) :
  (forall j, (j < attempt_budget)%nat -> transformer_rejected tape s j) ->
  place_transformer_node tape s
  = Raise transformer_error (set_cursor (2 * attempt_budget + cursor s) s).
Proof.
  intros Hall.
  destruct (place_transformer_outcome tape s)
    as [(s' & _ & k & x & y & lead & Hk & _ & _ & _ & Hok & _)|[_ Heq]]; [|exact Heq].
  specialize (Hall k Hk). unfold transformer_rejected in Hall. congruence.
Qed.

Lemma retry_scene_catches (tape : nat -> N) (c c1 : nat) (e : Exn) (n : nat)
    (last_err : option Exn) :
  generate_scene_with_leads tape c = Raise e c1 ->
  retry_scene tape (S n) last_err c = retry_scene tape n (Some e) c1.
Proof.
  intros H. destruct (generate_scene_raise tape c c1 e H) as (msg & s & -> & _).
  cbn [retry_scene]. rewrite H. reflexivity.
Qed.

(** *** Tapes that open with zeros *)

Lemma two_pin_at_zero (tape : nat -> N) (n : nat) :
  (forall i, (n <= i < n + 5)%nat -> tape i = 0%N) ->
  two_pin_at tape n = two_pin_at zero_tape 0%nat.
Proof.
  intros H. unfold two_pin_at, zero_tape.
  rewrite (H n), (H (1 + n)%nat), (H (2 + n)%nat), (H (3 + n)%nat), (H (4 + n)%nat)
    by lia.
  reflexivity.
Qed.

Lemma transformer_at_zero (tape : nat -> N) (n : nat) :
  (forall i, (n <= i < n + 2)%nat -> tape i = 0%N) ->
  transformer_at tape n = transformer_at zero_tape 0%nat.
Proof.
  intros H. unfold transformer_at, zero_tape.
  rewrite (H n), (H (1 + n)%nat) by lia.
  reflexivity.
Qed.

(** A whole-scene attempt that reads only zeros puts the transformer in
    the lower left corner and then finds every candidate for [AC1] on it:
    it raises for [AC1] after 4000 tries. *)
Lemma zero_prefix_scene_fails (tape : nat -> N) (c : nat) :
  (forall i, (c <= i < 5 * attempt_budget + (4 + c))%nat -> tape i = 0%N) ->
  generate_scene_with_leads tape c
  = Raise (two_pin_error "AC1") (5 * attempt_budget + (4 + c))%nat.
Proof.
  intros Hzero.
  unfold generate_scene_with_leads, scene_body. unfold bind at 1.
  change (random_choice tape 0.8 [1.0; 1.2] (init_scene c))
    with (Ok (S:=SceneState) (pick (tape c) 0.8 [1.0; 1.2]) (init_scene (S c))).
  cbv beta iota. unfold bind at 1.
  unfold place_transformer_node. change attempt_budget with (S 3999) at 1.
  rewrite place_transformer_loop_S.
  change (hits_occupied (snd (transformer_at tape (cursor (init_scene (S c)))))
            (occupied (init_scene (S c)))) with false.
  cbv beta iota.
  assert (Hat : transformer_at tape (cursor (init_scene (S c)))
                = transformer_at zero_tape 0%nat).
  { apply transformer_at_zero. cbn [cursor init_scene]. intros i Hi.
    apply Hzero. lia. }
  rewrite Hat.
  destruct (transformer_at zero_tape 0%nat) as [[x y] bb] eqn:Hbb.
  rewrite transformer_commit_run. unfold bind at 1.
  cbn [component_specs place_bipoles String.eqb Ascii.eqb Bool.eqb].
  unfold bind at 1.
  rewrite two_pin_all_rejected_raises.
  - cbn [cursor set_cursor init_scene]. reflexivity.
  - intros j Hj. unfold two_pin_rejected. cbn [occupied cursor set_cursor init_scene app].
    rewrite two_pin_at_zero.
    + vm_compute in Hbb. injection Hbb as _ _ <-. vm_compute. reflexivity.
    + intros i Hi. apply Hzero. lia.
Qed.

(** On the tape of zero draws every whole-scene attempt raises for [AC1]
    after 4000 tries. *)
Lemma zero_tape_scene_fails (c : nat) :
  generate_scene_with_leads zero_tape c
  = Raise (two_pin_error "AC1") (5 * attempt_budget + (4 + c))%nat.
Proof. apply zero_prefix_scene_fails. reflexivity. Qed.

(** A tape on which every whole-scene attempt raises the same error makes
    the retry loop raise that error, once the 80 attempts are used up. *)
Lemma hopeless_tape_retry_fails (tape : nat -> N) (e0 : Exn) (c : nat) :
  (forall c0, exists c1, generate_scene_with_leads tape c0 = Raise e0 c1) ->
  retry_scene tape retry_budget None c
  = Raise e0 (attempt_cursor tape retry_budget c).
Proof.
  intros Hfail.
  destruct (retry_scene_budget tape c)
    as [(k & sc & c' & _ & _ & (lw & s & Hb & _) & _)|(e & _ & Hlast & Heq)].
  - destruct (Hfail (attempt_cursor tape k c)) as (c1 & Hf).
    unfold generate_scene_with_leads in Hf. rewrite Hb in Hf. discriminate Hf.
  - destruct (Hfail (attempt_cursor tape 79 c)) as (c1 & Hf).
    rewrite Hf in Hlast.
    apply (f_equal raised) in Hlast. cbn [raised] in Hlast.
    injection Hlast as <-. exact Heq.
Qed.

Lemma zero_tape_retry_fails (c : nat) :
  retry_scene zero_tape retry_budget None c
  = Raise (two_pin_error "AC1") (attempt_cursor zero_tape retry_budget c).
Proof.
  apply hopeless_tape_retry_fails.
  intros c0. eexists. apply zero_tape_scene_fails.
Qed.

Lemma hopeless_tape_sample_fails (tape : nat -> N) (e0 : Exn)
    (pdflatex_run pdftoppm_run : string -> ToolRun) (idx : nat) (w : World) :
  (forall c, exists c1, generate_scene_with_leads tape c = Raise e0 c1) ->
  generate_one tape pdflatex_run pdftoppm_run idx w
  = Raise e0 (mkWorld (attempt_cursor tape retry_budget (w_cursor w)) (w_files w)).
Proof.
  intros Hfail. apply generate_one_raise_of_retry.
  apply hopeless_tape_retry_fails, Hfail.
Qed.

Lemma zero_tape_sample_fails (pdflatex_run pdftoppm_run : string -> ToolRun)
    (idx : nat) (w : World) :
  generate_one zero_tape pdflatex_run pdftoppm_run idx w
  = Raise (two_pin_error "AC1")
          (mkWorld (attempt_cursor zero_tape retry_budget (w_cursor w)) (w_files w)).
Proof.
  apply hopeless_tape_sample_fails.
  intros c. eexists. apply zero_tape_scene_fails.
Qed.

Lemma recovering_tape_first_attempt :
  generate_scene_with_leads recovering_tape 0%nat = Raise (two_pin_error "AC1") first_failure.
Proof.
  replace first_failure with (5 * attempt_budget + (4 + 0))%nat
    by (unfold first_failure; lia).
  apply zero_prefix_scene_fails. intros i Hi. unfold recovering_tape.
  replace (i <? first_failure)%nat with true; [reflexivity|].
  symmetry. apply Nat.ltb_lt. unfold first_failure. lia.
Qed.

Lemma scene_from_returns (tape : nat -> N) (c n : nat) (sc : Scene) :
  scene_from tape c = Some (sc, n) ->
  generate_scene_with_leads tape c = Ok sc (n + c)%nat.
Proof.
  unfold scene_from.
  destruct (generate_scene_with_leads tape c) as [sc1 c'|e c']; [|discriminate].
  destruct (c <=? c')%nat eqn:Hle; [|discriminate].
  apply Nat.leb_le in Hle. intros H. injection H as -> Hc. f_equal. lia.
Qed.

Lemma recovering_tape_second_scene :
  scene_from recovering_tape first_failure = Some (layout_scene, 58%nat).
Proof. vm_compute. reflexivity. Qed.

Lemma recovering_tape_second_attempt :
  generate_scene_with_leads recovering_tape first_failure
  = Ok layout_scene (58 + first_failure)%nat.
Proof.
  exact (scene_from_returns recovering_tape first_failure 58 layout_scene
           recovering_tape_second_scene).
Qed.

Lemma recovering_tape_fails_once (j : nat) :
  (j < 1)%nat -> scene_attempt_fails recovering_tape 0%nat j.
Proof.
  intros Hj. replace j with 0%nat by lia.
  apply (scene_attempt_fails_intro recovering_tape 0%nat 0%nat first_failure
           (two_pin_error "AC1") recovering_tape_first_attempt).
Qed.

Lemma recovering_tape_returns :
  scene_attempt_returns recovering_tape 0%nat 1%nat layout_scene (58 + first_failure)%nat.
Proof.
  apply scene_attempt_returns_intro.
  destruct (scene_attempt_fails_intro recovering_tape 0%nat 0%nat first_failure
              (two_pin_error "AC1") recovering_tape_first_attempt) as (_ & <- & _).
  exact recovering_tape_second_attempt.
Qed.

(** The retry loop returns the scene of the first whole-scene attempt that
    returns, the attempts before it having raised. *)
Lemma retry_scene_first_return (tape : nat -> N) (c k : nat) (sc : Scene) (c' : nat) :
  (k < retry_budget)%nat ->
  (forall j, (j < k)%nat -> scene_attempt_fails tape c j) ->
  scene_attempt_returns tape c k sc c' ->
  retry_scene tape retry_budget None c = Ok sc c'.
Proof.
  intros Hk Hrej (lw & s & Hb & -> & ->).
  destruct (retry_scene_budget tape c)
    as [(k1 & sc1 & c1 & Hk1 & Hrej1 & (lw1 & s1 & Hb1 & -> & ->) & Heq)
       |(e & Hrej1 & _ & _)].
  - destruct (Nat.lt_trichotomy k1 k) as [Hlt|[->|Hlt]].
    + destruct (Hrej k1 Hlt) as (msg & s2 & Hb2 & _). congruence.
    + rewrite Heq. congruence.
    + destruct (Hrej1 k Hlt) as (msg & s2 & Hb2 & _). congruence.
  - destruct (Hrej1 k Hk) as (msg & s2 & Hb2 & _). congruence.
Qed.

(** C7: a placement call makes at most 4000 attempts.  It either commits
    the first candidate that passes the overlap test, or, when all 4000
    candidates fail it, raises a [RuntimeError] whose message names the
    element (the identifier for a two-terminal element, the word
    transformer for the transformer) and leaves the scene lists untouched.
    Every exception of the scene generator is such an error, and the retry
    loop of [generate_one] catches it: whenever fewer than 80 whole-scene
    attempts in a row have raised and the next one returns, the loop
    returns the scene of that attempt, and [generate_one] goes on to
    write this sample instead of raising; the loop itself raises only when
    all of its 80 attempts have raised. *)
Theorem placement_search_is_bounded (tape : nat -> N)
    (cid0 ctype0 element label : string) (s : SceneState) :
  attempt_budget = 4000%nat
  /\ ((exists s' k,
         place_two_pin tape cid0 ctype0 element label s = Ok tt s'
         /\ (k < attempt_budget)%nat
         /\ (forall j, (j < k)%nat -> two_pin_rejected tape s j)
         /\ ~ two_pin_rejected tape s k
         /\ cursor s' = (5 * S k + cursor s)%nat)
      \/ ((forall j, (j < attempt_budget)%nat -> two_pin_rejected tape s j)
          /\ place_two_pin tape cid0 ctype0 element label s
             = Raise (RuntimeError
                        ("Could not place " ++ cid0 ++
                         " without overlap. Consider enlarging view_bbox or reducing pad."))
                     (set_cursor (5 * attempt_budget + cursor s) s)))
  /\ ((forall j, (j < attempt_budget)%nat -> two_pin_rejected tape s j) ->
      place_two_pin tape cid0 ctype0 element label s
      = Raise (two_pin_error cid0) (set_cursor (5 * attempt_budget + cursor s) s))
  /\ ((exists s' k,
         place_transformer_node tape s = Ok tt s'
         /\ (k < attempt_budget)%nat
         /\ (forall j, (j < k)%nat -> transformer_rejected tape s j)
         /\ ~ transformer_rejected tape s k
         /\ cursor s' = (S (2 * S k + cursor s))%nat)
      \/ ((forall j, (j < attempt_budget)%nat -> transformer_rejected tape s j)
          /\ place_transformer_node tape s
             = Raise (RuntimeError "Could not place transformer without overlap.")
                     (set_cursor (2 * attempt_budget + cursor s) s)))
  /\ ((forall j, (j < attempt_budget)%nat -> transformer_rejected tape s j) ->
      place_transformer_node tape s
      = Raise transformer_error (set_cursor (2 * attempt_budget + cursor s) s))
  /\ (forall c c1 e,
        generate_scene_with_leads tape c = Raise e c1 ->
        (exists msg, e = RuntimeError msg)
        /\ (e = transformer_error
            \/ exists cid1, In cid1 (map spec_cid component_specs)
                            /\ e = two_pin_error cid1)
        /\ forall n last_err,
             retry_scene tape (S n) last_err c = retry_scene tape n (Some e) c1)
  /\ (forall c k sc c',
        (k < retry_budget)%nat ->
        (forall j, (j < k)%nat -> scene_attempt_fails tape c j) ->
        scene_attempt_returns tape c k sc c' ->
        retry_scene tape retry_budget None c = Ok sc c'
        /\ forall (pdflatex_run pdftoppm_run : string -> ToolRun) (idx : nat)
                  (files : list (string * FileData)),
             (delivers (pdflatex_run (sample_path idx ".tex")) = true ->
              delivers (pdftoppm_run (sample_path idx ".pdf")) = true ->
              generate_one tape pdflatex_run pdftoppm_run idx (mkWorld c files)
              = Ok tt (mkWorld c' (files ++ [tex_file idx sc; pdf_file idx;
                                             png_file idx; json_file idx sc])))
             /\ ground_truth_exports
                  (final_world (generate_one tape pdflatex_run pdftoppm_run idx
                                  (mkWorld c files)))
                = ground_truth_exports (mkWorld c files)
                  ++ (if delivers (pdflatex_run (sample_path idx ".tex"))
                         && delivers (pdftoppm_run (sample_path idx ".pdf"))
                      then [(sample_path idx ".json", sample_export idx sc)]
                      else []))
  /\ (forall c e c',
        retry_scene tape retry_budget None c = Raise e c' ->
        forall j, (j < retry_budget)%nat -> scene_attempt_fails tape c j).
Proof.
  split; [reflexivity|]. split; [|split; [|split; [|split; [|split; [|split]]]]].
  - destruct (place_two_pin_outcome tape cid0 ctype0 element label s)
      as [(s' & Heq & k & Hk & Hrej & Hok & ->)|[Hrej Heq]].
    + left. eexists. exists k. split; [exact Heq|]. split; [exact Hk|].
      split; [exact Hrej|]. split; [|reflexivity].
      unfold two_pin_rejected. rewrite Hok. discriminate.
    + right. split; [exact Hrej|exact Heq].
  - apply two_pin_all_rejected_raises.
  - destruct (place_transformer_outcome tape s)
      as [(s' & Heq & k & x & y & lead & Hk & Hrej & _ & _ & Hok & ->)|[Hrej Heq]].
    + left. eexists. exists k. split; [exact Heq|]. split; [exact Hk|].
      split; [exact Hrej|]. split; [|reflexivity].
      unfold transformer_rejected. rewrite Hok. discriminate.
    + right. split; [exact Hrej|exact Heq].
  - apply transformer_all_rejected_raises.
  - intros c c1 e H. split; [|split].
    + destruct (generate_scene_raise tape c c1 e H) as (msg & _ & -> & _).
      now exists msg.
    + unfold generate_scene_with_leads in H.
      destruct (scene_body tape (init_scene c)) as [lw s0|e0 s0] eqn:Hb;
        [discriminate H|].
      injection H as <- _. exact (scene_body_raise tape c e0 s0 Hb).
    + intros n last_err. apply retry_scene_catches, H.
  - intros c k sc c' Hk Hrej Hret.
    pose proof (retry_scene_first_return tape c k sc c' Hk Hrej Hret) as Hretry.
    split; [exact Hretry|]. intros pdflatex_run pdftoppm_run idx files.
    split.
    + intros H1 H2.
      exact (generate_one_returns tape pdflatex_run pdftoppm_run idx (mkWorld c files)
               sc c' Hretry H1 H2).
    + rewrite generate_one_exports. cbn [w_cursor]. rewrite Hretry. reflexivity.
  - intros c e c' Hraise.
    destruct (retry_scene_budget tape c)
      as [(k & sc & c1 & _ & _ & _ & Heq)|(e1 & Hrej & _ & _)]; [|exact Hrej].
    rewrite Heq in Hraise. discriminate Hraise.
Qed.

(** On the tape of zero draws every candidate is the same; with the whole
    canvas taken, or with the transformer's square already spanned, all
    4000 attempts fail and the call for [AC1] raises.  On
    [recovering_tape] the first whole-scene attempt raises for [AC1] after
    its 4000 tries, the second returns [layout_scene], and this is what the
    retry loop returns and [generate_one] writes.  On the tape of zero
    draws the retry loop raises, all 80 attempts having raised. *)
Lemma placement_search_is_bounded_witness :
  (forall j, (j < attempt_budget)%nat -> two_pin_rejected zero_tape crowded_scene j)
  /\ (forall j, (j < attempt_budget)%nat -> transformer_rejected zero_tape crowded_scene j)
  /\ place_two_pin zero_tape "AC1" "ACSource" "sV" "AC" crowded_scene
     = Raise (two_pin_error "AC1")
             (set_cursor (5 * attempt_budget + cursor crowded_scene) crowded_scene)
  /\ place_transformer_node zero_tape crowded_scene
     = Raise transformer_error
             (set_cursor (2 * attempt_budget + cursor crowded_scene) crowded_scene)
  /\ generate_scene_with_leads recovering_tape 0%nat
     = Raise (two_pin_error "AC1") first_failure
  /\ retry_scene recovering_tape (S 79) None 0%nat
     = retry_scene recovering_tape 79 (Some (two_pin_error "AC1")) first_failure
  /\ (1 < retry_budget)%nat
  /\ (forall j, (j < 1)%nat -> scene_attempt_fails recovering_tape 0%nat j)
  /\ scene_attempt_returns recovering_tape 0%nat 1%nat layout_scene (58 + first_failure)%nat
  /\ retry_scene recovering_tape retry_budget None 0%nat
     = Ok layout_scene (58 + first_failure)%nat
  /\ generate_one recovering_tape (fun _ => RunLeaves true) (fun _ => RunLeaves true)
       0%nat (mkWorld 0%nat [])
     = Ok tt (mkWorld (58 + first_failure)%nat
                [tex_file 0%nat layout_scene; pdf_file 0%nat; png_file 0%nat;
                 json_file 0%nat layout_scene])
  /\ retry_scene zero_tape retry_budget None 0%nat
     = Raise (two_pin_error "AC1") (attempt_cursor zero_tape retry_budget 0)
  /\ (forall j, (j < retry_budget)%nat -> scene_attempt_fails zero_tape 0%nat j).
Proof.
  assert (H2 : forall j, (j < attempt_budget)%nat ->
                         two_pin_rejected zero_tape crowded_scene j)
    by (intros j _; vm_compute; reflexivity).
  assert (HT : forall j, (j < attempt_budget)%nat ->
                         transformer_rejected zero_tape crowded_scene j)
    by (intros j _; vm_compute; reflexivity).
  pose proof recovering_tape_first_attempt as Hfirst.
  assert (Hbudget : (1 < retry_budget)%nat) by (unfold retry_budget; lia).
  pose proof recovering_tape_fails_once as Hrej.
  pose proof recovering_tape_returns as Hret.
  pose proof (zero_tape_retry_fails 0%nat) as Hzero.
  split; [exact H2|]. split; [exact HT|]. split; [|split; [|split; [exact Hfirst|]]].
  - exact (proj1 (proj2 (proj2
      (placement_search_is_bounded zero_tape "AC1" "ACSource" "sV" "AC" crowded_scene)))
      H2).
  - exact (proj1 (proj2 (proj2 (proj2 (proj2
      (placement_search_is_bounded zero_tape "AC1" "ACSource" "sV" "AC" crowded_scene)))))
      HT).
  - split.
    { exact (proj2 (proj2 (proj1 (proj2 (proj2 (proj2 (proj2 (proj2
        (placement_search_is_bounded recovering_tape "AC1" "ACSource" "sV" "AC"
           crowded_scene))))))
        0%nat first_failure (two_pin_error "AC1") Hfirst)) 79%nat None). }
    split; [exact Hbudget|]. split; [exact Hrej|]. split; [exact Hret|].
    destruct (proj1 (proj2 (proj2 (proj2 (proj2 (proj2 (proj2
        (placement_search_is_bounded recovering_tape "AC1" "ACSource" "sV" "AC"
           crowded_scene)))))))
        0%nat 1%nat layout_scene (58 + first_failure)%nat Hbudget Hrej Hret)
      as [Hretry Hone].
    split; [exact Hretry|]. split.
    { exact (proj1 (Hone (fun _ => RunLeaves true) (fun _ => RunLeaves true) 0%nat [])
               eq_refl eq_refl). }
    split; [exact Hzero|].
    exact (proj2 (proj2 (proj2 (proj2 (proj2 (proj2 (proj2
        (placement_search_is_bounded zero_tape "AC1" "ACSource" "sV" "AC"
           crowded_scene)))))))
        0%nat _ _ Hzero).
Defined.

(** ** C8: the whole-scene retry *)

(** C8: [generate_one] makes at most 80 whole-scene attempts, each on
    fresh empty lists and with nothing carried over from a failed attempt
    but the generator's cursor.  It stops at the first attempt that returns
    and exports that scene, which is complete, if the two tools deliver;
    when all 80 attempts have raised it raises what the last attempt raised
    and writes nothing.  Hence every ground-truth file of a run holds a
    complete scene. *)
Theorem whole_scene_retry_is_bounded (tape : nat -> N)
    (pdflatex_run pdftoppm_run : string -> ToolRun) (idx : nat) (w : World) :
  retry_budget = 80%nat
  /\ comps (init_scene (w_cursor w)) = [] /\ markers (init_scene (w_cursor w)) = []
  /\ cmds (init_scene (w_cursor w)) = [] /\ occupied (init_scene (w_cursor w)) = []
  /\ ((exists k sc c',
         (k < retry_budget)%nat
         /\ (forall j, (j < k)%nat -> scene_attempt_fails tape (w_cursor w) j)
         /\ scene_attempt_returns tape (w_cursor w) k sc c'
         /\ retry_scene tape retry_budget None (w_cursor w) = Ok sc c'
         /\ complete_export (sample_export idx sc)
         /\ ground_truth_exports
              (final_world (generate_one tape pdflatex_run pdftoppm_run idx w))
            = ground_truth_exports w
              ++ (if delivers (pdflatex_run (sample_path idx ".tex"))
                     && delivers (pdftoppm_run (sample_path idx ".pdf"))
                  then [(sample_path idx ".json", sample_export idx sc)]
                  else []))
      \/ (exists e,
            (forall j, (j < retry_budget)%nat -> scene_attempt_fails tape (w_cursor w) j)
            /\ generate_scene_with_leads tape (attempt_cursor tape 79 (w_cursor w))
               = Raise e (attempt_cursor tape retry_budget (w_cursor w))
            /\ generate_one tape pdflatex_run pdftoppm_run idx w
               = Raise e (mkWorld (attempt_cursor tape retry_budget (w_cursor w))
                                  (w_files w))))
  /\ (forall n,
        Forall (fun f => complete_export (snd f))
          (ground_truth_exports
             (final_world (run tape pdflatex_run pdftoppm_run n)))).
Proof.
  split; [reflexivity|]. do 4 (split; [reflexivity|]). split.
  - destruct (retry_scene_budget tape (w_cursor w))
      as [(k & sc & c' & Hk & Hrej & Hret & Heq)|(e & Hrej & Hlast & Heq)].
    + left. exists k, sc, c'. split; [exact Hk|].
      split; [exact Hrej|]. split; [exact Hret|]. split; [exact Heq|]. split.
      * eapply retry_scene_returns_complete, Heq.
      * rewrite generate_one_exports, Heq. reflexivity.
    + right. exists e. split; [exact Hrej|]. split; [exact Hlast|].
      apply generate_one_raise_of_retry, Heq.
  - intros n. unfold run, main. apply main_loop_keeps_complete. constructor.
Qed.

(** * Further properties of the geometry helpers *)

(** ** [clamp] *)

Lemma min2_spec (x y : Q) :
  min2 x y <= x /\ min2 x y <= y /\ (min2 x y = x \/ min2 x y = y).
Proof.
  unfold min2. destruct (Qltb y x) eqn:E.
  - apply Qltb_lt in E. repeat split; [lra|lra|now right].
  - apply Qltb_ge in E. repeat split; [lra|lra|now left].
Qed.

Lemma max2_spec (x y : Q) :
  x <= max2 x y /\ y <= max2 x y /\ (max2 x y = x \/ max2 x y = y).
Proof.
  unfold max2. destruct (Qltb x y) eqn:E.
  - apply Qltb_lt in E. repeat split; [lra|lra|now right].
  - apply Qltb_ge in E. repeat split; [lra|lra|now left].
Qed.

(** X1: [clamp] never answers below [lo]; when [lo <= hi] it never answers
    above [hi] either; when the bounds are crossed ([hi < lo]) it answers
    [lo] whatever the value. *)
Theorem clamp_range (v lo hi : Q) :
  lo <= clamp v lo hi
  /\ (lo <= hi -> clamp v lo hi <= hi)
  /\ (hi < lo -> clamp v lo hi = lo).
Proof.
  unfold clamp.
  destruct (max2_spec lo (min2 hi v)) as (M1 & M2 & M3).
  destruct (min2_spec hi v) as (N1 & N2 & N3).
  split; [exact M1|]. split.
  - intros Hle. destruct M3 as [->| ->]; lra.
  - intros Hlt. unfold max2.
    destruct (Qltb lo (min2 hi v)) eqn:E; [|reflexivity].
    apply Qltb_lt in E. lra.
Qed.

Lemma clamp_range_witness :
  (0 <= 1 -> clamp 5 0 1 <= 1) /\ (0 < 1 -> clamp 5 1 0 = 1).
Proof.
  split.
  - exact (proj1 (proj2 (clamp_range 5 0 1))).
  - exact (proj2 (proj2 (clamp_range 5 1 0))).
Defined.

Lemma clamp_inside (v lo hi : Q) :
  lo <= v -> v <= hi -> clamp v lo hi == v.
Proof.
  intros H1 H2. unfold clamp, max2, min2.
  destruct (Qltb v hi) eqn:E1.
  - destruct (Qltb lo v) eqn:E2; [reflexivity|].
    apply Qltb_ge in E2. lra.
  - apply Qltb_ge in E1.
    destruct (Qltb lo hi) eqn:E2; [lra|].
    apply Qltb_ge in E2. lra.
Qed.

(** X2: a value within the bounds is left as it is (up to equality of
    rationals), and clamping twice is clamping once. *)
Theorem clamp_fixes_range (v lo hi : Q) :
  (lo <= v -> v <= hi -> clamp v lo hi == v)
  /\ clamp (clamp v lo hi) lo hi == clamp v lo hi.
Proof.
  split; [apply clamp_inside|].
  destruct (Qlt_le_dec hi lo) as [Hlt|Hle].
  - assert (E : clamp v lo hi = lo).
    { unfold clamp, max2.
      destruct (min2_spec hi v) as (N1 & _).
      destruct (Qltb lo (min2 hi v)) eqn:E; [|reflexivity].
      apply Qltb_lt in E. lra. }
    rewrite E. unfold clamp, max2.
    destruct (min2_spec hi lo) as (N1 & _).
    destruct (Qltb lo (min2 hi lo)) eqn:E2; [|reflexivity].
    apply Qltb_lt in E2. lra.
  - apply clamp_inside.
    + unfold clamp. apply (max2_spec lo (min2 hi v)).
    + unfold clamp.
      destruct (max2_spec lo (min2 hi v)) as (_ & _ & [->| ->]); [exact Hle|].
      apply (min2_spec hi v).
Qed.

Lemma clamp_fixes_range_witness :
  (0 <= 0.5 -> 0.5 <= 1 -> clamp 0.5 0 1 == 0.5)
  /\ clamp (clamp 7 0 1) 0 1 == clamp 7 0 1.
Proof.
  split.
  - exact (proj1 (clamp_fixes_range 0.5 0 1)).
  - exact (proj2 (clamp_fixes_range 7 0 1)).
Defined.

(** X3: [clamp] is monotone in the value. *)
Theorem clamp_monotone (v w lo hi : Q) :
  v <= w -> clamp v lo hi <= clamp w lo hi.
Proof.
  intros Hvw. unfold clamp.
  assert (Hmin : min2 hi v <= min2 hi w).
  { destruct (min2_spec hi v) as (A1 & A2 & _).
    destruct (min2_spec hi w) as (_ & _ & [->| ->]); lra. }
  destruct (max2_spec lo (min2 hi w)) as (B1 & B2 & _).
  destruct (max2_spec lo (min2 hi v)) as (_ & _ & [->| ->]); lra.
Qed.

Lemma clamp_monotone_witness : 0.2 <= 3 /\ clamp 0.2 0 1 <= clamp 3 0 1.
Proof.
  split; [discriminate|]. apply (clamp_monotone 0.2 3 0 1). discriminate.
Defined.

(** ** [rects_overlap] as a statement about points *)

Lemma rects_overlap_true_iff (ax1 ay1 ax2 ay2 bx1 by1 bx2 by2 t : Q) :
  rects_overlap (ax1, ay1, ax2, ay2) (bx1, by1, bx2, by2) t = true
  <-> (bx1 <= ax2 + t /\ ax1 <= bx2 + t /\ by1 <= ay2 + t /\ ay1 <= by2 + t).
Proof.
  unfold rects_overlap.
  rewrite negb_true_iff, !orb_false_iff, !Qltb_ge. tauto.
Qed.

(** X4: with tolerance zero, two well-formed rectangles overlap exactly
    when some point lies in both (borders included). *)
Theorem rects_overlap_common_point (ax1 ay1 ax2 ay2 bx1 by1 bx2 by2 : Q) :
  well_formed (ax1, ay1, ax2, ay2) -> well_formed (bx1, by1, bx2, by2) ->
  (rects_overlap (ax1, ay1, ax2, ay2) (bx1, by1, bx2, by2) 0 = true
   <-> exists p, in_rect (ax1, ay1, ax2, ay2) p /\ in_rect (bx1, by1, bx2, by2) p).
Proof.
  intros [Ha1 Ha2] [Hb1 Hb2]. rewrite rects_overlap_true_iff. split.
  - intros (H1 & H2 & H3 & H4).
    exists (if Qlt_le_dec ax1 bx1 then bx1 else ax1,
            if Qlt_le_dec ay1 by1 then by1 else ay1).
    unfold in_rect. cbn [fst snd].
    destruct (Qlt_le_dec ax1 bx1), (Qlt_le_dec ay1 by1); repeat split; lra.
  - intros ([px py] & (A1 & A2 & A3 & A4) & (B1 & B2 & B3 & B4)).
    cbn [fst snd] in *. repeat split; lra.
Qed.

Lemma rects_overlap_common_point_witness :
  well_formed (0, 0, 2, 2) /\ well_formed (1, 1, 3, 3)
  /\ (rects_overlap (0, 0, 2, 2) (1, 1, 3, 3) 0 = true
      <-> exists p, in_rect (0, 0, 2, 2) p /\ in_rect (1, 1, 3, 3) p).
Proof.
  assert (Ha : well_formed (0, 0, 2, 2)) by (split; discriminate).
  assert (Hb : well_formed (1, 1, 3, 3)) by (split; discriminate).
  split; [exact Ha|]. split; [exact Hb|].
  exact (rects_overlap_common_point 0 0 2 2 1 1 3 3 Ha Hb).
Defined.

(** X6: a larger tolerance reports at least the overlaps of a smaller one,
    and a well-formed rectangle overlaps itself under every non-negative
    tolerance. *)
Theorem rects_overlap_monotone (a b : Rect) (t t' : Q) :
  (t <= t' -> rects_overlap a b t = true -> rects_overlap a b t' = true)
  /\ (well_formed a -> 0 <= t -> rects_overlap a a t = true).
Proof.
  destruct a as [[[ax1 ay1] ax2] ay2], b as [[[bx1 by1] bx2] by2]. split.
  - intros Ht H. apply rects_overlap_true_iff in H. apply rects_overlap_true_iff.
    repeat split; lra.
  - intros [H1 H2] Ht. apply rects_overlap_true_iff. repeat split; lra.
Qed.

Lemma rects_overlap_monotone_witness :
  rects_overlap (0, 0, 1, 1) (1.1, 0, 2, 1) 0.85 = true
  /\ rects_overlap (0, 0, 1, 1) (0, 0, 1, 1) 0.15 = true.
Proof.
  split.
  - refine (proj1 (rects_overlap_monotone (0, 0, 1, 1) (1.1, 0, 2, 1) 0.15 0.85) _ _);
      [discriminate|reflexivity].
  - refine (proj2 (rects_overlap_monotone (0, 0, 1, 1) (0, 0, 1, 1) 0.15 0.15) _ _);
      [split; discriminate|discriminate].
Defined.

(** ** [rect_from_points] and the point list *)

Lemma box_of_cons (p0 : Pt) (rest : list Pt) (pad0 : Q) :
  exists mnx mny mxx mxy,
    rect_from_points (p0 :: rest) pad0
    = inr (mnx - pad0, mny - pad0, mxx + pad0, mxy + pad0)
    /\ In mnx (map fst (p0 :: rest)) /\ In mny (map snd (p0 :: rest))
    /\ In mxx (map fst (p0 :: rest)) /\ In mxy (map snd (p0 :: rest))
    /\ (forall p, In p (p0 :: rest) ->
          mnx <= fst p /\ fst p <= mxx /\ mny <= snd p /\ snd p <= mxy).
Proof.
  unfold rect_from_points. cbn [map py_min py_max].
  destruct (min_fold_spec (map fst rest) (fst p0)) as [Hi1 Hl1].
  destruct (min_fold_spec (map snd rest) (snd p0)) as [Hi2 Hl2].
  destruct (max_fold_spec (map fst rest) (fst p0)) as [Hi3 Hl3].
  destruct (max_fold_spec (map snd rest) (snd p0)) as [Hi4 Hl4].
  do 4 eexists. split; [reflexivity|].
  split; [exact Hi1|]. split; [exact Hi2|]. split; [exact Hi3|].
  split; [exact Hi4|].
  intros p Hp. repeat split.
  - apply Hl1. apply (in_map fst (p0 :: rest)). exact Hp.
  - apply Hl3. apply (in_map fst (p0 :: rest)). exact Hp.
  - apply Hl2. apply (in_map snd (p0 :: rest)). exact Hp.
  - apply Hl4. apply (in_map snd (p0 :: rest)). exact Hp.
Qed.

Lemma box_within_of_incl (pts pts' : list Pt) (pad0 : Q) :
  pts <> [] -> incl pts pts' ->
  exists r r',
    rect_from_points pts pad0 = inr r
    /\ rect_from_points pts' pad0 = inr r'
    /\ rect_within r r'.
Proof.
  intros Hne Hincl.
  destruct pts as [|p0 rest]; [contradiction|].
  destruct pts' as [|q0 rest']; [destruct (Hincl p0); now left|].
  destruct (box_of_cons p0 rest pad0)
    as (mnx & mny & mxx & mxy & E & I1 & I2 & I3 & I4 & _).
  destruct (box_of_cons q0 rest' pad0)
    as (mnx' & mny' & mxx' & mxy' & E' & _ & _ & _ & _ & Hb).
  exists (mnx - pad0, mny - pad0, mxx + pad0, mxy + pad0),
         (mnx' - pad0, mny' - pad0, mxx' + pad0, mxy' + pad0).
  split; [exact E|]. split; [exact E'|].
  apply in_map_iff in I1 as (a1 & <- & A1). apply in_map_iff in I2 as (a2 & <- & A2).
  apply in_map_iff in I3 as (a3 & <- & A3). apply in_map_iff in I4 as (a4 & <- & A4).
  pose proof (Hb a1 (Hincl a1 A1)) as (B1 & _).
  pose proof (Hb a2 (Hincl a2 A2)) as (_ & _ & B2 & _).
  pose proof (Hb a3 (Hincl a3 A3)) as (_ & B3 & _).
  pose proof (Hb a4 (Hincl a4 A4)) as (_ & _ & _ & B4).
  cbn [rect_within]. repeat split; lra.
Qed.

(** X7: more points give a larger box: when every point of a non-empty
    list occurs in a second list, both calls return and the first box lies
    within the second. *)
Theorem rect_from_points_grows_with_points (pts pts' : list Pt) (pad0 : Q) :
  pts <> [] -> incl pts pts' ->
  exists r r',
    rect_from_points pts pad0 = inr r
    /\ rect_from_points pts' pad0 = inr r'
    /\ rect_within r r'.
Proof. apply box_within_of_incl. Qed.

Lemma rect_from_points_grows_with_points_witness :
  exists r r',
    rect_from_points [(0, 0); (1, 2)] 0.85 = inr r
    /\ rect_from_points [(3, -1); (1, 2); (0, 0)] 0.85 = inr r'
    /\ rect_within r r'.
Proof.
  apply (rect_from_points_grows_with_points [(0, 0); (1, 2)] [(3, -1); (1, 2); (0, 0)]).
  - discriminate.
  - intros p [<-|[<-|[]]]; cbn; auto.
Defined.

(** X8: the box does not depend on the order of the points: on two
    non-empty lists that are permutations of each other the returned boxes
    have equal sides. *)
Theorem rect_from_points_order_free (pts pts' : list Pt) (pad0 : Q) :
  pts <> [] -> Permutation pts pts' ->
  exists r r',
    rect_from_points pts pad0 = inr r
    /\ rect_from_points pts' pad0 = inr r'
    /\ rect_eq r r'.
Proof.
  intros Hne Hperm.
  assert (Hne' : pts' <> []).
  { intros ->. apply Permutation_sym, Permutation_nil in Hperm. contradiction. }
  destruct (box_within_of_incl pts pts' pad0 Hne)
    as (r & r' & E & E' & W).
  { intros p Hp. eapply Permutation_in; eassumption. }
  destruct (box_within_of_incl pts' pts pad0 Hne')
    as (r1' & r1 & E1' & E1 & W1).
  { intros p Hp. eapply Permutation_in; [apply Permutation_sym|]; eassumption. }
  rewrite E in E1. rewrite E' in E1'. injection E1 as <-. injection E1' as <-.
  exists r, r'. split; [exact E|]. split; [exact E'|].
  destruct r as [[[x1 y1] x2] y2], r' as [[[x1' y1'] x2'] y2'].
  cbn [rect_within rect_eq] in *. repeat split; lra.
Qed.

Lemma rect_from_points_order_free_witness :
  exists r r',
    rect_from_points [(0, 0); (1, 2); (3, -1)] 0.85 = inr r
    /\ rect_from_points [(3, -1); (0, 0); (1, 2)] 0.85 = inr r'
    /\ rect_eq r r'.
Proof.
  apply (rect_from_points_order_free [(0, 0); (1, 2); (3, -1)] [(3, -1); (0, 0); (1, 2)]).
  - discriminate.
  - apply Permutation_sym. apply (Permutation_cons_app [(0, 0); (1, 2)] []).
    apply Permutation_refl.
Defined.

(** * Further properties of the scene generator *)

(** ** Candidates written out *)

Ltac decide_Qltb :=
  repeat match goal with
         | |- context [Qltb ?x ?y] =>
           first
             [ replace (Qltb x y) with true by (symmetry; apply Qltb_lt; lra)
             | replace (Qltb x y) with false by (symmetry; apply Qltb_ge; lra) ];
           cbv iota
         end.

Lemma box4_horizontal (L lead cx cy : Q) :
  0 < L -> 0 < lead ->
  box4 ((cx - L / 2, cy), (cx + L / 2, cy),
        (cx - L / 2 - lead, cy), (cx + L / 2 + lead, cy))
  = (cx - L / 2 - lead - pad, cy - pad, cx + L / 2 + lead + pad, cy + pad).
Proof.
  intros HL Hl. unfold box4, rect_from_points, py_min, py_max.
  cbn [map fst snd fold_left].
  unfold Qdiv in *. change (/ 2) with (1 # 2) in *.
  decide_Qltb. reflexivity.
Qed.

Lemma box4_vertical (L lead cx cy : Q) :
  0 < L -> 0 < lead ->
  box4 ((cx, cy - L / 2), (cx, cy + L / 2),
        (cx, cy - L / 2 - lead), (cx, cy + L / 2 + lead))
  = (cx - pad, cy - L / 2 - lead - pad, cx + pad, cy + L / 2 + lead + pad).
Proof.
  intros HL Hl. unfold box4, rect_from_points, py_min, py_max.
  cbn [map fst snd fold_left].
  unfold Qdiv in *. change (/ 2) with (1 # 2) in *.
  decide_Qltb. reflexivity.
Qed.

(** Every candidate of [place_two_pin] is a horizontal or a vertical one,
    with its lengths from the two option lists and its centre in the range
    that was sampled for them. *)
Lemma two_pin_at_explicit (tape : nat -> N) (cur : nat) :
  exists L lead cx cy,
    In L [1.6; 1.8; 2.0; 2.2] /\ In lead [0.8; 1.0; 1.2]
    /\ ((two_pin_at tape cur = h_candidate L lead cx cy
         /\ vx1 + margin + (L / 2 + lead) <= cx
         /\ cx < vx2 - margin - (L / 2 + lead)
         /\ vy1 + margin <= cy /\ cy < vy2 - margin)
        \/ (two_pin_at tape cur = v_candidate L lead cx cy
            /\ vx1 + margin <= cx /\ cx < vx2 - margin
            /\ vy1 + margin + (L / 2 + lead) <= cy
            /\ cy < vy2 - margin - (L / 2 + lead))).
Proof.
  unfold two_pin_at.
  pose proof (pick_in (tape (1 + cur)%nat) 1.6 [1.8; 2.0; 2.2]) as HLin.
  pose proof (pick_in (tape (2 + cur)%nat) 0.8 [1.0; 1.2]) as Hlin.
  pose proof (pick_len_bounds (tape (1 + cur)%nat)) as [HL1 HL2].
  pose proof (pick_lead_bounds (tape (2 + cur)%nat)) as [Hl1 Hl2].
  pose proof (unit_of_bounds (tape (3 + cur)%nat)) as [Hu1 Hu1'].
  pose proof (unit_of_bounds (tape (4 + cur)%nat)) as [Hu2 Hu2'].
  set (L := pick (tape (1 + cur)%nat) 1.6 [1.8; 2.0; 2.2]) in *.
  set (lead := pick (tape (2 + cur)%nat) 0.8 [1.0; 1.2]) in *.
  set (u1 := unit_of (tape (3 + cur)%nat)) in *.
  set (u2 := unit_of (tape (4 + cur)%nat)) in *.
  clearbody L lead u1 u2.
  assert (HLpos : 0 < L) by lra. assert (Hlpos : 0 < lead) by lra.
  exists L, lead.
  destruct (pick_in (tape cur) "h"%string ["v"%string]) as [<-|[<-|[]]];
    unfold two_pin_geom; cbn [String.eqb Ascii.eqb Bool.eqb]; cbv zeta.
  - set (a := vx1 + margin + (L / 2 + lead)).
    set (b := vx2 - margin - (L / 2 + lead)).
    exists (a + (b - a) * u1), (vy1 + margin + (vy2 - margin - (vy1 + margin)) * u2).
    split; [exact HLin|]. split; [exact Hlin|]. left.
    rewrite box4_horizontal by assumption. split; [reflexivity|].
    assert (Hab : a < b).
    { subst a b. unfold vx1, vx2, margin, Qdiv. change (/ 2) with (1 # 2). lra. }
    assert (Hcd : vy1 + margin < vy2 - margin) by (unfold vy1, vy2, margin; lra).
    assert (0 <= (b - a) * u1) by (apply Qmult_le_0_compat; lra).
    assert (0 < (b - a) * (1 - u1)) by (apply Qmult_lt_0_compat; lra).
    assert (0 <= (vy2 - margin - (vy1 + margin)) * u2)
      by (apply Qmult_le_0_compat; lra).
    assert (0 < (vy2 - margin - (vy1 + margin)) * (1 - u2))
      by (apply Qmult_lt_0_compat; lra).
    repeat split; lra.
  - set (a := vy1 + margin + (L / 2 + lead)).
    set (b := vy2 - margin - (L / 2 + lead)).
    exists (vx1 + margin + (vx2 - margin - (vx1 + margin)) * u1), (a + (b - a) * u2).
    split; [exact HLin|]. split; [exact Hlin|]. right.
    rewrite box4_vertical by assumption. split; [reflexivity|].
    assert (Hab : a < b).
    { subst a b. unfold vy1, vy2, margin, Qdiv. change (/ 2) with (1 # 2). lra. }
    assert (Hcd : vx1 + margin < vx2 - margin) by (unfold vx1, vx2, margin; lra).
    assert (0 <= (b - a) * u2) by (apply Qmult_le_0_compat; lra).
    assert (0 < (b - a) * (1 - u2)) by (apply Qmult_lt_0_compat; lra).
    assert (0 <= (vx2 - margin - (vx1 + margin)) * u1)
      by (apply Qmult_le_0_compat; lra).
    assert (0 < (vx2 - margin - (vx1 + margin)) * (1 - u1))
      by (apply Qmult_lt_0_compat; lra).
    repeat split; lra.
Qed.

Lemma transformer_at_explicit (tape : nat -> N) (cur : nat) :
  exists x y,
    transformer_at tape cur = (x, y, (x - 2.2, y - 2.2, x + 2.2, y + 2.2))
    /\ vx1 + margin + 2.0 <= x /\ x < vx2 - margin - 2.0
    /\ vy1 + margin + 2.0 <= y /\ y < vy2 - margin - 2.0.
Proof.
  unfold transformer_at. cbv zeta.
  pose proof (unit_of_bounds (tape cur)) as [Hu1 Hu1'].
  pose proof (unit_of_bounds (tape (1 + cur)%nat)) as [Hu2 Hu2'].
  set (u1 := unit_of (tape cur)) in *.
  set (u2 := unit_of (tape (1 + cur)%nat)) in *. clearbody u1 u2.
  do 2 eexists. split; [reflexivity|].
  set (a := vx1 + margin + 2.0). set (b := vx2 - margin - 2.0).
  set (c := vy1 + margin + 2.0). set (d := vy2 - margin - 2.0).
  assert (Hab : a < b) by (subst a b; unfold vx1, vx2, margin; lra).
  assert (Hcd : c < d) by (subst c d; unfold vy1, vy2, margin; lra).
  assert (0 <= (b - a) * u1) by (apply Qmult_le_0_compat; lra).
  assert (0 < (b - a) * (1 - u1)) by (apply Qmult_lt_0_compat; lra).
  assert (0 <= (d - c) * u2) by (apply Qmult_le_0_compat; lra).
  assert (0 < (d - c) * (1 - u2)) by (apply Qmult_lt_0_compat; lra).
  repeat split; lra.
Qed.

(** ** The layout of a returned scene *)

Section Layout.

Variable tape : nat -> N.

Lemma bipoles_placed_items (specs : list (string * string * string * string))
    (s s' : SceneState) :
  bipoles_placed tape specs s s' ->
  exists items,
    Forall2 (placed_as tape)
      (filter (fun sp => negb (String.eqb (spec_cid sp) "T1")) specs) items
    /\ comps s' = comps s ++ map item_comp items
    /\ occupied s' = occupied s ++ map item_box items
    /\ cmds s' = cmds s ++ List.concat (map item_cmds items)
    /\ markers s' = markers s
    /\ (cursor s + 5 * List.length items <= cursor s')%nat
    /\ (cursor s' <= cursor s + 5 * attempt_budget * List.length items)%nat.
Proof.
  induction 1 as [s|ct el lab rest s s' _ IH|c0 ct el lab rest s s1 s' Hc Hp _ IH].
  - exists []. cbn. rewrite !app_nil_r. repeat split; try constructor; lia.
  - destruct IH as (items & H0 & H1 & H2 & H3 & H4 & H5 & H6).
    exists items. cbn [filter spec_cid fst String.eqb Ascii.eqb Bool.eqb negb].
    repeat split; assumption.
  - destruct IH as (items & H0 & H1 & H2 & H3 & H4 & H5 & H6).
    destruct Hp as (k & Hk & _ & _ & ->).
    set (cand := two_pin_at tape (5 * k + cursor s)) in *.
    exists ((two_pin_record c0 ct el lab cand, snd cand, two_pin_cmds el lab cand)
              :: items).
    cbn [filter spec_cid fst]. rewrite Hc. cbn [negb].
    cbn [comps occupied cmds markers cursor] in H1, H2, H3, H4, H5, H6.
    split; [|split; [|split; [|split; [|split; [|split]]]]].
    + constructor; [|exact H0]. exists (5 * k + cursor s)%nat. reflexivity.
    + rewrite H1, <- app_assoc. reflexivity.
    + rewrite H2, <- app_assoc. reflexivity.
    + rewrite H3, <- app_assoc. reflexivity.
    + exact H4.
    + cbn [List.length]. lia.
    + cbn [List.length]. remember (5 * attempt_budget)%nat as B eqn:EB.
      assert (5 * S k <= B)%nat by (subst B; lia).
      rewrite Nat.mul_succ_r. lia.
Qed.

(** In the scene generator the transformer meets an empty [occupied]
    list, so its first candidate is the one committed. *)
Lemma transformer_placed_first (c : nat) (s1 : SceneState) :
  transformer_placed tape (init_scene c) s1 ->
  exists x y,
    transformer_at tape c = (x, y, (x - 2.2, y - 2.2, x + 2.2, y + 2.2))
    /\ vx1 + margin + 2.0 <= x /\ x < vx2 - margin - 2.0
    /\ vy1 + margin + 2.0 <= y /\ y < vy2 - margin - 2.0
    /\ s1 = mkScene (3 + c)
              [transformer_record x y (pick (tape (2 + c)%nat) 0.9 [1.1; 1.3])]
              []
              (transformer_cmds x y (pick (tape (2 + c)%nat) 0.9 [1.1; 1.3]))
              [(x - 2.2, y - 2.2, x + 2.2, y + 2.2)].
Proof.
  intros (k & x & y & lead & Hk & Hrej & Hxy & Hlead & Hhit & ->).
  assert (k = 0)%nat as ->.
  { destruct k as [|k]; [reflexivity|].
    specialize (Hrej 0%nat ltac:(lia)). unfold transformer_rejected in Hrej.
    cbn in Hrej. discriminate Hrej. }
  cbn [Nat.mul Nat.add cursor init_scene comps markers cmds occupied app] in *.
  destruct (transformer_at_explicit tape c) as (x0 & y0 & E & R).
  rewrite E in Hxy |- *. cbn [fst snd] in *. injection Hxy as <- <-.
  exists x0, y0. split; [reflexivity|].
  destruct R as (R1 & R2 & R3 & R4). repeat split; try assumption.
  subst lead. reflexivity.
Qed.

Lemma scene_layout (c : nat) (line_w : Q) (s : SceneState) :
  scene_body tape (init_scene c) = Ok line_w s ->
  exists x y items jx jy cx cy,
    let lead := pick (tape (3 + c)%nat) 0.9 [1.1; 1.3] in
    transformer_at tape (S c) = (x, y, (x - 2.2, y - 2.2, x + 2.2, y + 2.2))
    /\ (vx1 + margin + 2.0 <= x /\ x < vx2 - margin - 2.0
        /\ vy1 + margin + 2.0 <= y /\ y < vy2 - margin - 2.0)
    /\ Forall2 (placed_as tape) bipole_specs items
    /\ comps s = transformer_record x y lead :: map item_comp items
    /\ occupied s = (x - 2.2, y - 2.2, x + 2.2, y + 2.2) :: map item_box items
    /\ cmds s = transformer_cmds x y lead ++ List.concat (map item_cmds items)
                ++ junction_cmds jx jy ++ wire_jump_cmds cx cy
    /\ markers s = [junction_marker jx jy; wire_jump_marker cx cy]
    /\ (vx1 + margin + 2.5 <= jx /\ jx <= vx2 - margin - 2.5
        /\ vy1 + margin + 2.5 <= jy /\ jy <= vy2 - margin - 2.5)
    /\ (vx1 + margin + 3.0 <= cx /\ cx <= vx2 - margin - 3.0
        /\ vy1 + margin + 3.0 <= cy /\ cy <= vy2 - margin - 3.0)
    /\ pairwise_clear (occupied s)
    /\ (c + 58 <= cursor s)%nat
    /\ (cursor s <= c + 8 + 5 * attempt_budget * 10)%nat
    /\ line_w = pick (tape c) 0.8 [1.0; 1.2].
Proof.
  intros H. apply scene_body_ok in H as (s1 & s2 & Ht & Hb & -> & Hlw).
  pose proof (bipoles_placed_inv tape _ _ _ Hb
                (transformer_placed_inv tape _ _ Ht (scene_inv_init (S c))))
    as (_ & Hclear & _).
  apply transformer_placed_first in Ht as (x & y & E & R1 & R2 & R3 & R4 & ->).
  apply bipoles_placed_items in Hb
    as (items & H0 & H1 & H2 & H3 & H4 & H5 & H6).
  fold bipole_specs in H0.
  assert (Hlen : List.length items = 10%nat).
  { apply Forall2_length in H0. rewrite <- H0. reflexivity. }
  cbn [comps occupied cmds markers cursor app] in H1, H2, H3, H4, H5, H6.
  rewrite Hlen in H5, H6.
  set (jx := uniform_at tape (vx1 + margin + 2.5) (vx2 - margin - 2.5) (cursor s2)).
  set (jy := uniform_at tape (vy1 + margin + 2.5) (vy2 - margin - 2.5) (1 + cursor s2)).
  set (cx := uniform_at tape (vx1 + margin + 3.0) (vx2 - margin - 3.0) (2 + cursor s2)).
  set (cy := uniform_at tape (vy1 + margin + 3.0) (vy2 - margin - 3.0)
               (1 + (2 + cursor s2))).
  exists x, y, items, jx, jy, cx, cy. cbv zeta.
  split; [exact E|]. split; [repeat split; assumption|]. split; [exact H0|].
  split; [exact H1|]. split; [exact H2|]. split.
  { cbn [wire_jump_state junction_state cmds cursor]. rewrite H3.
    rewrite <- !app_assoc. reflexivity. }
  split.
  { cbn [wire_jump_state junction_state markers]. rewrite H4. reflexivity. }
  split.
  { pose proof (uniform_at_bounds tape (vx1 + margin + 2.5) (vx2 - margin - 2.5)
                  (cursor s2)) as Hx.
    pose proof (uniform_at_bounds tape (vy1 + margin + 2.5) (vy2 - margin - 2.5)
                  (1 + cursor s2)) as Hy.
    fold jx in Hx. fold jy in Hy. clearbody jx jy.
    unfold vx1, vx2, vy1, vy2, margin in *.
    destruct Hx as [Hx1 Hx2]; [lra|]. destruct Hy as [Hy1 Hy2]; [lra|].
    repeat split; assumption. }
  split.
  { pose proof (uniform_at_bounds tape (vx1 + margin + 3.0) (vx2 - margin - 3.0)
                  (2 + cursor s2)) as Hx.
    pose proof (uniform_at_bounds tape (vy1 + margin + 3.0) (vy2 - margin - 3.0)
                  (1 + (2 + cursor s2))) as Hy.
    fold cx in Hx. fold cy in Hy. clearbody cx cy.
    unfold vx1, vx2, vy1, vy2, margin in *.
    destruct Hx as [Hx1 Hx2]; [lra|]. destruct Hy as [Hy1 Hy2]; [lra|].
    repeat split; assumption. }
  split; [exact Hclear|].
  cbn [wire_jump_state junction_state cursor].
  split; [lia|]. split; [lia|exact Hlw].
Qed.

End Layout.

(** ** Records of a returned scene *)

Section Records.

Variable tape : nat -> N.

Lemma placed_items_forall (R : ComponentGT -> Rect -> list Cmd -> Prop)
    (specs : list (string * string * string * string))
    (items : list (ComponentGT * Rect * list Cmd)) :
  Forall2 (placed_as tape) specs items ->
  (forall cid0 ctype0 element label cur,
      In (cid0, ctype0, element, label) specs ->
      R (two_pin_record cid0 ctype0 element label (two_pin_at tape cur))
        (snd (two_pin_at tape cur))
        (two_pin_cmds element label (two_pin_at tape cur))) ->
  Forall (fun it => R (item_comp it) (item_box it) (item_cmds it)) items.
Proof.
  induction 1 as [|sp it specs items Hp _ IH]; intros HR; [constructor|].
  constructor.
  - destruct sp as [[[cid0 ctype0] element] label].
    destruct Hp as (cur & ->). cbn [item_comp item_box item_cmds fst snd].
    apply HR. now left.
  - apply IH. intros cid0 ctype0 element label cur Hin. apply HR. now right.
Qed.

Lemma two_pin_record_straight (cid0 ctype0 element label : string) (cur : nat) :
  let c := two_pin_record cid0 ctype0 element label (two_pin_at tape cur) in
  straight_bipole c /\ p1 c <> p2 c.
Proof.
  cbv zeta.
  destruct (two_pin_at_explicit tape cur)
    as (L & lead & cx & cy & HL & Hl & [(-> & _)|(-> & _)]).
  - assert (HLpos : 0 < L) by (destruct HL as [<-|[<-|[<-|[<-|[]]]]]; reflexivity).
    assert (Hlpos : 0 < lead) by (destruct Hl as [<-|[<-|[<-|[]]]]; reflexivity).
    split.
    + exists lead, (cx - L / 2 - lead, cy), (cx + L / 2 + lead, cy).
      split; [exact Hl|].
      do 3 (split; [reflexivity|]). left.
      cbn [two_pin_record h_candidate orientation p1 p2 fst snd].
      do 4 (split; [reflexivity|]).
      unfold Qdiv. change (/ 2) with (1 # 2). repeat split; lra.
    + cbn [two_pin_record h_candidate p1 p2]. intros E.
      apply (f_equal fst) in E. cbn [fst] in E.
      assert (E' : cx - L / 2 == cx + L / 2) by (rewrite E; reflexivity).
      unfold Qdiv in E'. change (/ 2) with (1 # 2) in E'. lra.
  - assert (HLpos : 0 < L) by (destruct HL as [<-|[<-|[<-|[<-|[]]]]]; reflexivity).
    assert (Hlpos : 0 < lead) by (destruct Hl as [<-|[<-|[<-|[]]]]; reflexivity).
    split.
    + exists lead, (cx, cy - L / 2 - lead), (cx, cy + L / 2 + lead).
      split; [exact Hl|].
      do 3 (split; [reflexivity|]). right.
      cbn [two_pin_record v_candidate orientation p1 p2 fst snd].
      do 4 (split; [reflexivity|]).
      unfold Qdiv. change (/ 2) with (1 # 2). repeat split; lra.
    + cbn [two_pin_record v_candidate p1 p2]. intros E.
      apply (f_equal snd) in E. cbn [snd] in E.
      assert (E' : cy - L / 2 == cy + L / 2) by (rewrite E; reflexivity).
      unfold Qdiv in E'. change (/ 2) with (1 # 2) in E'. lra.
Qed.

Lemma two_pin_record_tags (cid0 ctype0 element label : string)
    (cand : string * Q * Pt * Pt * Pt * Pt * Rect) :
  record_tags (two_pin_record cid0 ctype0 element label cand)
  = spec_tags (cid0, ctype0, element, label).
Proof. destruct cand as [[[[[[ori lead] a] b] w1] w2] bb]. reflexivity. Qed.

Lemma placed_items_tags (specs : list (string * string * string * string))
    (items : list (ComponentGT * Rect * list Cmd)) :
  Forall2 (placed_as tape) specs items ->
  map record_tags (map item_comp items) = map spec_tags specs.
Proof.
  induction 1 as [|sp it specs items Hp _ IH]; [reflexivity|].
  cbn [map]. rewrite IH. f_equal.
  destruct sp as [[[cid0 ctype0] element] label]. destruct Hp as (cur & ->).
  cbn [item_comp fst]. apply two_pin_record_tags.
Qed.

End Records.

(** X9: in every returned scene each record after the transformer's is a
    straight piece along its orientation: anchors and lead endpoints share
    the other coordinate and come in the order first lead end, first
    anchor, second anchor, second lead end along the axis, so that the two
    anchors differ; the recorded [lead_len] is one of 0.8, 1.0, 1.2. *)
Theorem bipole_records_are_straight (tape : nat -> N) (c c' : nat) (sc : Scene) :
  generate_scene_with_leads tape c = Ok sc c' ->
  Forall (fun r => straight_bipole r /\ p1 r <> p2 r) (tl (scene_comps sc)).
Proof.
  intros H. apply generate_scene_ok in H as (lw & s & Hb & -> & _).
  apply scene_layout in Hb
    as (x & y & items & jx & jy & cx & cy & _ & _ & Hitems & Hc & _).
  unfold scene_comps. cbn [fst snd]. rewrite Hc. cbn [tl].
  apply Forall_map.
  apply (placed_items_forall tape
           (fun r _ _ => straight_bipole r /\ p1 r <> p2 r) _ _ Hitems).
  intros cid0 ctype0 element label cur _. apply two_pin_record_straight.
Qed.

Lemma bipole_records_are_straight_witness :
  generate_scene_with_leads layout_tape 0%nat = Ok layout_scene 58%nat
  /\ Forall (fun r => straight_bipole r /\ p1 r <> p2 r) (tl (scene_comps layout_scene)).
Proof.
  split; [vm_compute; reflexivity|].
  apply (bipole_records_are_straight layout_tape 0%nat 58%nat layout_scene).
  vm_compute. reflexivity.
Defined.

(** X10: in every returned scene the records carry the catalogue: the
    transformer first, with label [T1] and no element tag, then one record
    per other catalogue entry, in catalogue order, with that entry's
    identifier, type, element and label; no two records share an
    identifier. *)
Theorem records_follow_catalogue (tape : nat -> N) (c c' : nat) (sc : Scene) :
  generate_scene_with_leads tape c = Ok sc c' ->
  map record_tags (scene_comps sc)
  = ("T1"%string, "Transformer"%string, None, Some (VStr "T1"))
      :: map spec_tags bipole_specs
  /\ NoDup (map cid (scene_comps sc)).
Proof.
  intros H. apply generate_scene_ok in H as (lw & s & Hb & -> & _).
  apply scene_layout in Hb
    as (x & y & items & jx & jy & cx & cy & _ & _ & Hitems & Hc & _).
  unfold scene_comps. cbn [fst snd]. rewrite Hc.
  assert (Htags : map record_tags
                    (transformer_record x y (pick (tape (3 + c)%nat) 0.9 [1.1; 1.3])
                       :: map item_comp items)
                  = ("T1"%string, "Transformer"%string, None, Some (VStr "T1"))
                      :: map spec_tags bipole_specs).
  { cbn [map]. rewrite (placed_items_tags tape _ _ Hitems). reflexivity. }
  split; [exact Htags|].
  match goal with
  | |- NoDup (map cid ?l) =>
    assert (Hcid : map cid l
                   = map (fun t => fst (fst (fst t))) (map record_tags l))
      by (rewrite map_map; reflexivity)
  end.
  rewrite Hcid, Htags. cbv.
  repeat (constructor; [intros Hin; repeat (destruct Hin as [Hin|Hin]; [discriminate Hin|]);
                        exact Hin|]).
  constructor.
Qed.

Lemma records_follow_catalogue_witness :
  generate_scene_with_leads layout_tape 0%nat = Ok layout_scene 58%nat
  /\ map record_tags (scene_comps layout_scene)
     = ("T1"%string, "Transformer"%string, None, Some (VStr "T1"))
         :: map spec_tags bipole_specs
  /\ NoDup (map cid (scene_comps layout_scene)).
Proof.
  split; [vm_compute; reflexivity|].
  apply (records_follow_catalogue layout_tape 0%nat 58%nat layout_scene).
  vm_compute. reflexivity.
Defined.

(** ** Regions and drawn geometry of a returned scene *)

Lemma Forall2_map_same {A B C : Type} (R : B -> C -> Prop) (f : A -> B) (g : A -> C)
    (l : list A) :
  Forall (fun a => R (f a) (g a)) l -> Forall2 R (map f l) (map g l).
Proof. induction 1; cbn; constructor; assumption. Qed.

Lemma Forall_concat_map {A B : Type} (P : B -> Prop) (f : A -> list B) (l : list A) :
  Forall (fun a => Forall P (f a)) l -> Forall P (List.concat (map f l)).
Proof.
  induction 1 as [|a l Ha _ IH]; cbn; [constructor|].
  apply Forall_app. split; assumption.
Qed.

Ltac layout_arith :=
  unfold in_rect, in_canvas, well_formed, rect_within, view_bbox,
    vx1, vy1, vx2, vy2, margin, pad, Qdiv in *;
  change (/ 2) with (1 # 2) in *;
  cbn [fst snd] in *.

Lemma len_choice_bounds (L : Q) : In L [1.6; 1.8; 2.0; 2.2] -> 1.6 <= L /\ L <= 2.2.
Proof. intros [<-|[<-|[<-|[<-|[]]]]]; split; discriminate. Qed.

Lemma lead_choice_bounds (lead : Q) : In lead [0.8; 1.0; 1.2] -> 0.8 <= lead /\ lead <= 1.2.
Proof. intros [<-|[<-|[<-|[]]]]; split; discriminate. Qed.

Lemma two_pin_item_facts (tape : nat -> N) (cid0 ctype0 element label : string)
    (cur : nat) :
  let cand := two_pin_at tape cur in
  let r := two_pin_record cid0 ctype0 element label cand in
  region_holds r (snd cand)
  /\ Forall drawn_in_canvas (two_pin_cmds element label cand).
Proof.
  cbv zeta.
  destruct (two_pin_at_explicit tape cur)
    as (L & lead & cx & cy & HL & Hl & [(-> & B1 & B2 & B3 & B4)|(-> & B1 & B2 & B3 & B4)]);
    apply len_choice_bounds in HL as [HL1 HL2];
    apply lead_choice_bounds in Hl as [Hl1 Hl2];
    unfold region_holds, drawn_in_canvas, h_candidate, v_candidate,
      two_pin_record, two_pin_cmds, recorded_points;
    cbn [snd fst orientation p1 p2 attrs flat_map points_of_value app cmd_points].
  - split.
    + split; [layout_arith; split; lra|]. split.
      * repeat (apply Forall_cons; [layout_arith; repeat split; lra|]). apply Forall_nil.
      * layout_arith. repeat split; lra.
    + repeat (apply Forall_cons;
              [repeat (apply Forall_cons; [layout_arith; repeat split; lra|]);
               apply Forall_nil|]).
      apply Forall_nil.
  - split.
    + split; [layout_arith; split; lra|]. split.
      * repeat (apply Forall_cons; [layout_arith; repeat split; lra|]). apply Forall_nil.
      * layout_arith. repeat split; lra.
    + repeat (apply Forall_cons;
              [repeat (apply Forall_cons; [layout_arith; repeat split; lra|]);
               apply Forall_nil|]).
      apply Forall_nil.
Qed.

Lemma transformer_item_facts (x y lead : Q) :
  vx1 + margin + 2.0 <= x -> x < vx2 - margin - 2.0 ->
  vy1 + margin + 2.0 <= y -> y < vy2 - margin - 2.0 ->
  region_holds (transformer_record x y lead) (x - 2.2, y - 2.2, x + 2.2, y + 2.2)
  /\ Forall drawn_in_canvas (transformer_cmds x y lead).
Proof.
  intros B1 B2 B3 B4.
  unfold region_holds, drawn_in_canvas, transformer_record,
    transformer_cmds, recorded_points.
  cbn [orientation p1 p2 attrs flat_map points_of_value snd app cmd_points].
  split.
  - split; [layout_arith; split; lra|]. split.
    + repeat (apply Forall_cons; [layout_arith; repeat split; lra|]). apply Forall_nil.
    + layout_arith. repeat split; lra.
  - repeat (apply Forall_cons;
            [repeat (apply Forall_cons; [layout_arith; repeat split; lra|]);
             apply Forall_nil|]).
    apply Forall_nil.
Qed.

(** X11: in every returned scene two different occupied regions stay
    clear of each other as sets of points: any point of one and any point
    of the other are more than 0.15 apart along some axis, so no point lies
    in two regions. *)
Theorem regions_are_apart (tape : nat -> N) (c c' : nat) (sc : Scene) :
  generate_scene_with_leads tape c = Ok sc c' ->
  exists (line_w : Q) (s : SceneState),
    scene_body tape (init_scene c) = Ok line_w s
    /\ (forall i j a b p q, i <> j ->
          nth_error (occupied s) i = Some a -> nth_error (occupied s) j = Some b ->
          in_rect a p -> in_rect b q -> apart 0.15 p q)
    /\ (forall i j a b p, i <> j ->
          nth_error (occupied s) i = Some a -> nth_error (occupied s) j = Some b ->
          in_rect a p -> ~ in_rect b p).
Proof.
  intros H. apply generate_scene_ok in H as (lw & s & Hb & _ & _).
  exists lw, s. split; [exact Hb|].
  apply scene_layout in Hb
    as (x & y & items & jx & jy & cx & cy & _ & _ & _ & _ & _ & _ & _ & _ & _ & Hclear & _).
  assert (Hap : forall i j a b p q, i <> j ->
            nth_error (occupied s) i = Some a -> nth_error (occupied s) j = Some b ->
            in_rect a p -> in_rect b q -> apart 0.15 p q).
  { intros i j a b p q Hij Ha Hb' Hp Hq.
    pose proof (Hclear i j a b Hij Ha Hb') as Hno.
    destruct a as [[[ax1 ay1] ax2] ay2], b as [[[bx1 by1] bx2] by2].
    apply rects_overlap_false_iff in Hno.
    unfold in_rect, apart in *.
    destruct Hp as (P1 & P2 & P3 & P4), Hq as (Q1 & Q2 & Q3 & Q4).
    destruct Hno as [E|[E|[E|E]]];
      [left|right; left|right; right; left|right; right; right]; lra. }
  split; [exact Hap|].
  intros i j a b p Hij Ha Hb' Hp Hq.
  specialize (Hap i j a b p p Hij Ha Hb' Hp Hq).
  unfold apart in Hap. destruct Hap as [E|[E|[E|E]]]; lra.
Qed.

Lemma regions_are_apart_witness :
  generate_scene_with_leads layout_tape 0%nat = Ok layout_scene 58%nat
  /\ exists (line_w : Q) (s : SceneState),
       scene_body layout_tape (init_scene 0) = Ok line_w s
       /\ (forall i j a b p q, i <> j ->
             nth_error (occupied s) i = Some a -> nth_error (occupied s) j = Some b ->
             in_rect a p -> in_rect b q -> apart 0.15 p q)
       /\ (forall i j a b p, i <> j ->
             nth_error (occupied s) i = Some a -> nth_error (occupied s) j = Some b ->
             in_rect a p -> ~ in_rect b p).
Proof.
  split; [vm_compute; reflexivity|].
  apply (regions_are_apart layout_tape 0%nat 58%nat layout_scene).
  vm_compute. reflexivity.
Defined.

Lemma scene_regions_facts (tape : nat -> N) (c : nat) (line_w : Q) (s : SceneState) :
  scene_body tape (init_scene c) = Ok line_w s ->
  Forall2 region_holds (comps s) (occupied s).
Proof.
  intros Hb. apply scene_layout in Hb
    as (x & y & items & jx & jy & cx & cy & _ & (R1 & R2 & R3 & R4) & Hitems
        & Hc & Ho & _).
  rewrite Hc, Ho. constructor.
  - apply (transformer_item_facts x y (pick (tape (3 + c)%nat) 0.9 [1.1; 1.3])
             R1 R2 R3 R4).
  - apply Forall2_map_same.
    apply (placed_items_forall tape (fun r reg _ => region_holds r reg) _ _ Hitems).
    intros cid0 ctype0 element label cur _.
    apply (two_pin_item_facts tape cid0 ctype0 element label cur).
Qed.

(** X12: in every returned scene the region reserved for a record is a
    well-formed rectangle that contains every coordinate recorded for it
    and lies within the canvas. *)
Theorem regions_hold_their_records (tape : nat -> N) (c c' : nat) (sc : Scene) :
  generate_scene_with_leads tape c = Ok sc c' ->
  exists (line_w : Q) (s : SceneState),
    scene_body tape (init_scene c) = Ok line_w s
    /\ scene_comps sc = comps s
    /\ Forall2 region_holds (comps s) (occupied s).
Proof.
  intros H. apply generate_scene_ok in H as (lw & s & Hb & -> & _).
  exists lw, s. split; [exact Hb|]. split; [reflexivity|].
  apply (scene_regions_facts tape c lw s Hb).
Qed.

Lemma regions_hold_their_records_witness :
  generate_scene_with_leads layout_tape 0%nat = Ok layout_scene 58%nat
  /\ exists (line_w : Q) (s : SceneState),
       scene_body layout_tape (init_scene 0) = Ok line_w s
       /\ scene_comps layout_scene = comps s
       /\ Forall2 region_holds (comps s) (occupied s).
Proof.
  split; [vm_compute; reflexivity|].
  apply (regions_hold_their_records layout_tape 0%nat 58%nat layout_scene).
  vm_compute. reflexivity.
Defined.

(** X14: the body of every returned scene opens with the bounding-box
    path of the canvas, and every absolute coordinate of every later
    instruction (element anchors, lead and wire ends, the node centre, the
    dot, the ends and control points of the hump) lies within the
    canvas. *)
Theorem drawn_geometry_in_canvas (tape : nat -> N) (c c' : nat) (sc : Scene) :
  generate_scene_with_leads tape c = Ok sc c' ->
  exists rest,
    scene_body_cmds sc = BoundingBox (vx1, vy1) (vx2, vy2) :: rest
    /\ Forall drawn_in_canvas rest.
Proof.
  intros H. apply generate_scene_ok in H as (lw & s & Hb & -> & _).
  exists (cmds s). split; [reflexivity|].
  apply scene_layout in Hb
    as (x & y & items & jx & jy & cx & cy & _ & (R1 & R2 & R3 & R4) & Hitems
        & _ & _ & Hcmds & _ & (J1 & J2 & J3 & J4) & (W1 & W2 & W3 & W4) & _).
  rewrite Hcmds. repeat (apply Forall_app; split).
  - apply (transformer_item_facts x y _ R1 R2 R3 R4).
  - apply Forall_concat_map.
    apply (placed_items_forall tape (fun _ _ ds => Forall drawn_in_canvas ds) _ _ Hitems).
    intros cid0 ctype0 element label cur _.
    apply (two_pin_item_facts tape cid0 ctype0 element label cur).
  - unfold junction_cmds, drawn_in_canvas. cbn [cmd_points].
    repeat (apply Forall_cons;
            [repeat (apply Forall_cons; [layout_arith; repeat split; lra|]);
             apply Forall_nil|]).
    apply Forall_nil.
  - unfold wire_jump_cmds, drawn_in_canvas. cbn [cmd_points].
    repeat (apply Forall_cons;
            [repeat (apply Forall_cons; [layout_arith; repeat split; lra|]);
             apply Forall_nil|]).
    apply Forall_nil.
Qed.

Lemma drawn_geometry_in_canvas_witness :
  generate_scene_with_leads layout_tape 0%nat = Ok layout_scene 58%nat
  /\ exists rest,
       scene_body_cmds layout_scene = BoundingBox (vx1, vy1) (vx2, vy2) :: rest
       /\ Forall drawn_in_canvas rest.
Proof.
  split; [vm_compute; reflexivity|].
  apply (drawn_geometry_in_canvas layout_tape 0%nat 58%nat layout_scene).
  vm_compute. reflexivity.
Defined.

(** ** Motifs, drawing and records *)

Lemma filter_concat_nil {A B : Type} (f : B -> bool) (g : A -> list B) (l : list A) :
  Forall (fun a => filter f (g a) = []) l -> filter f (List.concat (map g l)) = [].
Proof.
  induction 1 as [|a l Ha _ IH]; [reflexivity|].
  cbn [map List.concat]. rewrite filter_app, Ha, IH. reflexivity.
Qed.

Lemma two_pin_cmds_no_dot (element label : string)
    (cand : string * Q * Pt * Pt * Pt * Pt * Rect) :
  filter is_dot (two_pin_cmds element label cand) = [].
Proof. destruct cand as [[[[[[ori lead] a] b] w1] w2] bb]. reflexivity. Qed.

(** X15: in every returned scene the junction marker records
    [min_degree = 3]; the body holds, in a row, three segments that end at
    the marker's centre (from the left, to the right, upwards) and the dot
    at that centre; and this dot is the only filled circle of the body. *)
Theorem junction_is_three_wires_and_a_dot (tape : nat -> N) (c c' : nat) (sc : Scene) :
  generate_scene_with_leads tape c = Ok sc c' ->
  exists jx jy pre post,
    filter (has_mtype "junction") (scene_markers sc) = [junction_marker jx jy]
    /\ lookup "min_degree" (mattrs (junction_marker jx jy)) = Some (VInt 3)
    /\ scene_body_cmds sc
       = pre ++ [DrawLine (jx - 2.0, jy) (jx, jy);
                 DrawLine (jx, jy) (jx + 2.0, jy);
                 DrawLine (jx, jy) (jx, jy + 2.0);
                 FillCircle (jx, jy) 1.7] ++ post
    /\ filter is_dot (scene_body_cmds sc) = [FillCircle (jx, jy) 1.7].
Proof.
  intros H. apply generate_scene_ok in H as (lw & s & Hb & -> & _).
  apply scene_layout in Hb
    as (x & y & items & jx & jy & cx & cy & _ & _ & Hitems & _ & _ & Hcmds & Hm & _).
  exists jx, jy,
    (BoundingBox (vx1, vy1) (vx2, vy2)
       :: transformer_cmds x y (pick (tape (3 + c)%nat) 0.9 [1.1; 1.3])
       ++ List.concat (map item_cmds items)),
    (wire_jump_cmds cx cy).
  unfold scene_markers, scene_body_cmds. cbn [fst snd]. rewrite Hm, Hcmds.
  split; [reflexivity|]. split; [reflexivity|]. split.
  - cbn [app]. rewrite <- app_assoc. reflexivity.
  - cbn [filter is_dot]. rewrite !filter_app.
    rewrite (filter_concat_nil is_dot item_cmds items).
    + reflexivity.
    + apply (placed_items_forall tape (fun _ _ ds => filter is_dot ds = []) _ _ Hitems).
      intros cid0 ctype0 element label cur _. apply two_pin_cmds_no_dot.
Qed.

Lemma junction_is_three_wires_and_a_dot_witness :
  generate_scene_with_leads layout_tape 0%nat = Ok layout_scene 58%nat
  /\ exists jx jy pre post,
       filter (has_mtype "junction") (scene_markers layout_scene)
       = [junction_marker jx jy]
       /\ lookup "min_degree" (mattrs (junction_marker jx jy)) = Some (VInt 3)
       /\ scene_body_cmds layout_scene
          = pre ++ [DrawLine (jx - 2.0, jy) (jx, jy);
                    DrawLine (jx, jy) (jx + 2.0, jy);
                    DrawLine (jx, jy) (jx, jy + 2.0);
                    FillCircle (jx, jy) 1.7] ++ post
       /\ filter is_dot (scene_body_cmds layout_scene) = [FillCircle (jx, jy) 1.7].
Proof.
  split; [vm_compute; reflexivity|].
  apply (junction_is_three_wires_and_a_dot layout_tape 0%nat 58%nat layout_scene).
  vm_compute. reflexivity.
Defined.

Lemma two_pin_item_drawn (tape : nat -> N) (cid0 ctype0 element label : string)
    (cur : nat) :
  bipole_drawn (two_pin_cmds element label (two_pin_at tape cur))
    (two_pin_record cid0 ctype0 element label (two_pin_at tape cur)).
Proof.
  destruct (two_pin_at tape cur) as [[[[[[ori lead] a] b] w1] w2] bb].
  exists element, label, w1, w2.
  do 4 (split; [reflexivity|]).
  cbn [two_pin_cmds two_pin_record p1 p2]. cbn [In].
  split; [left; reflexivity|]. split; [right; left; reflexivity|].
  right; right; left; reflexivity.
Qed.

Lemma bipole_drawn_incl (body body' : list Cmd) (r : ComponentGT) :
  incl body body' -> bipole_drawn body r -> bipole_drawn body' r.
Proof.
  intros Hincl (el & lab & w1 & w2 & H1 & H2 & H3 & H4 & H5 & H6 & H7).
  exists el, lab, w1, w2. repeat split; auto.
Qed.

(** X16: the drawing of every returned scene agrees with its records: the
    body has 44 instructions under one of the three line widths; it draws
    the transformer's node at the centre that the record's anchors are
    offsets of, with four leads of the recorded length; and for every other
    record it draws the element between the record's anchors, tagged with
    the record's element and label, and the two leads out to the recorded
    lead endpoints. *)
Theorem drawing_agrees_with_records (tape : nat -> N) (c c' : nat) (sc : Scene) :
  generate_scene_with_leads tape c = Ok sc c' ->
  In (fst (fst (fst sc))) [0.8; 1.0; 1.2]
  /\ List.length (scene_body_cmds sc) = 44%nat
  /\ (exists t, hd_error (scene_comps sc) = Some t
                /\ transformer_drawn (scene_body_cmds sc) t)
  /\ Forall (bipole_drawn (scene_body_cmds sc)) (tl (scene_comps sc)).
Proof.
  intros H. apply generate_scene_ok in H as (lw & s & Hb & -> & _).
  apply scene_layout in Hb
    as (x & y & items & jx & jy & cx & cy & _ & _ & Hitems & Hc & _ & Hcmds & _
        & _ & _ & _ & _ & _ & Hlw).
  unfold scene_comps, scene_body_cmds. cbn [fst snd]. rewrite Hc, Hcmds.
  assert (Hlen : List.length items = 10%nat).
  { apply Forall2_length in Hitems. rewrite <- Hitems. reflexivity. }
  pose proof (placed_items_forall tape
                (fun r _ ds => bipole_drawn ds r /\ List.length ds = 3%nat)
                _ _ Hitems) as Hdr.
  assert (Hall : Forall (fun it => bipole_drawn (item_cmds it) (item_comp it)
                                   /\ List.length (item_cmds it) = 3%nat) items).
  { apply Hdr. intros cid0 ctype0 element label cur _.
    split; [apply two_pin_item_drawn|].
    destruct (two_pin_at tape cur) as [[[[[[ori lead] a] b] w1] w2] bb]. reflexivity. }
  split; [rewrite Hlw; apply pick_in|]. split; [|split].
  - cbn [List.length]. rewrite !length_app. cbn [List.length transformer_cmds].
    assert (Hcat : List.length (List.concat (map item_cmds items))
                   = (3 * List.length items)%nat).
    { clear - Hall. induction Hall as [|it items [_ H3] _ IH]; [reflexivity|].
      cbn [map List.concat List.length]. rewrite length_app, H3, IH. lia. }
    rewrite Hcat, Hlen. reflexivity.
  - eexists. split; [reflexivity|].
    exists x, y, (pick (tape (3 + c)%nat) 0.9 [1.1; 1.3]).
    split; [reflexivity|]. split; [reflexivity|]. split; [reflexivity|].
    split; [apply pick_in|].
    unfold transformer_cmds. cbn [app In]. repeat split; auto 10.
  - cbn [tl]. apply Forall_map. rewrite Forall_forall in Hall |- *.
    intros it Hin. destruct (Hall it Hin) as [Hd _].
    eapply bipole_drawn_incl; [|exact Hd].
    intros d Hd'. right. apply in_or_app. right. apply in_or_app. left.
    apply in_concat. exists (item_cmds it). split; [|exact Hd'].
    apply in_map. exact Hin.
Qed.

Lemma drawing_agrees_with_records_witness :
  generate_scene_with_leads layout_tape 0%nat = Ok layout_scene 58%nat
  /\ In (fst (fst (fst layout_scene))) [0.8; 1.0; 1.2]
  /\ List.length (scene_body_cmds layout_scene) = 44%nat
  /\ (exists t, hd_error (scene_comps layout_scene) = Some t
                /\ transformer_drawn (scene_body_cmds layout_scene) t)
  /\ Forall (bipole_drawn (scene_body_cmds layout_scene)) (tl (scene_comps layout_scene)).
Proof.
  split; [vm_compute; reflexivity|].
  apply (drawing_agrees_with_records layout_tape 0%nat 58%nat layout_scene).
  vm_compute. reflexivity.
Defined.

(** ** Which failures can happen, and how many draws a scene takes *)

Section Failures.

Variable tape : nat -> N.

Lemma two_pin_placed_cursor (cid0 ctype0 element label : string) (s s' : SceneState) :
  two_pin_placed tape cid0 ctype0 element label s s' ->
  (cursor s + 5 <= cursor s')%nat /\ (cursor s' <= cursor s + 5 * attempt_budget)%nat.
Proof.
  intros (k & Hk & _ & _ & ->). cbn [cursor]. lia.
Qed.

(** When the catalogue loop raises, one of the entries it places (never the
    skipped ["T1"]) has used up its attempts. *)
Lemma place_bipoles_raise_full (specs : list (string * string * string * string)) :
  forall s s' e,
    place_bipoles tape specs s = Raise e s' ->
    (exists cid0,
        In cid0 (map spec_cid
                   (filter (fun sp => negb (String.eqb (spec_cid sp) "T1")) specs))
        /\ e = two_pin_error cid0)
    /\ (cursor s + 5 * attempt_budget <= cursor s')%nat
    /\ (cursor s'
        <= cursor s + 5 * attempt_budget
                      * List.length
                          (filter (fun sp => negb (String.eqb (spec_cid sp) "T1")) specs))%nat.
Proof.
  induction specs as [|[[[cid0 ctype0] element] label] rest IH]; intros s s' e H.
  - discriminate H.
  - cbn [place_bipoles] in H. unfold bind at 1 in H.
    cbn [filter spec_cid fst].
    destruct (String.eqb cid0 "T1") eqn:Ecid; cbn [negb].
    + cbn in H. apply IH, H.
    + remember (5 * attempt_budget)%nat as B eqn:EB.
      destruct (place_two_pin_outcome tape cid0 ctype0 element label s)
        as [(s1 & E1 & Hp)|[_ E1]]; rewrite E1 in H.
      * destruct (IH _ _ _ H) as ((c1 & Hin & He) & C1 & C2).
        apply two_pin_placed_cursor in Hp as [P1 P2]. rewrite <- EB in P2.
        split; [exists c1; split; [right; exact Hin|exact He]|].
        cbn [List.length]. rewrite (Nat.mul_succ_r B). split; lia.
      * pose proof (f_equal raised H) as He. pose proof (f_equal outcome_state H) as Hs.
        cbn [raised outcome_state] in He, Hs. injection He as <-. subst s'.
        split; [exists cid0; split; [now left|reflexivity]|].
        cbn [cursor set_cursor List.length]. rewrite <- EB.
        rewrite (Nat.mul_succ_r B). split; lia.
Qed.

Lemma place_transformer_on_empty (c : nat) :
  exists s1,
    place_transformer_node tape (init_scene c) = Ok tt s1
    /\ transformer_placed tape (init_scene c) s1.
Proof.
  destruct (place_transformer_outcome tape (init_scene c)) as [H|[Hrej _]];
    [exact H|].
  assert (H0 : (0 < attempt_budget)%nat) by (unfold attempt_budget; apply Nat.lt_0_succ).
  specialize (Hrej 0%nat H0). unfold transformer_rejected in Hrej.
  cbn in Hrej. discriminate Hrej.
Qed.

Lemma scene_body_raise_full (c : nat) (e : Exn) (s : SceneState) :
  scene_body tape (init_scene c) = Raise e s ->
  (exists cid0, In cid0 (map spec_cid bipole_specs) /\ e = two_pin_error cid0)
  /\ (c + 4 + 5 * attempt_budget <= cursor s)%nat
  /\ (cursor s <= c + 4 + 5 * attempt_budget * 10)%nat.
Proof.
  unfold scene_body. unfold bind at 1.
  change (random_choice tape 0.8 [1.0; 1.2] (init_scene c))
    with (Ok (S:=SceneState) (pick (tape c) 0.8 [1.0; 1.2]) (init_scene (S c))).
  cbv beta iota. unfold bind at 1.
  destruct (place_transformer_on_empty (S c)) as (s1 & E1 & Hp). rewrite E1.
  apply transformer_placed_first in Hp as (x & y & _ & _ & _ & _ & _ & ->).
  unfold bind at 1.
  destruct (place_bipoles tape component_specs _) as [[] s2|e2 s2] eqn:E2.
  - unfold bind at 1. rewrite place_junction_run.
    unfold bind at 1. rewrite place_wire_jump_run. discriminate.
  - intros H. injection H as <- <-.
    apply place_bipoles_raise_full in E2 as (Hcid & C1 & C2).
    fold bipole_specs in Hcid, C2.
    change (List.length bipole_specs) with 10%nat in C2.
    cbn [cursor] in C1, C2. split; [exact Hcid|]. split; lia.
Qed.

End Failures.

(** X17: the transformer never fails inside the scene generator: meeting
    an empty [occupied] list, its first candidate, read from the second and
    third draw of the call, is committed, and its lead length is the fourth
    draw.  An exception of the generator is therefore always the placement
    failure of one of the ten two-terminal catalogue entries. *)
Theorem scene_failures_are_bipoles (tape : nat -> N) (c : nat) :
  match generate_scene_with_leads tape c with
  | Ok sc _ =>
    exists x y rest,
      fst (transformer_at tape (S c)) = (x, y)
      /\ scene_comps sc
         = transformer_record x y (pick (tape (3 + c)%nat) 0.9 [1.1; 1.3]) :: rest
  | Raise e _ =>
    e <> transformer_error
    /\ exists cid0, In cid0 (map spec_cid bipole_specs) /\ e = two_pin_error cid0
  end.
Proof.
  destruct (generate_scene_with_leads tape c) as [sc c'|e c'] eqn:H.
  - apply generate_scene_ok in H as (lw & s & Hb & -> & _).
    apply scene_layout in Hb
      as (x & y & items & jx & jy & cx & cy & E & _ & _ & Hc & _).
    exists x, y, (map item_comp items). rewrite E. split; [reflexivity|exact Hc].
  - unfold generate_scene_with_leads in H.
    destruct (scene_body tape (init_scene c)) as [lw s|e0 s] eqn:Hb; [discriminate H|].
    injection H as <- _.
    apply scene_body_raise_full in Hb as ((cid0 & Hin & ->) & _).
    split; [|exists cid0; split; [exact Hin|reflexivity]].
    cbv in Hin. repeat (destruct Hin as [<-|Hin]; [discriminate|]). destruct Hin.
Qed.

(** X18: one call of the scene generator reads a bounded number of draws:
    at least 58 and at most 8 + 10 * 5 * 4000 when it returns, and between
    4 + 5 * 4000 and 4 + 10 * 5 * 4000 when it raises. *)
Theorem scene_draws_are_bounded (tape : nat -> N) (c : nat) :
  attempt_budget = 4000%nat
  /\ match generate_scene_with_leads tape c with
     | Ok _ c' =>
       (c + 58 <= c')%nat /\ (c' <= c + 8 + 5 * attempt_budget * 10)%nat
     | Raise _ c' =>
       (c + 4 + 5 * attempt_budget <= c')%nat
       /\ (c' <= c + 4 + 5 * attempt_budget * 10)%nat
     end.
Proof.
  split; [reflexivity|].
  destruct (generate_scene_with_leads tape c) as [sc c'|e c'] eqn:H.
  - apply generate_scene_ok in H as (lw & s & Hb & _ & ->).
    apply scene_layout in Hb
      as (x & y & items & jx & jy & cx & cy & _ & _ & _ & _ & _ & _ & _ & _ & _ & _
          & C1 & C2 & _).
    split; assumption.
  - unfold generate_scene_with_leads in H.
    destruct (scene_body tape (init_scene c)) as [lw s|e0 s] eqn:Hb; [discriminate H|].
    injection H as _ <-.
    apply scene_body_raise_full in Hb as (_ & C1 & C2). split; assumption.
Qed.

(** * Further properties of [generate_one] and [main] *)

Section Samples.

Variable tape : nat -> N.
Variables pdflatex_run pdftoppm_run : string -> ToolRun.

Lemma retry_scene_returned (c c' : nat) (sc : Scene) :
  retry_scene tape retry_budget None c = Ok sc c' ->
  exists c0, generate_scene_with_leads tape c0 = Ok sc c'.
Proof.
  intros H.
  destruct (retry_scene_budget tape c)
    as [(k & sc1 & c1 & _ & _ & (lw & s & Hb & -> & ->) & Heq)|(e & _ & _ & Heq)];
    rewrite Heq in H; [|discriminate H].
  injection H as <- <-. exists (attempt_cursor tape k c).
  unfold generate_scene_with_leads. rewrite Hb. reflexivity.
Qed.



Lemma ground_truth_exports_snoc (c : nat) (fs gs : list (string * FileData)) (w : World) :
  w_files w = fs ->
  ground_truth_exports (mkWorld c (fs ++ gs))
  = ground_truth_exports w ++ ground_truth_exports (mkWorld c gs).
Proof.
  intros <-. unfold ground_truth_exports. cbn [w_files]. apply flat_map_app.
Qed.

(** One sample either adds its export, made from a scene that the scene
    generator returned, or raises and adds none. *)
Lemma generate_one_cases (idx : nat) (w : World) :
  (exists sc c0 c' w1,
      generate_scene_with_leads tape c0 = Ok sc c'
      /\ generate_one tape pdflatex_run pdftoppm_run idx w = Ok tt w1
      /\ ground_truth_exports w1
         = ground_truth_exports w ++ [(sample_path idx ".json", sample_export idx sc)])
  \/ (exists e w1,
         generate_one tape pdflatex_run pdftoppm_run idx w = Raise e w1
         /\ ground_truth_exports w1 = ground_truth_exports w).
Proof.
  rewrite generate_one_run.
  destruct (retry_scene tape retry_budget None (w_cursor w)) as [sc c'|e c'] eqn:Hr.
  - destruct (retry_scene_returned _ _ _ Hr) as (c0 & Hg).
    destruct (pdflatex_run _) as [e1|[|]];
      [|destruct (pdftoppm_run _) as [e2|[|]]|];
      try (right; do 2 eexists; split; [reflexivity|];
           rewrite (ground_truth_exports_snoc c' (w_files w) _ w eq_refl);
           cbn; apply app_nil_r).
    left. exists sc, c0, c'. eexists. split; [exact Hg|]. split; [reflexivity|].
    rewrite (ground_truth_exports_snoc c' (w_files w) _ w eq_refl). reflexivity.
  - right. do 2 eexists. split; [reflexivity|].
    destruct w as [c0 fs]. reflexivity.
Qed.

Lemma exports_from_cons (i : nat) (sc : Scene) (scs : list Scene) :
  exports_from i (sc :: scs)
  = (sample_path i ".json", sample_export i sc) :: exports_from (S i) scs.
Proof. reflexivity. Qed.

(** A run of [main_loop] exports the samples [i], [i+1], ... one after the
    other, each from a returned scene, and stops at the first sample that
    raises. *)
Lemma main_loop_exports (n : nat) :
  forall (i : nat) (w : World),
  exists scs : list Scene,
    (List.length scs <= n)%nat
    /\ ground_truth_exports
         (final_world (main_loop tape pdflatex_run pdftoppm_run n i w))
       = ground_truth_exports w ++ exports_from i scs
    /\ Forall (fun sc => exists c0 c', generate_scene_with_leads tape c0 = Ok sc c') scs
    /\ (List.length scs = n
        <-> exists w', main_loop tape pdflatex_run pdftoppm_run n i w
                       = Ok tt w').
Proof.
  induction n as [|n IH]; intros i w.
  - exists []. cbn. rewrite app_nil_r. repeat split; try constructor.
    now exists w.
  - cbn [main_loop]. unfold bind.
    destruct (generate_one_cases i w)
      as [(sc & c0 & c' & w1 & Hg & -> & Hx)|(e & w1 & -> & Hx)]; cbv beta iota.
    + destruct (IH (S i) w1) as (scs & Hlen & Hex & Hall & Hiff).
      exists (sc :: scs). split; [cbn; lia|]. split; [|split].
      * rewrite Hex, Hx, exports_from_cons, <- app_assoc. reflexivity.
      * constructor; [exists c0, c'; exact Hg|exact Hall].
      * cbn [List.length]. rewrite <- Hiff. split; intros; lia.
    + exists []. split; [cbn; lia|]. cbn [final_world exports_from].
      split; [rewrite Hx; cbn; now rewrite app_nil_r|]. split; [constructor|].
      cbn. split; [discriminate|]. intros (w' & Hw'). discriminate Hw'.
Qed.

End Samples.



(** ** Sample names *)

Lemma append_inv_head (p s1 s2 : string) :
  (p ++ s1)%string = (p ++ s2)%string -> s1 = s2.
Proof.
  induction p as [|a p IH]; cbn; [trivial|].
  intros H. injection H as H. apply IH, H.
Qed.

Lemma length_append (s t : string) :
  String.length (s ++ t) = (String.length s + String.length t)%nat.
Proof. induction s as [|a s IH]; cbn; [reflexivity|]. now rewrite IH. Qed.

Lemma append_inv_tail (s1 s2 t : string) :
  (s1 ++ t)%string = (s2 ++ t)%string -> s1 = s2.
Proof.
  revert s2. induction s1 as [|a s1 IH]; intros [|b s2] H.
  - reflexivity.
  - apply (f_equal String.length) in H. cbn in H. rewrite length_append in H. lia.
  - apply (f_equal String.length) in H. cbn in H. rewrite length_append in H. lia.
  - cbn in H. injection H as -> H. f_equal. apply IH, H.
Qed.

Lemma to_uint_nonnil (n : nat) : Nat.to_uint n <> Decimal.Nil.
Proof.
  pose proof (DecimalNat.Unsigned.to_of (Nat.to_uint n)) as H.
  rewrite DecimalNat.Unsigned.of_to in H. rewrite H.
  apply DecimalFacts.unorm_nonnil.
Qed.

Lemma digits_of_index (n : nat) :
  NilZero.string_of_uint (Nat.to_uint n) = NilEmpty.string_of_uint (Nat.to_uint n)
  /\ NilEmpty.uint_of_string (NilZero.string_of_uint (Nat.to_uint n))
     = Some (Nat.to_uint n)
  /\ NilZero.string_of_uint (Nat.to_uint n) <> EmptyString.
Proof.
  pose proof (to_uint_nonnil n) as Hne.
  destruct (Nat.to_uint n) as [|d|d|d|d|d|d|d|d|d|d] eqn:E; [contradiction| ..];
    (split; [reflexivity|]; split; [apply NilEmpty.usu|discriminate]).
Qed.

Lemma parse_zero_padded (k : nat) (s : string) (d : Decimal.uint) :
  NilEmpty.uint_of_string s = Some d ->
  NilEmpty.uint_of_string (string_of_list_ascii (repeat "0"%char k) ++ s)
  = Some (Nat.iter k Decimal.D0 d).
Proof.
  intros H. induction k as [|k IH]; [exact H|].
  cbn [repeat string_of_list_ascii append NilEmpty.uint_of_string Nat.iter nat_rect].
  rewrite IH. reflexivity.
Qed.

Lemma of_uint_zero_padded (k : nat) (d : Decimal.uint) :
  Nat.of_uint (Nat.iter k Decimal.D0 d) = Nat.of_uint d.
Proof. induction k as [|k IH]; [reflexivity|]. cbn [Nat.iter nat_rect]. exact IH. Qed.

Lemma fmt_05d_parses (n : nat) : parse_index (fmt_05d n) = Some n.
Proof.
  unfold parse_index, fmt_05d.
  destruct (digits_of_index n) as (_ & Hparse & Hne).
  set (digits := NilZero.string_of_uint (Nat.to_uint n)) in *.
  cbv zeta.
  assert (Hnz : forall s, s <> EmptyString ->
                          NilZero.uint_of_string s = NilEmpty.uint_of_string s)
    by (intros [|a s] Hs; [contradiction|reflexivity]).
  rewrite Hnz.
  - rewrite (parse_zero_padded _ _ _ Hparse). cbn [option_map].
    rewrite of_uint_zero_padded, DecimalNat.Unsigned.of_to. reflexivity.
  - intros Hemp. apply (f_equal String.length) in Hemp.
    rewrite length_append in Hemp. cbn [String.length] in Hemp.
    destruct digits; [contradiction|]. cbn in Hemp. lia.
Qed.

Lemma sample_path_inj (i j : nat) (ext : string) :
  sample_path i ext = sample_path j ext -> i = j.
Proof.
  unfold sample_path. intros H.
  apply append_inv_head in H. apply append_inv_head in H.
  apply append_inv_tail in H. apply append_inv_head in H.
  apply (f_equal parse_index) in H. rewrite !fmt_05d_parses in H.
  now injection H.
Qed.

(** X21: the zero-padded sample number can be read back: parsing
    [fmt_05d n] as a decimal number gives [n]; the text is five characters
    long, or as long as the number's decimal numeral when that is longer. *)
Theorem fmt_05d_round_trip (n : nat) :
  parse_index (fmt_05d n) = Some n
  /\ String.length (fmt_05d n)
     = Nat.max 5 (String.length (NilZero.string_of_uint (Nat.to_uint n))).
Proof.
  split; [apply fmt_05d_parses|].
  unfold fmt_05d. cbv zeta. rewrite length_append.
  assert (Hrep : forall k, String.length (string_of_list_ascii (repeat "0"%char k)) = k).
  { induction k as [|k IH]; [reflexivity|]. cbn. now rewrite IH. }
  rewrite Hrep. lia.
Qed.

(** X22: different sample numbers give different file names, for every
    extension: no sample overwrites the files of another. *)
Theorem sample_paths_are_distinct (i j : nat) (ext : string) :
  i <> j -> sample_path i ext <> sample_path j ext.
Proof. intros Hij H. apply Hij. eapply sample_path_inj, H. Qed.

Lemma sample_paths_are_distinct_witness :
  7%nat <> 70%nat /\ sample_path 7 ".json" <> sample_path 70 ".json".
Proof.
  assert (H : 7%nat <> 70%nat) by discriminate.
  split; [exact H|]. exact (sample_paths_are_distinct 7 70 ".json" H).
Defined.

(** ** Whole runs *)

Lemma exports_from_paths (i : nat) (scs : list Scene) :
  map fst (exports_from i scs)
  = map (fun j => sample_path j ".json") (seq i (List.length scs)).
Proof.
  revert i. induction scs as [|sc scs IH]; intros i; [reflexivity|].
  rewrite exports_from_cons. cbn [map fst List.length seq]. now rewrite IH.
Qed.

Lemma exports_from_forall (P : string * Export -> Prop) (i : nat) (scs : list Scene) :
  (forall j sc, In sc scs -> P (sample_path j ".json", sample_export j sc)) ->
  Forall P (exports_from i scs).
Proof.
  revert i. induction scs as [|sc scs IH]; intros i HP; [constructor|].
  rewrite exports_from_cons. constructor.
  - apply HP. now left.
  - apply IH. intros j sc' Hin. apply HP. now right.
Qed.

Section Runs.

Variable tape : nat -> N.
Variables pdflatex_run pdftoppm_run : string -> ToolRun.

Lemma run_exports (n : nat) :
  exists scs : list Scene,
    (List.length scs <= n)%nat
    /\ ground_truth_exports
         (final_world (run tape pdflatex_run pdftoppm_run n))
       = exports_from 0 scs
    /\ Forall (fun sc => exists c0 c', generate_scene_with_leads tape c0 = Ok sc c') scs
    /\ (List.length scs = n
        <-> exists w', run tape pdflatex_run pdftoppm_run n = Ok tt w').
Proof.
  unfold run, main.
  destruct (main_loop_exports tape pdflatex_run pdftoppm_run n 0 (mkWorld 0 []))
    as (scs & H1 & H2 & H3 & H4).
  exists scs. repeat split; try assumption; apply H4.
Qed.

End Runs.

(** X23: the ground-truth files of a run are those of the samples 0, 1,
    ..., k-1, in this order and with no path twice, for some [k] not above
    the requested count; [k] is the requested count exactly when the run
    returns, a run that raises having stopped at its first failing
    sample. *)
Theorem run_exports_in_index_order (tape : nat -> N)
    (pdflatex_run pdftoppm_run : string -> ToolRun) (n : nat) :
  exists k,
    (k <= n)%nat
    /\ map fst (ground_truth_exports
                  (final_world (run tape pdflatex_run pdftoppm_run n)))
       = map (fun j => sample_path j ".json") (seq 0 k)
    /\ NoDup (map fst (ground_truth_exports
                         (final_world (run tape pdflatex_run pdftoppm_run n))))
    /\ (k = n <-> exists w', run tape pdflatex_run pdftoppm_run n = Ok tt w').
Proof.
  destruct (run_exports tape pdflatex_run pdftoppm_run n)
    as (scs & Hlen & Hex & _ & Hiff).
  exists (List.length scs). rewrite Hex, exports_from_paths.
  split; [exact Hlen|]. split; [reflexivity|]. split; [|exact Hiff].
  apply Finite.Injective_map_NoDup; [|apply seq_NoDup].
  intros i j Hij. eapply sample_path_inj, Hij.
Qed.

(** X24: every ground-truth file of a run is the export of a scene that
    the scene generator returned: it carries that scene's component and
    marker records under the names of its sample and the fixed meta
    block. *)
Theorem run_exports_come_from_scenes (tape : nat -> N)
    (pdflatex_run pdftoppm_run : string -> ToolRun) (n : nat) :
  Forall (fun f =>
            exists idx sc c0 c',
              generate_scene_with_leads tape c0 = Ok sc c'
              /\ fst f = sample_path idx ".json"
              /\ components (snd f) = scene_comps sc
              /\ e_markers (snd f) = scene_markers sc
              /\ meta (snd f) = export_meta
              /\ lookup "seed" (meta (snd f)) = Some (VInt SEED)
              /\ tex (snd f) = (("sample_" ++ fmt_05d idx) ++ ".tex")%string
              /\ image (snd f) = (("sample_" ++ fmt_05d idx) ++ ".png")%string)
    (ground_truth_exports
       (final_world (run tape pdflatex_run pdftoppm_run n))).
Proof.
  destruct (run_exports tape pdflatex_run pdftoppm_run n)
    as (scs & _ & Hex & Hall & _).
  rewrite Hex. apply exports_from_forall.
  intros j sc Hin. rewrite Forall_forall in Hall.
  destruct (Hall sc Hin) as (c0 & c' & Hg).
  exists j, sc, c0, c'. split; [exact Hg|].
  cbn [fst snd sample_export components e_markers meta tex image].
  repeat split.
Qed.

(** ** Runs under different tools *)

Lemma exports_from_app (i : nat) (scs scs' : list Scene) :
  exports_from i (scs ++ scs')
  = exports_from i scs ++ exports_from (i + List.length scs) scs'.
Proof.
  revert i. induction scs as [|sc scs IH]; intros i.
  - cbn [app List.length]. rewrite Nat.add_0_r. reflexivity.
  - cbn [app List.length]. rewrite !exports_from_cons, IH, Nat.add_succ_r.
    reflexivity.
Qed.

(** The tools decide how many samples a run exports, not what it exports:
    the ground truth is that of the first [k] scenes of [sample_scenes]. *)
Lemma main_loop_scenes (tape : nat -> N)
    (pdflatex_run pdftoppm_run : string -> ToolRun) (n : nat) :
  forall (i : nat) (w : World),
  exists k : nat,
    ground_truth_exports
      (final_world (main_loop tape pdflatex_run pdftoppm_run n i w))
    = ground_truth_exports w
      ++ exports_from i (firstn k (sample_scenes tape n (w_cursor w))).
Proof.
  induction n as [|n IH]; intros i w.
  - exists 0%nat. cbn. now rewrite app_nil_r.
  - cbn [main_loop sample_scenes]. unfold bind. rewrite generate_one_run.
    destruct (retry_scene tape retry_budget None (w_cursor w)) as [sc c'|e c'].
    + destruct (pdflatex_run _) as [e1|[|]];
        [|destruct (pdftoppm_run _) as [e2|[|]]|];
        try (exists 0%nat; cbn [final_world firstn];
             rewrite (ground_truth_exports_snoc c' (w_files w) _ w eq_refl);
             reflexivity).
      destruct (IH (S i) (mkWorld c' (w_files w ++ [tex_file i sc; pdf_file i;
                                                     png_file i; json_file i sc])))
        as (k & Hk).
      exists (S k). rewrite Hk. cbn [w_cursor firstn].
      rewrite (ground_truth_exports_snoc c' (w_files w) _ w eq_refl).
      rewrite exports_from_cons, <- app_assoc. reflexivity.
    + exists 0%nat. cbn [final_world firstn]. destruct w as [c0 fs]. cbn.
      now rewrite app_nil_r.
Qed.

Lemma exports_from_firstn_le (i k1 k2 : nat) (scs : list Scene) :
  (k1 <= k2)%nat ->
  exists more,
    exports_from i (firstn k2 scs) = exports_from i (firstn k1 scs) ++ more.
Proof.
  intros Hle.
  rewrite <- (firstn_skipn k1 (firstn k2 scs)), firstn_firstn, (Nat.min_l _ _ Hle).
  rewrite exports_from_app. eexists. reflexivity.
Qed.

(** X26: what a run exports for a sample does not depend on the external
    tools.  Of two runs over the same draws and for the same number of
    samples, under any two behaviours of the tools, the ground truth of one
    opens that of the other: every sample that both export has the same
    path and the same content in both, the tools deciding only where a run
    stops. *)
Theorem exports_do_not_depend_on_tools (tape : nat -> N)
    (pdflatex_run1 pdftoppm_run1 pdflatex_run2 pdftoppm_run2 : string -> ToolRun)
    (n : nat) :
  let e1 := ground_truth_exports
              (final_world (run tape pdflatex_run1 pdftoppm_run1 n)) in
  let e2 := ground_truth_exports
              (final_world (run tape pdflatex_run2 pdftoppm_run2 n)) in
  ((exists more, e2 = e1 ++ more) \/ (exists more, e1 = e2 ++ more))
  /\ (forall i f1 f2,
        nth_error e1 i = Some f1 -> nth_error e2 i = Some f2 -> f1 = f2).
Proof.
  cbv zeta. unfold run, main.
  destruct (main_loop_scenes tape pdflatex_run1 pdftoppm_run1 n 0 (mkWorld 0 []))
    as (k1 & ->).
  destruct (main_loop_scenes tape pdflatex_run2 pdftoppm_run2 n 0 (mkWorld 0 []))
    as (k2 & ->).
  cbn [ground_truth_exports w_files w_cursor flat_map app].
  set (scs := sample_scenes tape n 0).
  assert (Hpre : (exists more, exports_from 0 (firstn k2 scs)
                               = exports_from 0 (firstn k1 scs) ++ more)
                 \/ (exists more, exports_from 0 (firstn k1 scs)
                                  = exports_from 0 (firstn k2 scs) ++ more)).
  { destruct (Nat.le_ge_cases k1 k2) as [Hle|Hle];
      [left|right]; apply exports_from_firstn_le, Hle. }
  split; [exact Hpre|].
  intros i f1 f2 H1 H2.
  destruct Hpre as [(more & Heq)|(more & Heq)].
  - rewrite Heq, nth_error_app1 in H2 by (apply nth_error_Some; congruence).
    congruence.
  - rewrite Heq, nth_error_app1 in H1 by (apply nth_error_Some; congruence).
    congruence.
Qed.

(** One sample on [layout_tape]: with both tools at work the run exports
    it, with [pdflatex] not installed it exports nothing. *)
Lemma exports_do_not_depend_on_tools_witness :
  let missing := FileNotFoundError "[Errno 2] No such file or directory: 'pdflatex'" in
  let e1 := ground_truth_exports
              (final_world (run layout_tape (fun _ => RunLeaves true)
                              (fun _ => RunLeaves true) 1)) in
  let e2 := ground_truth_exports
              (final_world (run layout_tape (fun _ => RunRaises missing)
                              (fun _ => RunLeaves true) 1)) in
  e1 = [(sample_path 0 ".json", sample_export 0 layout_scene)]
  /\ e2 = []
  /\ ((exists more, e2 = e1 ++ more) \/ (exists more, e1 = e2 ++ more)).
Proof.
  intros missing e1 e2.
  split; [vm_compute; reflexivity|]. split; [vm_compute; reflexivity|].
  exact (proj1 (exports_do_not_depend_on_tools layout_tape (fun _ => RunLeaves true)
                  (fun _ => RunLeaves true) (fun _ => RunRaises missing)
                  (fun _ => RunLeaves true) 1)).
Defined.
